(** * A ride-sharing simulation: dispatcher, drivers, riders and events

    A shallow embedding of the Python sources [location.py], [rider.py],
    [driver.py], [dispatcher.py], [event.py] and [simulation.py], followed by
    the properties of the dispatcher, of the event state machine and of the
    simulation loop.

    Python objects are mutable and shared: the dispatcher's lists, the events
    and the callers all hold references to the same [Driver] and [Rider]
    objects.  The embedding therefore keeps an object store (one per class,
    indexed by reference) and lets lists and events hold references. *)

From Stdlib Require Import ZArith List String Bool Arith Lia Permutation.
Import ListNotations.

Local Open Scope Z_scope.

(* ================================================================= *)
(** ** Python outcomes *)

(** The exceptions the modelled code can raise. *)
Inductive exn : Type :=
| ZeroDivisionError   (* [distance / self.speed] with [speed == 0] *)
| OverflowError       (* [distance / self.speed] beyond the binary64 range *)
| AttributeError      (* [origin.row] on [None] *)
| ValueError          (* [list.remove(x)] with [x] absent *)
| IndexError.         (* removal from an empty queue *)

(** A call either returns a value or raises. *)
Inductive result (A : Type) : Type :=
| Ok (a : A)
| Raise (e : exn).
Arguments Ok {A} a.
Arguments Raise {A} e.

(* ================================================================= *)
(** ** location.py *)

Record Location : Type := mkLocation { row : Z; col : Z }.

(** [Location.__eq__] *)
Definition Location_eqb (a b : Location) : bool :=
  (row b =? row a) && (col b =? col a).

Definition manhattan_distance (origin destination : Location) : Z :=
  Z.abs (row origin - row destination) + Z.abs (col origin - col destination).

(* ================================================================= *)
(** ** Python's [round(n / d)] on integers *)

(** The quotient [n / d] ([d] non-zero) rounded to the nearest integer,
    halves going to the even neighbour.  This is the rounding of the exact
    quotient; it serves to round to a significand and to round a binary64
    number to an integer, and as the reference that [round(n / d)] is
    compared with. *)
Definition round_half_even (n d : Z) : Z :=
  let n' := if d <? 0 then - n else n in
  let d' := Z.abs d in
  let q := n' / d' in
  let r := n' mod d' in
  match 2 * r ?= d' with
  | Lt => q
  | Gt => q + 1
  | Eq => if Z.even q then q else q + 1
  end.

(** Python's true division [n / d] of two integers returns the binary64
    number nearest to the exact quotient, halves going to the even
    significand: 53 significant binary digits, and at most 1074 digits behind
    the binary point (the subnormal range).  A binary64 number is written
    [(m, s)] here, standing for [m / 2^s].  [binary64_scaled n d s] is the
    fraction [n * 2^s / d] with [s] of either sign; [binary64_shift] is the
    number of digits kept behind the binary point (negative when digits
    before the point are dropped) for positive [n] and [d]. *)
Definition binary64_scaled (n d s : Z) : Z * Z :=
  (n * 2 ^ Z.max s 0, d * 2 ^ Z.max (- s) 0).

Definition binary64_shift (n d : Z) : Z :=
  let s0 := 52 - Z.log2 n + Z.log2 d in
  let '(a, b) := binary64_scaled n d s0 in
  Z.min (if a <? 2 ^ 52 * b then s0 + 1 else s0) 1074.

Definition binary64_div (n d : Z) : Z * Z :=
  let s := binary64_shift n d in
  let '(a, b) := binary64_scaled n d s in
  (round_half_even a b, s).

(** The division raises [OverflowError] when the rounded quotient reaches
    [2^1024]. *)
Definition binary64_overflow (x : Z * Z) : bool :=
  let '(a, b) := binary64_scaled (fst x) 1 (- snd x) in
  2 ^ 1024 * b <=? a.

(** Python's [round] on a binary64 number: the nearest integer, halves to
    even. *)
Definition round_binary64 (x : Z * Z) : Z :=
  let '(a, b) := binary64_scaled (fst x) 1 (- snd x) in
  round_half_even a b.

Definition round_binary64_div (n d : Z) : Z := round_binary64 (binary64_div n d).

(** [round(n / d)]: the division raises on a zero divisor and on a quotient
    beyond the binary64 range; the quotient of zero is zero, and the sign of
    the quotient is the product of the signs. *)
Definition quotient_overflows (n d : Z) : bool :=
  binary64_overflow (binary64_div (Z.abs n) (Z.abs d)).

Definition py_round_div (n d : Z) : result Z :=
  if d =? 0 then Raise ZeroDivisionError
  else if n =? 0 then Ok 0
  else if quotient_overflows n d then Raise OverflowError
  else Ok (Z.sgn n * Z.sgn d * round_binary64_div (Z.abs n) (Z.abs d)).
Arguments py_round_div : simpl never.

(* ================================================================= *)
(** ** rider.py *)

Inductive RiderStatus : Type := WAITING | CANCELLED | SATISFIED.

Definition RiderStatus_eqb (a b : RiderStatus) : bool :=
  match a, b with
  | WAITING, WAITING | CANCELLED, CANCELLED | SATISFIED, SATISFIED => true
  | _, _ => false
  end.

Record Rider : Type := mkRider {
  rider_id : string;
  patience : Z;
  origin : Location;
  dest : Location;
  status : RiderStatus
}.

(** [Rider.__init__] *)
Definition Rider_init (identifier : string) (patience : Z)
    (origin destination : Location) : Rider :=
  mkRider identifier patience origin destination WAITING.

(** [Rider.__eq__]: riders are equal when their ids are. *)
Definition Rider_eqb (a b : Rider) : bool := String.eqb (rider_id a) (rider_id b).

Definition set_status (s : RiderStatus) (r : Rider) : Rider :=
  mkRider (rider_id r) (patience r) (origin r) (dest r) s.

(* ================================================================= *)
(** ** driver.py *)

(** [location] is annotated [Location], but [end_drive] and [end_ride] store
    [self.destination] in it, which is [None] for an idle driver; the field
    is therefore optional here, as [destination] is in the source. *)
Record Driver : Type := mkDriver {
  driver_id : string;
  location : option Location;
  speed : Z;
  is_idle : bool;
  destination : option Location
}.

(** [Driver.__init__] *)
Definition Driver_init (identifier : string) (location : Location) (speed : Z)
    : Driver :=
  mkDriver identifier (Some location) speed true None.

(** [Driver.get_travel_time]: [manhattan_distance] reads [self.location.row],
    which raises on [None]; then [round(distance / self.speed)]. *)
Definition get_travel_time (self : Driver) (destination : Location) : result Z :=
  match location self with
  | None => Raise AttributeError
  | Some here => py_round_div (manhattan_distance here destination) (speed self)
  end.

(** The driver methods assign fields before they compute their result, and
    an exception does not undo the assignments: each method returns the
    updated driver together with the outcome. *)
Definition start_drive (self : Driver) (loc : Location) : Driver * result Z :=
  let self' := mkDriver (driver_id self) (location self) (speed self)
                        false (Some loc) in
  (self', get_travel_time self' loc).

Definition end_drive (self : Driver) : Driver :=
  mkDriver (driver_id self) (destination self) (speed self) true None.

Definition start_ride (self : Driver) (rider : Rider) : Driver * result Z :=
  let self' := mkDriver (driver_id self) (Some (origin rider)) (speed self)
                        false (Some (dest rider)) in
  (self', get_travel_time self' (dest rider)).

Definition end_ride (self : Driver) : Driver :=
  mkDriver (driver_id self) (destination self) (speed self) true None.

(** What [request_driver] and [request_rider] do to the driver they match:
    [driver.is_idle = False; driver.destination = target]. *)
Definition assign_to (target : Location) (self : Driver) : Driver :=
  mkDriver (driver_id self) (location self) (speed self) false (Some target).

(* ================================================================= *)
(** ** The object store and the monitor *)

(** References to [Driver] and [Rider] objects. *)
Definition dref : Type := nat.
Definition rref : Type := nat.

(** Assignment to an attribute of the object behind a reference. *)
Definition upd {A : Type} (store : nat -> A) (r : nat) (v : A) : nat -> A :=
  fun r' => if Nat.eqb r' r then v else store r'.

Inductive Actor : Type := RIDER | DRIVER.
Inductive Activity : Type := REQUEST | CANCEL | PICKUP | DROPOFF.

(** Modelled from the spec: [monitor.py] is not among the sources.  The
    monitor receives [notify(timestamp, actorKind, activity, actorId,
    location)] calls and keeps them in execution order; [report()] summarises
    the log.  The location is whatever the caller read from the object, so it
    may be [None]. *)
Record Notification : Type := mkNotification {
  n_time : Z;
  n_actor : Actor;
  n_activity : Activity;
  n_id : string;
  n_location : option Location
}.

(** dispatcher.py: the two lists of the [Dispatcher] object. *)
Record Dispatcher : Type := mkDispatcher {
  _drivers : list dref;
  _waiting_rider : list rref
}.

(** [Dispatcher.__init__] *)
Definition Dispatcher_init : Dispatcher := mkDispatcher [] [].

Record World : Type := mkWorld {
  drivers : dref -> Driver;
  riders : rref -> Rider;
  dispatcher : Dispatcher;
  monitor : list Notification
}.

Definition set_driver (d : dref) (v : Driver) (w : World) : World :=
  mkWorld (upd (drivers w) d v) (riders w) (dispatcher w) (monitor w).

Definition set_rider (r : rref) (v : Rider) (w : World) : World :=
  mkWorld (drivers w) (upd (riders w) r v) (dispatcher w) (monitor w).

Definition set_dispatcher (disp : Dispatcher) (w : World) : World :=
  mkWorld (drivers w) (riders w) disp (monitor w).

Definition set_waiting (q : list rref) (w : World) : World :=
  set_dispatcher (mkDispatcher (_drivers (dispatcher w)) q) w.

Definition set_registered (l : list dref) (w : World) : World :=
  set_dispatcher (mkDispatcher l (_waiting_rider (dispatcher w))) w.

(* ================================================================= *)
(** ** Stateful, raising computations *)

(** A computation reads and updates the world and returns or raises; the
    world it leaves behind is kept in both cases. *)
Definition M (A : Type) : Type := World -> World * result A.

Definition ret {A} (a : A) : M A := fun w => (w, Ok a).

Definition bind {A B} (m : M A) (k : A -> M B) : M B :=
  fun w =>
    match m w with
    | (w', Ok a) => k a w'
    | (w', Raise e) => (w', Raise e)
    end.

Notation "x <- m ;; k" := (bind m (fun x => k))
  (at level 61, m at next level, right associativity).
Notation "m ;;; k" := (bind m (fun _ => k))
  (at level 61, right associativity).

Definition get_world : M World := fun w => (w, Ok w).
Definition modify (f : World -> World) : M unit := fun w => (f w, Ok tt).
Definition lift_result {A} (r : result A) : M A := fun w => (w, r).

(** A method call [driver.method(...)] on the object behind [d]. *)
Definition call_driver {A} (d : dref) (method : Driver -> Driver * result A)
    : M A :=
  fun w => let '(self', r) := method (drivers w d) in (set_driver d self' w, r).

(** [monitor.notify(...)] *)
Definition notify (t : Z) (a : Actor) (act : Activity) (id : string)
    (loc : option Location) : M unit :=
  modify (fun w => mkWorld (drivers w) (riders w) (dispatcher w)
                           (monitor w ++ [mkNotification t a act id loc])).

(* ================================================================= *)
(** ** dispatcher.py *)

(** The loop of [request_driver]: [temp] is the best idle driver so far.
    The travel time of every registered driver is computed, idle or not. *)
Fixpoint scan_drivers (store : dref -> Driver) (where_to : Location)
    (l : list dref) (temp : option dref) : result (option dref) :=
  match l with
  | [] => Ok temp
  | driver :: rest =>
      match get_travel_time (store driver) where_to with
      | Raise e => Raise e
      | Ok time =>
          if is_idle (store driver) then
            let temp1 := match temp with None => driver | Some t => t end in
            match get_travel_time (store temp1) where_to with
            | Raise e => Raise e
            | Ok best_time =>
                scan_drivers store where_to rest
                  (Some (if time <? best_time then driver else temp1))
            end
          else scan_drivers store where_to rest temp
      end
  end.

Definition request_driver (rider : rref) : M (option dref) :=
  w <- get_world ;;
  match _drivers (dispatcher w) with
  | [] =>
      modify (set_waiting (_waiting_rider (dispatcher w) ++ [rider])) ;;;
      ret None
  | _ :: _ =>
      temp <- lift_result (scan_drivers (drivers w) (origin (riders w rider))
                             (_drivers (dispatcher w)) None) ;;
      match temp with
      | None =>
          modify (set_waiting (_waiting_rider (dispatcher w) ++ [rider])) ;;;
          ret None
      | Some temp =>
          modify (set_driver temp
                    (assign_to (origin (riders w rider)) (drivers w temp))) ;;;
          ret (Some temp)
      end
  end.

(** [list.remove(x)]: drop the first item equal to [x]; raise when there is
    none. *)
Fixpoint list_remove {A} (is_x : A -> bool) (l : list A) : result (list A) :=
  match l with
  | [] => Raise ValueError
  | y :: l' =>
      if is_x y then Ok l'
      else match list_remove is_x l' with
           | Ok l'' => Ok (y :: l'')
           | Raise e => Raise e
           end
  end.

(** The comparison [list.remove] makes between an item and [rider]: the
    same object, or equal by [Rider.__eq__]. *)
Definition same_rider (w : World) (rider item : rref) : bool :=
  Nat.eqb item rider || Rider_eqb (riders w item) (riders w rider).

(** The registration loop of [request_rider]: [truth] stays [True] unless a
    registered driver has the id of [driver]. *)
Definition id_is_new (w : World) (driver : dref) : bool :=
  fold_left
    (fun truth ubers =>
       if String.eqb (driver_id (drivers w driver)) (driver_id (drivers w ubers))
       then false else truth)
    (_drivers (dispatcher w)) true.

Definition register (driver : dref) : M unit :=
  w <- get_world ;;
  if id_is_new w driver
  then modify (set_registered (_drivers (dispatcher w) ++ [driver]))
  else ret tt.

Definition request_rider (driver : dref) : M (option rref) :=
  w <- get_world ;;
  match _waiting_rider (dispatcher w) with
  | rider :: _ =>
      rest <- lift_result (list_remove (same_rider w rider)
                             (_waiting_rider (dispatcher w))) ;;
      modify (set_waiting rest) ;;;
      modify (set_driver driver
                (assign_to (origin (riders w rider)) (drivers w driver))) ;;;
      register driver ;;;
      ret (Some rider)
  | [] =>
      register driver ;;;
      ret None
  end.

(** The loop of [cancel_ride] removes from the list it iterates over.  A
    Python list iterator keeps an index: it stops when the index reaches the
    current length, and a removal shifts the later items down by one while
    the index still advances.  The index grows by one per iteration and the
    list never grows, so the length of the list bounds the iterations. *)
Fixpoint cancel_loop (fuel : nat) (w : World) (rider : rref) (i : nat)
    (l : list rref) : result (list rref) :=
  match fuel with
  | O => Ok l
  | S fuel' =>
      match nth_error l i with
      | None => Ok l
      | Some passenger =>
          if String.eqb (rider_id (riders w rider)) (rider_id (riders w passenger))
          then match list_remove (same_rider w passenger) l with
               | Ok l' => cancel_loop fuel' w rider (S i) l'
               | Raise e => Raise e
               end
          else cancel_loop fuel' w rider (S i) l
      end
  end.

Definition cancel_ride (rider : rref) : M unit :=
  w <- get_world ;;
  l <- lift_result (cancel_loop (List.length (_waiting_rider (dispatcher w))) w rider
                      O (_waiting_rider (dispatcher w))) ;;
  modify (set_waiting l).

(* ================================================================= *)
(** ** event.py *)

(** The five event classes; an event holds references to the rider and the
    driver it is about. *)
Inductive Event : Type :=
| RiderRequest (timestamp : Z) (rider : rref)
| DriverRequest (timestamp : Z) (driver : dref)
| Cancellation (timestamp : Z) (rider : rref)
| Pickup (timestamp : Z) (rider : rref) (driver : dref)
| Dropoff (timestamp : Z) (rider : rref) (driver : dref).

Definition timestamp (e : Event) : Z :=
  match e with
  | RiderRequest t _ | DriverRequest t _ | Cancellation t _
  | Pickup t _ _ | Dropoff t _ _ => t
  end.

(** [Event.__lt__] and [Event.__le__] compare timestamps only. *)
Definition Event_ltb (a b : Event) : bool := timestamp a <? timestamp b.
Definition Event_leb (a b : Event) : bool := timestamp a <=? timestamp b.

Definition RiderRequest_do (t : Z) (rider : rref) : M (list Event) :=
  w <- get_world ;;
  notify t RIDER REQUEST (rider_id (riders w rider))
         (Some (origin (riders w rider))) ;;;
  driver <- request_driver rider ;;
  match driver with
  | Some driver =>
      travel_time <- call_driver driver
                       (fun self => start_drive self (origin (riders w rider))) ;;
      ret [Pickup (t + travel_time) rider driver;
           Cancellation (t + patience (riders w rider)) rider]
  | None =>
      ret [Cancellation (t + patience (riders w rider)) rider]
  end.

Definition DriverRequest_do (t : Z) (driver : dref) : M (list Event) :=
  w <- get_world ;;
  notify t DRIVER REQUEST (driver_id (drivers w driver))
         (location (drivers w driver)) ;;;
  rider <- request_rider driver ;;
  match rider with
  | Some rider =>
      time <- call_driver driver
                (fun self => start_drive self (origin (riders w rider))) ;;
      ret [Pickup (t + time) rider driver]
  | None => ret []
  end.

Definition Cancellation_do (t : Z) (rider : rref) : M (list Event) :=
  w <- get_world ;;
  match status (riders w rider) with
  | WAITING =>
      modify (set_rider rider (set_status CANCELLED (riders w rider))) ;;;
      notify t RIDER CANCEL (rider_id (riders w rider))
             (Some (origin (riders w rider))) ;;;
      cancel_ride rider ;;;
      ret []
  | _ => ret []
  end.

Definition Pickup_do (t : Z) (rider : rref) (driver : dref) : M (list Event) :=
  w <- get_world ;;
  match status (riders w rider) with
  | WAITING =>
      call_driver driver (fun self => (end_drive self, Ok tt)) ;;;
      modify (set_rider rider (set_status SATISFIED (riders w rider))) ;;;
      w1 <- get_world ;;
      notify t DRIVER PICKUP (driver_id (drivers w1 driver))
             (location (drivers w1 driver)) ;;;
      notify t RIDER PICKUP (rider_id (riders w1 rider))
             (Some (origin (riders w1 rider))) ;;;
      travel <- call_driver driver
                  (fun self => start_ride self (riders w1 rider)) ;;
      ret [Dropoff (t + travel) rider driver]
  | CANCELLED =>
      call_driver driver (fun self => (end_drive self, Ok tt)) ;;;
      ret [DriverRequest t driver]
  | SATISFIED => ret []
  end.

Definition Dropoff_do (t : Z) (rider : rref) (driver : dref) : M (list Event) :=
  call_driver driver (fun self => (end_ride self, Ok tt)) ;;;
  w <- get_world ;;
  notify t RIDER DROPOFF (rider_id (riders w rider))
         (Some (origin (riders w rider))) ;;;
  notify t DRIVER DROPOFF (driver_id (drivers w driver))
         (location (drivers w driver)) ;;;
  cancel_ride rider ;;;
  ret [DriverRequest t driver].

(** [event.do(dispatcher, monitor)], dispatched on the class of the event. *)
Definition Event_do (e : Event) : M (list Event) :=
  match e with
  | RiderRequest t rider => RiderRequest_do t rider
  | DriverRequest t driver => DriverRequest_do t driver
  | Cancellation t rider => Cancellation_do t rider
  | Pickup t rider driver => Pickup_do t rider driver
  | Dropoff t rider driver => Dropoff_do t rider driver
  end.

(* ================================================================= *)
(** ** simulation.py *)

(** Modelled from the spec: [container.py] is not among the sources.  The
    engine keeps a priority collection of pending events: [add] inserts an
    event, [remove] takes out an event of least timestamp and [is_empty]
    tests for emptiness.  The order among events of equal timestamps is left
    open, so the collection is an interface here. *)
Class PriorityQueue (Q : Type) : Type := {
  pq_init : Q;
  pq_add : Q -> Event -> Q;
  pq_remove : Q -> result (Event * Q);
  pq_is_empty : Q -> bool
}.

(** What the simulation loop relies on: the collection holds exactly the
    events added and not yet removed. *)
Class PriorityQueueLaws (Q : Type) `{PriorityQueue Q} : Type := {
  pq_items : Q -> list Event;
  pq_items_init : pq_items pq_init = [];
  pq_items_add : forall q e, Permutation (pq_items (pq_add q e)) (e :: pq_items q);
  pq_is_empty_items : forall q, pq_is_empty q = true <-> pq_items q = [];
  pq_remove_items : forall q, pq_is_empty q = false ->
    exists e q', pq_remove q = Ok (e, q') /\
                 Permutation (pq_items q) (e :: pq_items q')
}.

(** A collection is a priority collection when the event it hands out has
    the least timestamp of its events. *)
Definition removes_least (Q : Type) `{PriorityQueueLaws Q} : Prop :=
  forall q e q',
    pq_remove q = Ok (e, q') ->
    forall x, In x (pq_items q) -> timestamp e <= timestamp x.

(** One such collection: the events in order of arrival, the first event of
    least timestamp being the one removed. *)
Fixpoint extract_least (e : Event) (l : list Event) : Event * list Event :=
  match l with
  | [] => (e, [])
  | x :: l' =>
      let '(m, rest) := extract_least x l' in
      if Event_leb e m then (e, l) else (m, e :: rest)
  end.

#[export] Instance ArrivalQueue : PriorityQueue (list Event) := {
  pq_init := [];
  pq_add q e := q ++ [e];
  pq_remove q :=
    match q with [] => Raise IndexError | e :: l => Ok (extract_least e l) end;
  pq_is_empty q := match q with [] => true | _ :: _ => false end
}.

(** The state of a run: the world, the pending events, and the events
    executed so far (most recent first). *)
Record Run (Q : Type) : Type := mkRun {
  run_world : World;
  run_events : Q;
  run_done : list Event
}.
Arguments mkRun {Q}.
Arguments run_world {Q}.
Arguments run_events {Q}.
Arguments run_done {Q}.

(** The [while] loop of [Simulation.run].  A Python loop need not end, so
    the model counts iterations down from [fuel] and answers [None] when the
    count is used up with events still pending. *)
Fixpoint run_loop {Q} `{PriorityQueue Q} (fuel : nat) (s : Run Q)
    : option (Run Q * result unit) :=
  match fuel with
  | O => None
  | S fuel' =>
      if pq_is_empty (run_events s) then Some (s, Ok tt)
      else
        match pq_remove (run_events s) with
        | Raise e => Some (s, Raise e)
        | Ok (event, q) =>
            match Event_do event (run_world s) with
            | (w', Raise e) => Some (mkRun w' q (event :: run_done s), Raise e)
            | (w', Ok possible) =>
                run_loop fuel'
                  (mkRun w' (fold_left pq_add possible q) (event :: run_done s))
            end
        end
  end.

(** [Simulation.__init__] on a store of objects. *)
Definition Simulation_init {Q} `{PriorityQueue Q}
    (ds : dref -> Driver) (rs : rref -> Rider) : Run Q :=
  mkRun (mkWorld ds rs Dispatcher_init []) pq_init [].

(** [Simulation.run]: queue the initial events, loop, and return
    [self._monitor.report()].  The report is a function of the monitor's
    log. *)
Definition Simulation_run {Q} `{PriorityQueue Q} {Report : Type}
    (report : list Notification -> Report) (fuel : nat)
    (s : Run Q) (initial_events : list Event)
    : option (Run Q * result Report) :=
  let s0 := mkRun (run_world s) (fold_left pq_add initial_events (run_events s))
                  (run_done s) in
  match run_loop fuel s0 with
  | None => None
  | Some (s', Ok _) => Some (s', Ok (report (monitor (run_world s'))))
  | Some (s', Raise e) => Some (s', Raise e)
  end.

(* ================================================================= *)
(** ** Vocabulary of the statements *)

(** A driver on which [get_travel_time(o)] returns: it has a location and
    a non-zero speed, and the quotient of its distance to [o] by its speed
    is within the binary64 range. *)
Definition driver_ok (d : Driver) (o : Location) : Prop :=
  exists here,
    location d = Some here /\ speed d <> 0 /\
    quotient_overflows (manhattan_distance here o) (speed d) = false.

Definition registered_ok (w : World) (o : Location) : Prop :=
  forall d, In d (_drivers (dispatcher w)) -> driver_ok (drivers w d) o.

(** The travel time of a registered driver to a place, where
    [get_travel_time] returns. *)
Definition time_to (store : dref -> Driver) (o : Location) (d : dref) : Z :=
  match get_travel_time (store d) o with Ok t => t | Raise _ => 0 end.

(** [r] is the first of the idle drivers of [l] with the least travel time:
    the idle drivers before it are strictly slower, those behind it are not
    faster. *)
Definition first_best (store : dref -> Driver) (o : Location)
    (l : list dref) (r : dref) : Prop :=
  exists l1 l2,
    l = l1 ++ r :: l2 /\
    is_idle (store r) = true /\
    (forall d, In d l1 -> is_idle (store d) = true ->
               time_to store o r < time_to store o d) /\
    (forall d, In d l2 -> is_idle (store d) = true ->
               time_to store o r <= time_to store o d).

(** Some registered driver has the id of [driver]. *)
Definition id_known (w : World) (driver : dref) : bool :=
  existsb (fun u => String.eqb (driver_id (drivers w driver))
                               (driver_id (drivers w u)))
          (_drivers (dispatcher w)).

(** The registered drivers once [driver] has contacted the dispatcher. *)
Definition registered_after (w : World) (driver : dref) : list dref :=
  if id_known w driver then _drivers (dispatcher w)
  else _drivers (dispatcher w) ++ [driver].

(** The pairing of the idle flag with the absence of a destination. *)
Definition driver_inv (d : Driver) : Prop :=
  is_idle d = true <-> destination d = None.

Definition drivers_inv (w : World) : Prop :=
  forall d, driver_inv (drivers w d).

(** Executing a sequence of events one after the other, whatever each of
    them returns or raises; the worlds passed through, the first one
    included. *)
Fixpoint worlds_of (es : list Event) (w : World) : list World :=
  match es with
  | [] => [w]
  | e :: es' => w :: worlds_of es' (fst (Event_do e w))
  end.

Definition status_trace (r : rref) (es : list Event) (w : World)
    : list RiderStatus :=
  map (fun w' => status (riders w' r)) (worlds_of es w).

(** Number of positions of a list where the next item differs. *)
Fixpoint changes (l : list RiderStatus) : nat :=
  match l with
  | a :: ((b :: _) as l') =>
      ((if RiderStatus_eqb a b then 0 else 1) + changes l')%nat
  | _ => O
  end.

(** A status that may follow [a] after one event execution. *)
Definition status_step (a b : RiderStatus) : Prop :=
  b = a \/ (a = WAITING /\ (b = CANCELLED \/ b = SATISFIED)).

(** Every item of the list may follow the one before it. *)
Fixpoint stepwise (l : list RiderStatus) : Prop :=
  match l with
  | a :: ((b :: _) as l') => status_step a b /\ stepwise l'
  | _ => True
  end.

(** The ids of the registered drivers, in registration order. *)
Definition registered_ids (w : World) : list string :=
  map (fun d => driver_id (drivers w d)) (_drivers (dispatcher w)).

(** The weight of a pending event: a bound on the number of executions it
    can still cause, a queued rider being worth one more [Pickup]. *)
Definition weight (e : Event) : nat :=
  match e with
  | RiderRequest _ _ => 5
  | DriverRequest _ _ => 1
  | Cancellation _ _ => 1
  | Pickup _ _ _ => 3
  | Dropoff _ _ _ => 2
  end%nat.

Definition weights (l : list Event) : nat :=
  fold_right (fun e n => (weight e + n)%nat) O l.

(** The potential of a run: the weights of the pending events plus three
    for every rider in the waiting queue. *)
Definition potential {Q} `{PriorityQueueLaws Q} (s : Run Q) : nat :=
  (weights (pq_items (run_events s)) +
   3 * List.length (_waiting_rider (dispatcher (run_world s))))%nat.

(** [e] is strictly earlier than every event of [rest]. *)
Definition strictly_least (e : Event) (rest : list Event) : bool :=
  forallb (fun x => timestamp e <? timestamp x) rest.

(** The loop of [Simulation.run] on the bare list of pending events, as
    long as one pending event is strictly the earliest: then every priority
    collection hands out that event.  The answer is [None] when the fuel is
    used up or when two events tie for the least timestamp. *)
Fixpoint tie_free_run (fuel : nat) (w : World) (pending done : list Event)
    : option (World * list Event * list Event * result unit) :=
  match fuel with
  | O => None
  | S fuel' =>
      match pending with
      | [] => Some (w, [], done, Ok tt)
      | x :: l =>
          let '(e, rest) := extract_least x l in
          if strictly_least e rest then
            match Event_do e w with
            | (w', Raise ex) => Some (w', rest, e :: done, Raise ex)
            | (w', Ok possible) =>
                tie_free_run fuel' w' (rest ++ possible) (e :: done)
            end
          else None
      end
  end.

(* ----------------------------------------------------------------- *)
(** *** Concrete scenarios *)

Local Open Scope string_scope.

(** Driver [D0] at (3,5) with speed 3 and rider [R0] with patience 10 from
    (7,7) to (20,2); [D0] is registered and idle. *)
Definition D0 : Driver := Driver_init "D0" (mkLocation 3 5) 3.
Definition R0 : Rider := Rider_init "R0" 10 (mkLocation 7 7) (mkLocation 20 2).
Definition world0 : World :=
  mkWorld (fun _ => D0) (fun _ => R0) (mkDispatcher [0%nat] []) [].

(** A driver heading to (1,1) while the rider it is to pick up waits at
    (7,7). *)
Definition D_elsewhere : Driver :=
  mkDriver "D0" (Some (mkLocation 3 5)) 3 false (Some (mkLocation 1 1)).
Definition world_elsewhere : World :=
  mkWorld (fun _ => D_elsewhere) (fun _ => R0) (mkDispatcher [0%nat] []) [].

(** A run in which a busy driver is matched again: [D] is on its way to a
    first rider at (0,5) when its second [DriverRequest] gives it a second
    rider at (0,1), whom it picks up and starts to carry to (0,4).  These
    five events are executed in this order by every priority collection;
    the [Pickup] of the first rider, scheduled at 6, comes next. *)
Definition busy_again_riders (r : rref) : Rider :=
  match r with
  | O => Rider_init "R1" 100 (mkLocation 0 5) (mkLocation 0 6)
  | _ => Rider_init "R2" 100 (mkLocation 0 1) (mkLocation 0 4)
  end.
Definition busy_again_world : World :=
  mkWorld (fun _ => Driver_init "D" (mkLocation 0 0) 1) busy_again_riders
          Dispatcher_init [].
Definition busy_again_prefix : list Event :=
  [DriverRequest 0 0%nat; RiderRequest 1 0%nat; RiderRequest 2 1%nat;
   DriverRequest 3 0%nat; Pickup 4 1%nat 0%nat].

(** The world after the execution of a sequence of events. *)
Definition world_after (es : list Event) (w : World) : World :=
  fold_left (fun w e => fst (Event_do e w)) es w.

(** The objects of [test_dispatcher] in [a1_my_tests.py]: drivers [GEO] and
    [GEO1], riders [SPA], [SPA1] and a second rider with the id [SPA1]. *)
Definition test_drivers (d : dref) : Driver :=
  match d with
  | O => Driver_init "GEO" (mkLocation 3 5) 3
  | _ => Driver_init "GEO1" (mkLocation 3 10) 2
  end.
Definition test_riders (r : rref) : Rider :=
  match r with
  | O => Rider_init "SPA" 10 (mkLocation 7 7) (mkLocation 20 2)
  | S O => Rider_init "SPA1" 5 (mkLocation 5 7) (mkLocation 2 2)
  | _ => Rider_init "SPA1" 2 (mkLocation 5 7) (mkLocation 2 2)
  end.
Definition test_world : World :=
  mkWorld test_drivers test_riders Dispatcher_init [].

(** [rider in dispatcher._waiting_rider] *)
Definition is_waiting (w : World) (rider : rref) : bool :=
  existsb (same_rider w rider) (_waiting_rider (dispatcher w)).

(** One driver object [D] named by two initial [DriverRequest] events. *)
Definition D : Driver := Driver_init "D" (mkLocation 0 0) 1.
Definition three_riders (r : rref) : Rider :=
  match r with
  | O => Rider_init "R1" 100 (mkLocation 0 0) (mkLocation 0 10)
  | S O => Rider_init "R2" 100 (mkLocation 0 1) (mkLocation 0 3)
  | _ => Rider_init "R3" 100 (mkLocation 5 5) (mkLocation 0 3)
  end.
Definition shared_driver_events : list Event :=
  [DriverRequest 0 0%nat; RiderRequest 1 0%nat; RiderRequest 2 1%nat;
   DriverRequest 3 0%nat; RiderRequest 20 2%nat].
Definition shared_driver_world : World :=
  mkWorld (fun _ => D) three_riders Dispatcher_init [].


Local Close Scope string_scope.

(* ================================================================= *)
(** ** Further methods of the sources and vocabulary of their properties *)

(** event.py: [Event.__eq__], [__ne__], [__gt__] and [__ge__]; like
    [__lt__] and [__le__] they look at the timestamps only, [__gt__] being
    [not self <= other] and [__ge__] being [not self < other]. *)
Definition Event_eqb (a b : Event) : bool := timestamp a =? timestamp b.
Definition Event_neb (a b : Event) : bool := negb (Event_eqb a b).
Definition Event_gtb (a b : Event) : bool := negb (Event_leb a b).
Definition Event_geb (a b : Event) : bool := negb (Event_ltb a b).

(** driver.py: [Driver.__eq__], equality of the ids. *)
Definition Driver_eqb (a b : Driver) : bool :=
  String.eqb (driver_id b) (driver_id a).

(** The queued rider [r] has another id than [rider]: the test of the loop
    of [cancel_ride], negated. *)
Definition other_id (w : World) (rider r : rref) : bool :=
  negb (String.eqb (rider_id (riders w rider)) (rider_id (riders w r))).

(** The ids of the queued riders, in queue order. *)
Definition waiting_ids (w : World) : list string :=
  map (fun r => rider_id (riders w r)) (_waiting_rider (dispatcher w)).

(** A driver without location or with speed zero, on which
    [get_travel_time] raises whatever the destination, and the exception it
    raises. *)
Definition driver_bad (d : Driver) : Prop :=
  location d = None \/ speed d = 0.

Definition travel_time_error (d : Driver) : exn :=
  match location d with None => AttributeError | Some _ => ZeroDivisionError end.

(** The attributes no method assigns after construction. *)
Definition same_driver_attributes (a b : Driver) : Prop :=
  driver_id a = driver_id b /\ speed a = speed b.

Definition same_rider_attributes (a b : Rider) : Prop :=
  rider_id a = rider_id b /\ patience a = patience b /\
  origin a = origin b /\ dest a = dest b.

(** A list of executed events, most recent first, in which no event is
    earlier than the event executed before it. *)
Fixpoint latest_first (l : list Event) : Prop :=
  match l with
  | a :: ((b :: _) as l') => timestamp b <= timestamp a /\ latest_first l'
  | _ => True
  end.

(** Successive calls [request_driver(r)] for the riders of a list, and
    successive calls [request_rider(d)] for the drivers of a list with the
    answers they give. *)
Definition request_drivers (rl : list rref) (w : World) : World :=
  fold_left (fun w r => fst (request_driver r w)) rl w.

Fixpoint request_riders (dl : list dref) (w : World)
    : list (result (option rref)) * World :=
  match dl with
  | [] => ([], w)
  | d :: dl' =>
      let '(w', answer) := request_rider d w in
      let '(answers, w'') := request_riders dl' w' in
      (answer :: answers, w'')
  end.

(** Riders for the waiting queue: ids [A], [B], [A] again and [C]. *)
Definition queue_riders (r : rref) : Rider :=
  match r with
  | O => Rider_init "A" 10 (mkLocation 0 0) (mkLocation 1 1)
  | S O => Rider_init "B" 10 (mkLocation 0 2) (mkLocation 3 1)
  | S (S O) => Rider_init "A" 7 (mkLocation 4 4) (mkLocation 1 1)
  | _ => Rider_init "C" 10 (mkLocation 5 0) (mkLocation 1 1)
  end%string.
Definition world_queue (q : list rref) : World :=
  mkWorld test_drivers queue_riders (mkDispatcher [] q) [].

(** An idle driver next to a busy one that lost its location: what a second
    [end_drive] in a row leaves behind. *)
Definition stranded_drivers (d : dref) : Driver :=
  match d with
  | O => D0
  | _ => mkDriver "D1"%string None 2 false (Some (mkLocation 1 1))
  end.
Definition world_stranded : World :=
  mkWorld stranded_drivers (fun _ => R0) (mkDispatcher [0%nat; 1%nat] []) [].

(** Two idle drivers one step apart and a rider [2^53 + 1] steps from the
    first: the binary64 quotients of the two distances are the same. *)
Definition far_drivers (d : dref) : Driver :=
  match d with
  | O => Driver_init "F0"%string (mkLocation 0 0) 1
  | _ => Driver_init "F1"%string (mkLocation 0 1) 1
  end.
Definition world_far : World :=
  mkWorld far_drivers
          (fun _ => Rider_init "R"%string 10 (mkLocation 0 (2 ^ 53 + 1))
                               (mkLocation 0 0))
          (mkDispatcher [0%nat; 1%nat] []) [].

(** A driver that does not move: the speed 0 is an [int] like any other. *)
Definition D_still : Driver := Driver_init "Z"%string (mkLocation 0 0) 0.
Definition world_still : World :=
  mkWorld (fun _ => D_still) (fun _ => R0) (mkDispatcher [0%nat] []) [].

(** The same driver heading for (7,7). *)
Definition world_still_heading : World :=
  mkWorld (fun _ => assign_to (mkLocation 7 7) D_still) (fun _ => R0)
          (mkDispatcher [0%nat] []) [].

(** What no method assigns: from [w] to [w'] every driver object keeps its
    id and speed, every rider object its id, patience, origin and
    destination; the list of registered drivers and the monitor's log are
    only appended to. *)
Definition world_grows (w w' : World) : Prop :=
  (forall u, same_driver_attributes (drivers w' u) (drivers w u)) /\
  (forall r, same_rider_attributes (riders w' r) (riders w r)) /\
  (exists more,
     _drivers (dispatcher w') = _drivers (dispatcher w) ++ more) /\
  (exists more, monitor w' = monitor w ++ more).

(** The data model of the service: positive speeds, patience that is not
    negative. *)
Definition positive_speeds (w : World) : Prop :=
  forall u, 0 < speed (drivers w u).
Definition patient_riders (w : World) : Prop :=
  forall r, 0 <= patience (riders w r).

(** [x] is not earlier than the event executed last. *)
Definition not_before (done : list Event) (x : Event) : Prop :=
  match done with
  | [] => True
  | last :: _ => timestamp last <= timestamp x
  end.

(* ================================================================= *)
(** * Properties *)

(* ================================================================= *)
(** ** The test of the repository *)

(** The assertions of [test_dispatcher] hold of the embedding. *)
Example test_dispatcher :
  let w1 := fst (request_rider 0%nat test_world) in
  let w2 := fst (request_driver 0%nat w1) in
  let w3 := fst (request_driver 1%nat w2) in
  let w4 := fst (request_rider 1%nat w3) in
  let w5 := fst (request_driver 2%nat w4) in
  let w6 := fst (cancel_ride 2%nat w5) in
  let first_driver w := drivers w (nth 0 (_drivers (dispatcher w)) 0%nat) in
  is_idle (first_driver w2) = false /\
  List.length (_waiting_rider (dispatcher w2)) = 0%nat /\
  is_idle (first_driver w4) = false /\
  List.length (_waiting_rider (dispatcher w4)) = 0%nat /\
  List.length (_waiting_rider (dispatcher w5)) = 1%nat /\
  is_waiting w5 2%nat = true /\
  List.length (_waiting_rider (dispatcher w6)) = 0%nat /\
  is_waiting w6 2%nat = false.
Proof. vm_compute. repeat split. Qed.

(* ================================================================= *)
(** ** Distances and travel times *)

Lemma manhattan_distance_nonneg (a b : Location) : 0 <= manhattan_distance a b.
Proof. unfold manhattan_distance. lia. Qed.

Lemma manhattan_distance_sym (a b : Location) :
  manhattan_distance a b = manhattan_distance b a.
Proof. unfold manhattan_distance. lia. Qed.

(** For a positive divisor the rounding is the floor of the quotient or its
    successor, chosen by the remainder. *)
Lemma round_half_even_pos (n d : Z) :
  0 < d ->
  round_half_even n d =
    match 2 * (n mod d) ?= d with
    | Lt => n / d
    | Gt => n / d + 1
    | Eq => if Z.even (n / d) then n / d else n / d + 1
    end.
Proof.
  intros Hd. unfold round_half_even.
  destruct (Z.ltb_spec d 0) as [H|H]; [lia|].
  rewrite Z.abs_eq by lia. reflexivity.
Qed.

Lemma round_half_even_nonneg (n d : Z) :
  0 <= n -> 0 < d -> 0 <= round_half_even n d.
Proof.
  intros Hn Hd. rewrite round_half_even_pos by assumption.
  assert (0 <= n / d) by (apply Z.div_pos; lia).
  destruct (2 * (n mod d) ?= d); [destruct (Z.even (n / d))| |]; lia.
Qed.

(** The result is a nearest integer: it is at most one half away from the
    quotient. *)
Lemma round_half_even_nearest (n d : Z) :
  0 < d -> Z.abs (2 * (round_half_even n d * d - n)) <= d.
Proof.
  intros Hd. rewrite round_half_even_pos by assumption.
  pose proof (Z.div_mod n d ltac:(lia)) as E.
  pose proof (Z.mod_pos_bound n d Hd) as B.
  destruct (Z.compare_spec (2 * (n mod d)) d) as [C|C|C];
    [destruct (Z.even (n / d))| |]; nia.
Qed.


(** [round_half_even] is the one integer within a half of the quotient,
    the even one of the two on a tie. *)
Lemma round_half_even_sound (a b : Z) :
  0 < b ->
  Z.abs (2 * (round_half_even a b * b - a)) < b \/
  (Z.abs (2 * (round_half_even a b * b - a)) = b /\
   Z.even (round_half_even a b) = true).
Proof.
  intros Hb. rewrite round_half_even_pos by assumption.
  pose proof (Z.div_mod a b ltac:(lia)) as E.
  pose proof (Z.mod_pos_bound a b Hb) as B.
  destruct (Z.compare_spec (2 * (a mod b)) b) as [C|C|C].
  - right. destruct (Z.even (a / b)) eqn:Ev.
    + split; [nia|assumption].
    + split; [nia|]. rewrite Z.even_add, Ev. reflexivity.
  - left. nia.
  - left. nia.
Qed.

Lemma round_half_even_unique (a b x : Z) :
  0 < b ->
  Z.abs (2 * (x * b - a)) < b \/
  (Z.abs (2 * (x * b - a)) = b /\ Z.even x = true) ->
  x = round_half_even a b.
Proof.
  intros Hb Hx. pose proof (round_half_even_sound a b Hb) as Hy.
  set (y := round_half_even a b) in *.
  assert (Hclose : -1 <= x - y <= 1)
    by (destruct Hx as [?|[? _]], Hy as [?|[? _]]; nia).
  assert (x - y = 0 \/ x - y = 1 \/ x - y = -1) as [?|[D|D]] by lia; [lia| |].
  - destruct Hx as [?|[Hx Ex]], Hy as [?|[Hy Ey]]; try nia.
    apply Z.even_spec in Ex, Ey. destruct Ex as [i ->], Ey as [j Ej]. lia.
  - destruct Hx as [?|[Hx Ex]], Hy as [?|[Hy Ey]]; try nia.
    apply Z.even_spec in Ex, Ey. destruct Ex as [i ->], Ey as [j Ej]. lia.
Qed.

(** Rounding first to a grid of step [1/(2P')] finer than [1/d] and then to
    an integer is rounding to an integer. *)
Lemma round_half_even_twice (n d P' : Z) :
  0 < d -> d < 2 * P' ->
  round_half_even (round_half_even (n * (2 * P')) d) (2 * P') =
  round_half_even n d.
Proof.
  intros Hd HP. symmetry. apply round_half_even_unique; [lia|].
  pose proof (round_half_even_sound n d Hd) as HX.
  pose proof (round_half_even_sound (n * (2 * P')) d Hd) as HM.
  set (X := round_half_even n d) in *.
  set (M := round_half_even (n * (2 * P')) d) in *.
  destruct HX as [HX|[HX EX]].
  - left.
    assert (Z.abs (2 * (M * d - n * (2 * P'))) <= d)
      by (destruct HM as [?|[? _]]; lia).
    nia.
  - right. split; [|assumption].
    assert (HMe : M * d = n * (2 * P')).
    { assert (Hn : 2 * n = (2 * X + 1) * d \/ 2 * n = (2 * X - 1) * d) by lia.
      assert (Hex : exists c, n * (2 * P') = c * d)
        by (destruct Hn; [exists ((2 * X + 1) * P')|exists ((2 * X - 1) * P')]; nia).
      destruct Hex as [c Hc].
      assert (c = M); [|nia].
      apply round_half_even_unique; [lia|]. left. rewrite Hc.
      replace (c * d - c * d) with 0 by lia. simpl. lia. }
    nia.
Qed.

(** *** The binary64 quotient *)

(** What Python returns on some quotients, among them the largest binary64
    number and its successor, a quotient in the subnormal range, and
    quotients of integers beyond [2^53]. *)
Example py_round_div_examples :
  py_round_div 6 3 = Ok 2 /\
  py_round_div 5 2 = Ok 2 /\
  py_round_div 7 2 = Ok 4 /\
  py_round_div 7 (-2) = Ok (-4) /\
  py_round_div 0 (-5) = Ok 0 /\
  py_round_div 5 0 = Raise ZeroDivisionError /\
  py_round_div (2 ^ 53 + 1) 1 = Ok (2 ^ 53) /\
  py_round_div (2 ^ 53 + 1) (2 ^ 54) = Ok 0 /\
  py_round_div 3 (2 ^ 1075) = Ok 0 /\
  py_round_div (2 ^ 1024 - 2 ^ 970 - 1) 1 = Ok (2 ^ 1024 - 2 ^ 971) /\
  py_round_div (2 ^ 1024 - 2 ^ 970) 1 = Raise OverflowError /\
  py_round_div (10 ^ 400) 1 = Raise OverflowError.
Proof. vm_compute. repeat split. Qed.

Lemma round_half_even_of_zero (b : Z) : round_half_even 0 b = 0.
Proof.
  unfold round_half_even.
  replace (if b <? 0 then - 0 else 0) with 0 by (destruct (b <? 0); reflexivity).
  rewrite Zdiv_0_l, Zmod_0_l.
  destruct (Z.compare_spec (2 * 0) (Z.abs b)); [reflexivity|reflexivity|lia].
Qed.

Lemma round_binary64_div_zero (d : Z) : round_binary64_div 0 d = 0.
Proof.
  unfold round_binary64_div, round_binary64, binary64_div, binary64_scaled.
  rewrite Z.mul_0_l, round_half_even_of_zero. cbn [fst snd].
  rewrite Z.mul_0_l. apply round_half_even_of_zero.
Qed.

Lemma binary64_shift_bounds (n d : Z) :
  0 < n -> 0 < d -> n < 2 ^ 52 * d -> 1 <= binary64_shift n d <= 1074.
Proof.
  intros Hn Hd Hq.
  pose proof (Z.log2_spec n Hn) as [Hn1 _].
  pose proof (Z.log2_spec d Hd) as [_ Hd2].
  pose proof (Z.log2_nonneg n) as Ha. pose proof (Z.log2_nonneg d) as Hb.
  assert (Hs0 : 0 <= 52 - Z.log2 n + Z.log2 d).
  { assert (H : 2 ^ Z.log2 n < 2 ^ (53 + Z.log2 d)).
    { replace (53 + Z.log2 d) with (52 + Z.succ (Z.log2 d)) by lia.
      rewrite Z.pow_add_r by lia. nia. }
    apply Z.pow_lt_mono_r_iff in H; lia. }
  unfold binary64_shift, binary64_scaled.
  set (s0 := 52 - Z.log2 n + Z.log2 d) in *.
  destruct (Z.eq_dec s0 0) as [E|E].
  - rewrite E. simpl Z.max. rewrite Z.pow_0_r, !Z.mul_1_r.
    destruct (Z.ltb_spec n (2 ^ 52 * d)); lia.
  - destruct (_ <? _); lia.
Qed.

(** Below [2^52] the significand keeps more digits behind the point than
    the divisor has, unless the quotient is subnormal. *)
Lemma binary64_shift_fine (n d : Z) :
  0 < n < 2 ^ 52 -> 0 < d ->
  d < 2 ^ binary64_shift n d \/ binary64_shift n d = 1074.
Proof.
  intros Hn Hd.
  assert (Ha : 0 <= Z.log2 n < 52)
    by (split; [apply Z.log2_nonneg|apply Z.log2_lt_pow2; lia]).
  pose proof (Z.log2_nonneg d) as Hb.
  pose proof (proj2 (Z.log2_spec d Hd)) as Hd2.
  unfold binary64_shift. destruct (binary64_scaled n d _) as [a b].
  set (s := if a <? 2 ^ 52 * b then _ else _).
  assert (Hs : Z.log2 d + 1 <= s) by (subst s; destruct (a <? 2 ^ 52 * b); lia).
  destruct (Z.le_gt_cases s 1074) as [Hle|Hgt].
  - left. rewrite Z.min_l by assumption.
    eapply Z.lt_le_trans; [exact Hd2|]. apply Z.pow_le_mono_r; lia.
  - right. apply Z.min_r. lia.
Qed.

(** With digits behind the point, the number [(m, s)] is the fraction
    [m / 2^s]. *)
Lemma binary64_scaled_behind (m s : Z) :
  0 <= s -> binary64_scaled m 1 (- s) = (m, 2 ^ s).
Proof.
  intros Hs. unfold binary64_scaled. rewrite Z.opp_involutive.
  rewrite (Z.max_r (- s) 0), (Z.max_l s 0) by lia.
  rewrite Z.pow_0_r, Z.mul_1_r, Z.mul_1_l. reflexivity.
Qed.

Lemma binary64_div_behind (n d : Z) :
  0 <= binary64_shift n d ->
  binary64_div n d =
    (round_half_even (n * 2 ^ binary64_shift n d) d, binary64_shift n d).
Proof.
  intros Hs. unfold binary64_div, binary64_scaled.
  rewrite (Z.max_l _ 0), (Z.max_r _ 0) by lia.
  rewrite Z.pow_0_r, Z.mul_1_r. reflexivity.
Qed.

(** A quotient below [2^52] does not overflow. *)
Lemma quotient_overflows_small (n d : Z) :
  0 < n -> 0 < d -> n < 2 ^ 52 * d -> quotient_overflows n d = false.
Proof.
  intros Hn Hd Hq. unfold quotient_overflows.
  rewrite !Z.abs_eq by lia.
  pose proof (binary64_shift_bounds n d Hn Hd Hq) as Hs.
  rewrite binary64_div_behind by lia.
  unfold binary64_overflow. cbn [fst snd].
  rewrite binary64_scaled_behind by lia.
  set (s := binary64_shift n d) in *.
  pose proof (round_half_even_nearest (n * 2 ^ s) d Hd) as Hm.
  set (m := round_half_even (n * 2 ^ s) d) in *.
  assert (Hp : 0 < 2 ^ s) by (apply Z.pow_pos_nonneg; lia).
  apply Z.leb_gt.
  assert (Hmd : m * d < (2 ^ 52 * 2 ^ s + 1) * d) by nia.
  assert (Hlt : m < 2 ^ 52 * 2 ^ s + 1) by nia.
  assert (H1024 : 2 ^ 53 <= 2 ^ 1024) by (apply Z.pow_le_mono_r; lia).
  nia.
Qed.

Lemma round_half_even_small (n d : Z) :
  0 <= n -> 2 * n < d -> round_half_even n d = 0.
Proof.
  intros Hn Hd. symmetry. apply round_half_even_unique; [lia|]. left. lia.
Qed.

(** Below [2^52] the rounded binary64 quotient is the rounded exact
    quotient. *)
Lemma round_binary64_div_exact (n d : Z) :
  0 < n < 2 ^ 52 -> 0 < d ->
  round_binary64_div n d = round_half_even n d.
Proof.
  intros Hn Hd.
  assert (Hq : n < 2 ^ 52 * d) by nia.
  pose proof (binary64_shift_bounds n d (proj1 Hn) Hd Hq) as Hs.
  unfold round_binary64_div, round_binary64.
  rewrite binary64_div_behind by lia. cbn [fst snd].
  rewrite binary64_scaled_behind by lia.
  destruct (binary64_shift_fine n d Hn Hd) as [Hfine|Hsub].
  - set (s := binary64_shift n d) in *.
    replace (2 ^ s) with (2 * 2 ^ (s - 1)) in *
      by (rewrite <- Z.pow_succ_r by lia; f_equal; lia).
    apply round_half_even_twice; assumption.
  - rewrite Hsub in *.
    destruct (Z.lt_ge_cases d (2 ^ 1074)) as [Hlt|Hge].
    + replace (2 ^ 1074) with (2 * 2 ^ 1073) in *
        by (rewrite <- Z.pow_succ_r by lia; reflexivity).
      apply round_half_even_twice; assumption.
    + assert (H53 : 2 ^ 54 <= 2 ^ 1074) by (apply Z.pow_le_mono_r; lia).
      rewrite (round_half_even_small n d) by lia.
      pose proof (round_half_even_nearest (n * 2 ^ 1074) d Hd) as Hm.
      pose proof (round_half_even_nonneg (n * 2 ^ 1074) d) as Hm0.
      set (m := round_half_even (n * 2 ^ 1074) d) in *.
      assert (Hm52 : m <= 2 ^ 52).
      { assert (m * d < (2 ^ 52 + 1) * d) by nia. nia. }
      apply round_half_even_small; [apply Hm0; nia|lia].
Qed.

(** [round(n / d)] of a distance below [2^52] by a positive speed is the
    exact quotient rounded to the nearest integer, halves to even. *)
Lemma py_round_div_small (n d : Z) :
  0 <= n < 2 ^ 52 -> 0 < d -> py_round_div n d = Ok (round_half_even n d).
Proof.
  intros Hn Hd. unfold py_round_div.
  destruct (Z.eqb_spec d 0); [lia|].
  destruct (Z.eqb_spec n 0) as [->|Hn0].
  - rewrite round_half_even_small by lia. reflexivity.
  - rewrite quotient_overflows_small by nia.
    rewrite !Z.abs_eq, !Z.sgn_pos by lia.
    rewrite round_binary64_div_exact by lia. f_equal. lia.
Qed.

(** Where it returns, on a distance and a positive speed, it is not
    negative. *)
Lemma py_round_div_nonneg (n d t : Z) :
  0 <= n -> 0 < d -> py_round_div n d = Ok t -> 0 <= t.
Proof.
  intros Hn Hd. unfold py_round_div.
  destruct (d =? 0); [discriminate|].
  destruct (Z.eqb_spec n 0); [intros [= <-]; lia|].
  destruct (quotient_overflows n d); [discriminate|]. intros [= <-].
  rewrite !Z.abs_eq, !Z.sgn_pos by lia.
  unfold round_binary64_div, round_binary64, binary64_div.
  destruct (binary64_scaled n d _) as [a b] eqn:Eab. cbn [fst snd].
  unfold binary64_scaled in *. injection Eab as <- <-.
  set (p1 := 2 ^ Z.max (binary64_shift n d) 0).
  set (p2 := 2 ^ Z.max (- binary64_shift n d) 0).
  assert (0 < p1) by (apply Z.pow_pos_nonneg; lia).
  assert (0 < p2) by (apply Z.pow_pos_nonneg; lia).
  assert (0 < 2 ^ Z.max (- - binary64_shift n d) 0)
    by (apply Z.pow_pos_nonneg; lia).
  assert (0 <= round_half_even (n * p1) (d * p2))
    by (apply round_half_even_nonneg; nia).
  assert (0 <= round_half_even
                 (round_half_even (n * p1) (d * p2) * p2)
                 (1 * 2 ^ Z.max (- - binary64_shift n d) 0))
    by (apply round_half_even_nonneg; nia).
  lia.
Qed.


(** *** Travel times *)

Lemma get_travel_time_ok (self : Driver) (here destination : Location) :
  location self = Some here -> 0 < speed self ->
  manhattan_distance here destination < 2 ^ 52 ->
  get_travel_time self destination =
    Ok (round_half_even (manhattan_distance here destination) (speed self)).
Proof.
  intros Hl Hs Hd. unfold get_travel_time. rewrite Hl.
  apply py_round_div_small; [|assumption].
  split; [apply manhattan_distance_nonneg|assumption].
Qed.

Lemma quotient_overflows_zero (d : Z) : quotient_overflows 0 d = false.
Proof.
  unfold quotient_overflows, binary64_overflow, binary64_div, binary64_scaled.
  change (Z.abs 0) with 0. rewrite Z.mul_0_l, round_half_even_of_zero.
  cbn [fst snd].
  rewrite Z.mul_0_l. apply Z.leb_gt.
  set (p := 2 ^ Z.max (- - binary64_shift 0 (Z.abs d)) 0).
  assert (0 < p) by (apply Z.pow_pos_nonneg; lia).
  assert (0 < 2 ^ 1024) by (apply Z.pow_pos_nonneg; lia).
  nia.
Qed.

(** [driver_ok] is the condition under which [get_travel_time] returns. *)
Lemma driver_ok_travel_time (d : Driver) (o : Location) :
  driver_ok d o <-> exists t, get_travel_time d o = Ok t.
Proof.
  unfold driver_ok, get_travel_time, py_round_div. split.
  - intros (here & -> & Hs & Hov).
    destruct (Z.eqb_spec (speed d) 0); [contradiction|].
    destruct (_ =? 0); [eexists; reflexivity|].
    rewrite Hov. eexists. reflexivity.
  - intros [t H]. destruct (location d) as [here|]; [|discriminate].
    exists here. split; [reflexivity|].
    destruct (Z.eqb_spec (speed d) 0); [discriminate|]. split; [assumption|].
    destruct (Z.eqb_spec (manhattan_distance here o) 0) as [->|_];
      [apply quotient_overflows_zero|].
    destruct (quotient_overflows _ _); [discriminate|reflexivity].
Qed.

(** A driver with a location, a positive speed and a distance below [2^52]
    is one of them. *)
Lemma driver_ok_small (d : Driver) (here o : Location) :
  location d = Some here -> 0 < speed d ->
  manhattan_distance here o < 2 ^ 52 -> driver_ok d o.
Proof.
  intros Hl Hs Hd. apply driver_ok_travel_time. eexists.
  apply get_travel_time_ok; eassumption.
Qed.

Lemma time_to_ok store o d :
  driver_ok (store d) o -> get_travel_time (store d) o = Ok (time_to store o d).
Proof.
  intros H. apply driver_ok_travel_time in H. destruct H as [t E].
  unfold time_to. rewrite E. reflexivity.
Qed.

(* ================================================================= *)
(** ** The matching loop of [request_driver] *)

Lemma first_best_cons_later store o d l r :
  first_best store o l r ->
  (is_idle (store d) = true -> time_to store o r < time_to store o d) ->
  first_best store o (d :: l) r.
Proof.
  intros (l1 & l2 & El & Hidle & Hbefore & Hafter) Hd.
  exists (d :: l1), l2. repeat split; auto.
  - rewrite El. reflexivity.
  - intros d' [<-|Hin] Hi; auto.
Qed.

Lemma first_best_head store o d l :
  is_idle (store d) = true ->
  (forall d', In d' l -> is_idle (store d') = true ->
              time_to store o d <= time_to store o d') ->
  first_best store o (d :: l) d.
Proof.
  intros Hidle Hrest. exists [], l. repeat split; auto.
  intros d' [].
Qed.

(** The loop never raises on drivers for which [get_travel_time] returns,
    and it keeps in [temp] the first best idle driver seen so far. *)
Lemma scan_drivers_spec store o :
  forall l temp,
    (forall d, In d l -> driver_ok (store d) o) ->
    (forall t, temp = Some t -> driver_ok (store t) o) ->
    exists res,
      scan_drivers store o l temp = Ok res /\
      match temp, res with
      | None, None => forall d, In d l -> is_idle (store d) = false
      | None, Some r => first_best store o l r
      | Some t, Some r =>
          (r = t /\ forall d, In d l -> is_idle (store d) = true ->
                              time_to store o t <= time_to store o d)
          \/ (first_best store o l r /\ time_to store o r < time_to store o t)
      | Some _, None => False
      end.
Proof.
  induction l as [|d rest IH]; intros temp Hok Htemp.
  - exists temp. split; [reflexivity|].
    destruct temp as [t|]; [left; split; [reflexivity|intros ? []]|intros ? []].
  - assert (Hd : driver_ok (store d) o) by (apply Hok; left; reflexivity).
    assert (Hrest : forall d', In d' rest -> driver_ok (store d') o)
      by (intros; apply Hok; right; assumption).
    simpl. rewrite (time_to_ok store o d Hd).
    destruct (is_idle (store d)) eqn:Hidle.
    + destruct temp as [t|].
      * rewrite (time_to_ok store o t (Htemp t eq_refl)).
        destruct (Z.ltb_spec (time_to store o d) (time_to store o t)) as [Hlt|Hge].
        -- destruct (IH (Some d) Hrest) as (res & E & Hres);
             [intros ? [= <-]; assumption|].
           exists res. split; [assumption|].
           destruct res as [r|]; [|contradiction]. right.
           destruct Hres as [[-> Hall]|[Hfb Hlt']].
           ++ split; [apply first_best_head|]; assumption.
           ++ split; [apply first_best_cons_later; auto|lia].
        -- destruct (IH (Some t) Hrest Htemp) as (res & E & Hres).
           exists res. split; [assumption|].
           destruct res as [r|]; [|contradiction].
           destruct Hres as [[-> Hall]|[Hfb Hlt']].
           ++ left. split; [reflexivity|]. intros d' [<-|Hin] Hi; auto.
           ++ right. split; [apply first_best_cons_later; auto; intros; lia|lia].
      * rewrite (time_to_ok store o d Hd). rewrite Z.ltb_irrefl.
        destruct (IH (Some d) Hrest) as (res & E & Hres);
          [intros ? [= <-]; assumption|].
        exists res. split; [assumption|].
        destruct res as [r|]; [|contradiction].
        destruct Hres as [[-> Hall]|[Hfb Hlt']].
        -- apply first_best_head; assumption.
        -- apply first_best_cons_later; auto.
    + destruct (IH temp Hrest Htemp) as (res & E & Hres).
      exists res. split; [assumption|].
      destruct temp as [t|], res as [r|]; try contradiction.
      * destruct Hres as [[-> Hall]|[Hfb Hlt']].
        -- left. split; [reflexivity|].
           intros d' [<-|Hin] Hi; [congruence|auto].
        -- right. split; [apply first_best_cons_later; auto; congruence|lia].
      * apply first_best_cons_later; auto; congruence.
      * intros d' [<-|Hin]; auto.
Qed.

Lemma first_best_in store o l r :
  first_best store o l r -> In r l /\ is_idle (store r) = true.
Proof.
  intros (l1 & l2 & -> & Hidle & _). split; [|assumption].
  apply in_or_app. right. left. reflexivity.
Qed.

Ltac unfold_monad :=
  unfold bind, ret, get_world, modify, lift_result, call_driver, notify.

Lemma registered_ok_world0 : registered_ok world0 (mkLocation 7 7).
Proof.
  intros d _. exists (mkLocation 3 5). repeat split. discriminate.
Qed.

(** On such a dispatcher [request_driver] does not raise; a driver it
    returns is registered and is the only object it updates, and when it
    returns nothing only the waiting queue has grown. *)
Lemma request_driver_answer (w : World) (rider : rref) :
  registered_ok w (origin (riders w rider)) ->
  match request_driver rider w with
  | (w', Ok (Some temp)) =>
      In temp (_drivers (dispatcher w)) /\
      w' = set_driver temp (assign_to (origin (riders w rider)) (drivers w temp)) w
  | (w', Ok None) =>
      w' = set_waiting (_waiting_rider (dispatcher w) ++ [rider]) w /\
      (forall d, In d (_drivers (dispatcher w)) -> is_idle (drivers w d) = false)
  | (_, Raise _) => False
  end.
Proof.
  intros Hok.
  destruct (scan_drivers_spec (drivers w) (origin (riders w rider))
              (_drivers (dispatcher w)) None Hok) as (res & Escan & Hres);
    [discriminate|].
  unfold request_driver. unfold_monad.
  destruct (_drivers (dispatcher w)) as [|d0 l0] eqn:El.
  - split; [reflexivity|intros d []].
  - rewrite Escan. destruct res as [temp|]; simpl.
    + split; [|reflexivity]. apply (first_best_in _ _ _ _ Hres).
    + split; [reflexivity|assumption].
Qed.

(** C1, as stated, fails: [request_driver] asks every registered driver for
    its travel time before it looks at the idle flag, so a registered driver
    for which [get_travel_time] raises makes it raise, although a registered
    driver is idle.  Here the only registered driver is idle and has the
    speed 0; it was registered by [request_rider] on a new dispatcher.  In
    the second state an idle driver with a location and speed 3 is
    registered before a busy driver without location. *)
Lemma request_driver_raises_beside_idle_driver :
  fst (request_rider 0%nat
         (mkWorld (fun _ => D_still) (fun _ => R0) Dispatcher_init []))
    = world_still /\
  In 0%nat (_drivers (dispatcher world_still)) /\
  is_idle (drivers world_still 0%nat) = true /\
  request_driver 0%nat world_still = (world_still, Raise ZeroDivisionError) /\
  In 0%nat (_drivers (dispatcher world_stranded)) /\
  is_idle (drivers world_stranded 0%nat) = true /\
  get_travel_time (drivers world_stranded 0%nat) (mkLocation 7 7) = Ok 2 /\
  request_driver 0%nat world_stranded = (world_stranded, Raise AttributeError) /\
  ~ (forall (w : World) (rider : rref),
       (exists temp, snd (request_driver rider w) = Ok (Some temp)) <->
       (exists d, In d (_drivers (dispatcher w)) /\
                  is_idle (drivers w d) = true)).
Proof.
  repeat match goal with |- _ /\ _ => split end;
    try reflexivity; try (left; reflexivity).
  intros H.
  destruct (proj2 (H world_still 0%nat)) as [temp Htemp];
    [exists 0%nat; split; [left|]; reflexivity|].
  vm_compute in Htemp. discriminate.
Qed.

(** C1, amended.  On a dispatcher such that [get_travel_time] to the rider's
    origin returns for every registered driver (each has a location, a
    non-zero speed and a quotient within the binary64 range),
    [request_driver] returns a driver exactly when some registered driver is
    idle.  The driver returned was idle, is the first in registration order
    among the idle drivers of least travel time to the rider's origin, and
    is made non-idle with that origin as destination, the waiting queue
    staying as it was.  Otherwise the rider goes to the tail of the waiting
    queue, no driver changes and nothing is returned. *)
Theorem request_driver_first_nearest_idle (w : World) (rider : rref)
    (Hok : registered_ok w (origin (riders w rider))) :
  let o := origin (riders w rider) in
  let l := _drivers (dispatcher w) in
  ((exists temp, snd (request_driver rider w) = Ok (Some temp)) <->
   (exists d, In d l /\ is_idle (drivers w d) = true)) /\
  (forall d, In d l -> get_travel_time (drivers w d) o = Ok (time_to (drivers w) o d)) /\
  match request_driver rider w with
  | (w', Ok (Some temp)) =>
      is_idle (drivers w temp) = true /\
      first_best (drivers w) o l temp /\
      is_idle (drivers w' temp) = false /\
      destination (drivers w' temp) = Some o /\
      w' = set_driver temp (assign_to o (drivers w temp)) w /\
      _waiting_rider (dispatcher w') = _waiting_rider (dispatcher w)
  | (w', Ok None) =>
      (forall d, In d l -> is_idle (drivers w d) = false) /\
      w' = set_waiting (_waiting_rider (dispatcher w) ++ [rider]) w /\
      drivers w' = drivers w
  | (_, Raise _) => False
  end.
Proof.
  intros o l.
  assert (Htimes : forall d, In d l ->
            get_travel_time (drivers w d) o = Ok (time_to (drivers w) o d))
    by (intros d Hd; apply time_to_ok, Hok, Hd).
  destruct (scan_drivers_spec (drivers w) o l None Hok) as (res & Escan & Hres);
    [discriminate|].
  assert (Hmain :
    match request_driver rider w with
    | (w', Ok (Some temp)) =>
        is_idle (drivers w temp) = true /\
        first_best (drivers w) o l temp /\
        is_idle (drivers w' temp) = false /\
        destination (drivers w' temp) = Some o /\
        w' = set_driver temp (assign_to o (drivers w temp)) w /\
        _waiting_rider (dispatcher w') = _waiting_rider (dispatcher w)
    | (w', Ok None) =>
        (forall d, In d l -> is_idle (drivers w d) = false) /\
        w' = set_waiting (_waiting_rider (dispatcher w) ++ [rider]) w /\
        drivers w' = drivers w
    | (_, Raise _) => False
    end).
  { unfold request_driver. unfold_monad. fold o l.
    destruct l as [|d0 l0] eqn:El.
    - simpl. repeat split. intros d [].
    - rewrite Escan. destruct res as [temp|].
      + simpl. pose proof (first_best_in _ _ _ _ Hres) as [_ Hidle].
        repeat split; try assumption.
        unfold upd. rewrite Nat.eqb_refl. reflexivity.
        unfold upd. rewrite Nat.eqb_refl. reflexivity.
      + simpl. repeat split. assumption. }
  split; [|split; [exact Htimes|exact Hmain]].
  destruct (request_driver rider w) as [w' [[temp|]|e]]; simpl.
  - destruct Hmain as (Hidle & Hfb & _). split.
    + intros _. exists temp. split; [|assumption].
      apply (first_best_in _ _ _ _ Hfb).
    + intros _. exists temp. reflexivity.
  - destruct Hmain as (Hnone & _). split.
    + intros [temp [=]].
    + intros (d & Hin & Hidle). rewrite (Hnone d Hin) in Hidle. discriminate.
  - contradiction.
Qed.

Lemma request_driver_first_nearest_idle_witness :
  registered_ok world0 (origin (riders world0 0%nat)) /\
  exists temp, snd (request_driver 0%nat world0) = Ok (Some temp).
Proof.
  split; [exact registered_ok_world0|].
  apply (proj1 (request_driver_first_nearest_idle world0 0%nat registered_ok_world0)).
  exists 0%nat. split; [left; reflexivity|reflexivity].
Defined.

(** The travel times compared are those [get_travel_time] returns: the
    second driver is nearer by one step, but both quotients are the binary64
    number [2^53], and the first driver is kept. *)
Example request_driver_binary64_tie :
  manhattan_distance (mkLocation 0 1) (mkLocation 0 (2 ^ 53 + 1))
    < manhattan_distance (mkLocation 0 0) (mkLocation 0 (2 ^ 53 + 1)) /\
  get_travel_time (drivers world_far 0%nat) (mkLocation 0 (2 ^ 53 + 1))
    = Ok (2 ^ 53) /\
  get_travel_time (drivers world_far 1%nat) (mkLocation 0 (2 ^ 53 + 1))
    = Ok (2 ^ 53) /\
  snd (request_driver 0%nat world_far) = Ok (Some 0%nat).
Proof. vm_compute. repeat split. Qed.

(* ================================================================= *)
(** ** Registration and the waiting queue: [request_rider] *)

Lemma same_rider_refl w rider : same_rider w rider rider = true.
Proof. unfold same_rider. rewrite Nat.eqb_refl. reflexivity. Qed.

Lemma list_remove_head w rider rest :
  list_remove (same_rider w rider) (rider :: rest) = Ok rest.
Proof. simpl. rewrite same_rider_refl. reflexivity. Qed.

(** The registration loop computes the absence of the id. *)
Lemma fold_truth_existsb {A} (p : A -> bool) (l : list A) (truth : bool) :
  fold_left (fun truth x => if p x then false else truth) l truth =
  truth && negb (existsb p l).
Proof.
  revert truth. induction l as [|x l IH]; intros truth; simpl.
  - rewrite andb_true_r. reflexivity.
  - rewrite IH. destruct (p x), truth; reflexivity.
Qed.

Lemma id_is_new_known w driver : id_is_new w driver = negb (id_known w driver).
Proof. unfold id_is_new, id_known. rewrite fold_truth_existsb. reflexivity. Qed.

Lemma id_known_iff w driver :
  id_known w driver = true <->
  exists u, In u (_drivers (dispatcher w)) /\
            driver_id (drivers w u) = driver_id (drivers w driver).
Proof.
  unfold id_known. rewrite existsb_exists. split.
  - intros (u & Hin & E). apply String.eqb_eq in E. eauto.
  - intros (u & Hin & E). exists u. split; [assumption|].
    apply String.eqb_eq. congruence.
Qed.

(** Matching a driver does not touch any id. *)
Lemma driver_id_set_assign w d o u :
  driver_id (drivers (set_driver d (assign_to o (drivers w d)) w) u) =
  driver_id (drivers w u).
Proof.
  simpl. unfold upd. destruct (Nat.eqb_spec u d) as [->|]; reflexivity.
Qed.

Lemma id_known_ext w w' driver :
  (forall u, driver_id (drivers w' u) = driver_id (drivers w u)) ->
  _drivers (dispatcher w') = _drivers (dispatcher w) ->
  id_known w' driver = id_known w driver.
Proof.
  intros Hid Hl. unfold id_known. rewrite Hl, Hid. clear Hl.
  induction (_drivers (dispatcher w)) as [|u l IH]; simpl; [reflexivity|].
  rewrite Hid, IH. reflexivity.
Qed.

Lemma register_spec driver w :
  register driver w = (set_registered (registered_after w driver) w, Ok tt).
Proof.
  unfold register, registered_after. unfold_monad.
  rewrite id_is_new_known. destruct (id_known w driver); simpl; [|reflexivity].
  destruct w as [ds rs [l q] m]. reflexivity.
Qed.

(** [request_rider] in closed form: it never raises. *)
Lemma request_rider_spec driver w :
  request_rider driver w =
  match _waiting_rider (dispatcher w) with
  | rider :: rest =>
      (set_registered (registered_after w driver)
         (set_driver driver (assign_to (origin (riders w rider)) (drivers w driver))
            (set_waiting rest w)),
       Ok (Some rider))
  | [] => (set_registered (registered_after w driver) w, Ok None)
  end.
Proof.
  unfold request_rider.
  destruct (_waiting_rider (dispatcher w)) as [|rider rest] eqn:Eq.
  - unfold bind at 1. unfold get_world. rewrite Eq.
    unfold bind. rewrite register_spec. reflexivity.
  - unfold bind at 1. unfold get_world. rewrite Eq.
    unfold bind at 1. unfold lift_result. rewrite list_remove_head.
    unfold bind, modify. rewrite register_spec. unfold ret.
    f_equal. unfold registered_after.
    rewrite (id_known_ext w); [reflexivity| |reflexivity].
    intros u. simpl. unfold upd.
    destruct (Nat.eqb_spec u driver) as [->|]; reflexivity.
Qed.

Lemma NoDup_snoc {A} (l : list A) (x : A) :
  NoDup l -> ~ In x l -> NoDup (l ++ [x]).
Proof.
  induction l as [|y l IH]; intros Hnd Hx; simpl.
  - constructor; [intros []|constructor].
  - inversion Hnd as [|? ? Hy Hl]; subst. constructor.
    + rewrite in_app_iff. intros [H|[H|[]]]; [contradiction|].
      apply Hx. left. congruence.
    + apply IH; [assumption|]. intros H. apply Hx. right. assumption.
Qed.

Lemma registered_after_ids w driver :
  map (fun d => driver_id (drivers w d)) (registered_after w driver) =
  if id_known w driver then registered_ids w
  else registered_ids w ++ [driver_id (drivers w driver)].
Proof.
  unfold registered_after, registered_ids.
  destruct (id_known w driver); [reflexivity|].
  rewrite map_app. reflexivity.
Qed.

Lemma id_known_false_not_in w driver :
  id_known w driver = false -> ~ In (driver_id (drivers w driver)) (registered_ids w).
Proof.
  intros Hk Hin. unfold registered_ids in Hin. apply in_map_iff in Hin.
  destruct Hin as (u & E & Hu).
  assert (id_known w driver = true) by (apply id_known_iff; eauto).
  congruence.
Qed.

(** What [request_rider] leaves behind, field by field. *)
Lemma request_rider_fields driver w :
  let w' := fst (request_rider driver w) in
  _drivers (dispatcher w') = registered_after w driver /\
  _waiting_rider (dispatcher w') = tl (_waiting_rider (dispatcher w)) /\
  riders w' = riders w /\
  monitor w' = monitor w /\
  (forall u, driver_id (drivers w' u) = driver_id (drivers w u)) /\
  (forall u, u <> driver -> drivers w' u = drivers w u) /\
  drivers w' driver =
    match _waiting_rider (dispatcher w) with
    | rider :: _ => assign_to (origin (riders w rider)) (drivers w driver)
    | [] => drivers w driver
    end.
Proof.
  rewrite request_rider_spec.
  destruct (_waiting_rider (dispatcher w)) as [|rider rest] eqn:Eq; simpl.
  - rewrite Eq. repeat split; reflexivity.
  - repeat split; try reflexivity.
    + intros u. unfold upd. destruct (Nat.eqb_spec u driver) as [->|]; reflexivity.
    + intros u Hu. unfold upd. destruct (Nat.eqb_spec u driver); [contradiction|reflexivity].
    + unfold upd. rewrite Nat.eqb_refl. reflexivity.
Qed.

(** C6.  [request_rider] pops the head of a non-empty waiting queue, returns
    it and sends the driver to its origin; on an empty queue it returns
    nothing and leaves the driver's idle flag and destination alone.  In
    both cases the driver is appended to the registered drivers exactly when
    no registered driver has its id, so a second call with a driver of the
    same id registers nothing and ids stay without duplicates.  Two riders
    who requested with nobody registered are queued in request order, and
    one call then matches the earlier one and leaves the other queued. *)
Theorem request_rider_head_and_registration (w : World) (driver : dref) :
  let q := _waiting_rider (dispatcher w) in
  let l := _drivers (dispatcher w) in
  let w' := fst (request_rider driver w) in
  let res := snd (request_rider driver w) in
  match q with
  | rider :: rest =>
      res = Ok (Some rider) /\
      _waiting_rider (dispatcher w') = rest /\
      is_idle (drivers w' driver) = false /\
      destination (drivers w' driver) = Some (origin (riders w rider))
  | [] =>
      res = Ok None /\
      _waiting_rider (dispatcher w') = [] /\
      is_idle (drivers w' driver) = is_idle (drivers w driver) /\
      destination (drivers w' driver) = destination (drivers w driver)
  end /\
  ((exists u, In u l /\ driver_id (drivers w u) = driver_id (drivers w driver)) ->
   _drivers (dispatcher w') = l) /\
  (~ (exists u, In u l /\ driver_id (drivers w u) = driver_id (drivers w driver)) ->
   _drivers (dispatcher w') = l ++ [driver]) /\
  (forall driver2,
     driver_id (drivers w' driver2) = driver_id (drivers w driver) ->
     _drivers (dispatcher (fst (request_rider driver2 w'))) =
     _drivers (dispatcher w')) /\
  (NoDup (registered_ids w) -> NoDup (registered_ids w')) /\
  (forall r1 r2, q = [r1; r2] ->
     res = Ok (Some r1) /\ _waiting_rider (dispatcher w') = [r2]) /\
  (forall ds rs m r1 r2 d,
     let w2 := fst (request_driver r2
                      (fst (request_driver r1 (mkWorld ds rs Dispatcher_init m)))) in
     _waiting_rider (dispatcher w2) = [r1; r2] /\
     snd (request_rider d w2) = Ok (Some r1) /\
     _waiting_rider (dispatcher (fst (request_rider d w2))) = [r2]).
Proof.
  intros q l w' res.
  destruct (request_rider_fields driver w)
    as (Hreg & Hwait & Hrs & _ & Hids & Hothers & Hself).
  fold w' in Hreg, Hwait, Hrs, Hids, Hothers, Hself. fold q in Hwait, Hself.
  assert (Hres : res = match q with rider :: _ => Ok (Some rider) | [] => Ok None end).
  { unfold res, q. rewrite request_rider_spec.
    destruct (_waiting_rider (dispatcher w)); reflexivity. }
  assert (Hknown : _drivers (dispatcher w') =
                   if id_known w driver then l else l ++ [driver])
    by exact Hreg.
  repeat split.
  - destruct q as [|rider rest]; rewrite Hres, Hwait, Hself; repeat split.
  - intros Hex. apply id_known_iff in Hex. rewrite Hknown, Hex. reflexivity.
  - intros Hnex. rewrite Hknown. destruct (id_known w driver) eqn:Hk; [|reflexivity].
    exfalso. apply Hnex. apply id_known_iff. assumption.
  - intros driver2 Hid.
    destruct (request_rider_fields driver2 w') as (Hreg2 & _).
    rewrite Hreg2. unfold registered_after.
    assert (Hk2 : id_known w' driver2 = true); [|rewrite Hk2; reflexivity].
    apply id_known_iff. rewrite Hknown.
    destruct (id_known w driver) eqn:Hk.
    + apply id_known_iff in Hk. destruct Hk as (u & Hin & E).
      exists u. split; [assumption|]. rewrite Hid, Hids. assumption.
    + exists driver. split; [apply in_or_app; right; left; reflexivity|].
      rewrite Hid, Hids. reflexivity.
  - intros Hnd. unfold registered_ids at 1. rewrite Hreg.
    erewrite map_ext; [|intros u; apply Hids].
    rewrite registered_after_ids.
    destruct (id_known w driver) eqn:Hk; [assumption|].
    apply NoDup_snoc; [assumption|]. apply id_known_false_not_in. assumption.
  - rewrite Hres, H. reflexivity.
  - rewrite Hwait, H. reflexivity.
  - destruct (request_rider_fields d (fst (request_driver r2
        (fst (request_driver r1 (mkWorld ds rs Dispatcher_init m))))))
      as (_ & Hw & _).
    rewrite request_rider_spec. reflexivity.
  - rewrite request_rider_spec. reflexivity.
Qed.

(* ================================================================= *)
(** ** [cancel_ride] *)

Lemma list_remove_found {A} (p : A -> bool) (l : list A) :
  (exists x, In x l /\ p x = true) ->
  exists l', list_remove p l = Ok l' /\ S (List.length l') = List.length l.
Proof.
  induction l as [|y l IH]; intros (x & Hin & Hp); [destruct Hin|].
  simpl. destruct (p y) eqn:Hy.
  - exists l. split; reflexivity.
  - destruct Hin as [->|Hin]; [congruence|].
    destruct IH as (l' & E & Hlen); [eauto|].
    rewrite E. exists (y :: l'). split; [reflexivity|]. simpl. congruence.
Qed.

(** The loop never raises (the item it removes is in the list) and only
    shortens the list. *)
Lemma cancel_loop_ok fuel w rider :
  forall i l, exists l',
    cancel_loop fuel w rider i l = Ok l' /\
    (List.length l' <= List.length l)%nat.
Proof.
  induction fuel as [|fuel IH]; intros i l; simpl.
  - exists l. split; [reflexivity|lia].
  - destruct (nth_error l i) as [passenger|] eqn:Enth.
    + destruct (String.eqb _ _).
      * destruct (list_remove_found (same_rider w passenger) l) as (l1 & E & Hlen).
        { exists passenger. split; [eapply nth_error_In; eassumption|].
          apply same_rider_refl. }
        rewrite E. destruct (IH (S i) l1) as (l' & E' & Hlen').
        exists l'. split; [assumption|lia].
      * apply IH.
    + exists l. split; [reflexivity|lia].
Qed.

Lemma cancel_ride_spec rider w :
  exists l',
    cancel_ride rider w = (set_waiting l' w, Ok tt) /\
    (List.length l' <= List.length (_waiting_rider (dispatcher w)))%nat.
Proof.
  unfold cancel_ride. unfold_monad.
  destruct (cancel_loop_ok (List.length (_waiting_rider (dispatcher w))) w rider
              O (_waiting_rider (dispatcher w))) as (l' & E & Hlen).
  rewrite E. exists l'. split; [reflexivity|assumption].
Qed.

(* ================================================================= *)
(** ** What [request_driver] leaves alone *)

Lemma request_driver_cases rider w :
  let o := origin (riders w rider) in
  (exists e, request_driver rider w = (w, Raise e)) \/
  request_driver rider w =
    (set_waiting (_waiting_rider (dispatcher w) ++ [rider]) w, Ok None) \/
  (exists temp,
     In temp (_drivers (dispatcher w)) /\
     request_driver rider w =
       (set_driver temp (assign_to o (drivers w temp)) w, Ok (Some temp))).
Proof.
  intros o. unfold request_driver. unfold_monad.
  destruct (_drivers (dispatcher w)) as [|d0 l0] eqn:El.
  - right. left. reflexivity.
  - destruct (scan_drivers (drivers w) (origin (riders w rider)) (d0 :: l0) None)
      as [[temp|]|e] eqn:Escan.
    + right. right. exists temp. split; [|reflexivity].
      clear El. revert Escan. generalize (d0 :: l0). intros l.
      assert (G : forall l t r,
                 scan_drivers (drivers w) (origin (riders w rider)) l t = Ok (Some r) ->
                 In r l \/ t = Some r).
      { clear. induction l as [|d l IH]; intros t r H; simpl in H.
        - right. congruence.
        - destruct (get_travel_time (drivers w d) _); [|discriminate].
          destruct (is_idle (drivers w d)).
          + destruct (get_travel_time _ _); [|discriminate].
            apply IH in H. destruct H as [H|H]; [left; right; assumption|].
            destruct (a <? a0); [left; left; congruence|].
            destruct t as [t0|]; [right; congruence|left; left; congruence].
          + apply IH in H. destruct H; [left; right; assumption|right; assumption]. }
      intros H. apply G in H. destruct H as [H|H]; [assumption|discriminate].
    + right. left. reflexivity.
    + left. exists e. reflexivity.
Qed.

(* ================================================================= *)
(** ** Idle means no destination *)

Lemma driver_inv_busy id loc spd o : driver_inv (mkDriver id loc spd false (Some o)).
Proof. split; discriminate. Qed.

Lemma driver_inv_free id loc spd : driver_inv (mkDriver id loc spd true None).
Proof. split; reflexivity. Qed.

Create HintDb drivers.
#[local] Hint Resolve driver_inv_busy driver_inv_free : drivers.

Lemma drivers_inv_set_driver w d v :
  drivers_inv w -> driver_inv v -> drivers_inv (set_driver d v w).
Proof.
  intros Hw Hv u. simpl. unfold upd. destruct (Nat.eqb u d); auto.
Qed.

Lemma drivers_inv_world0 : drivers_inv world0.
Proof. intros d. apply driver_inv_free. Qed.

(** C4.  [is_idle] holds exactly when [destination] is [None]: after
    [Driver.__init__], and after [start_drive], [end_drive], [start_ride] and
    [end_ride] on a driver for which it held; and for every driver object
    after [request_driver], [request_rider] and [cancel_ride] on a world
    where it held for every driver object. *)
Theorem idle_iff_no_destination
    (identifier : string) (loc : Location) (spd : Z)
    (self : Driver) (passenger : Rider) (w : World) (rider : rref) (driver : dref)
    (Hself : driver_inv self) (Hw : drivers_inv w) :
  driver_inv (Driver_init identifier loc spd) /\
  driver_inv (fst (start_drive self loc)) /\
  driver_inv (end_drive self) /\
  driver_inv (fst (start_ride self passenger)) /\
  driver_inv (end_ride self) /\
  drivers_inv (fst (request_driver rider w)) /\
  drivers_inv (fst (request_rider driver w)) /\
  drivers_inv (fst (cancel_ride rider w)).
Proof.
  repeat match goal with |- _ /\ _ => split end;
    try solve [simpl; auto with drivers
              | unfold Driver_init, end_drive, end_ride; auto with drivers].
  - destruct (request_driver_cases rider w) as [[e E]|[E|(temp & _ & E)]];
      rewrite E; simpl; auto.
    apply drivers_inv_set_driver; [assumption|apply driver_inv_busy].
  - rewrite request_rider_spec.
    destruct (_waiting_rider (dispatcher w)) as [|r0 rest].
    + exact Hw.
    + intros u. simpl. unfold upd. destruct (Nat.eqb u driver); [|apply Hw].
      apply driver_inv_busy.
  - destruct (cancel_ride_spec rider w) as (l' & E & _). rewrite E. exact Hw.
Qed.

Lemma idle_iff_no_destination_witness :
  driver_inv D0 /\ drivers_inv world0 /\
  drivers_inv (fst (request_driver 0%nat world0)).
Proof.
  assert (H0 : driver_inv D0) by apply driver_inv_free.
  split; [exact H0|]. split; [exact drivers_inv_world0|].
  exact (proj1 (proj2 (proj2 (proj2 (proj2 (proj2
    (idle_iff_no_destination EmptyString (mkLocation 0 0) 1 D0 R0 world0
       0%nat 0%nat H0 drivers_inv_world0))))))).
Defined.

(* ================================================================= *)
(** ** Executing events *)

Ltac run_monad :=
  unfold notify, call_driver;
  unfold bind, ret, get_world, modify, lift_result;
  cbv beta iota zeta.

(** Replace the calls to the dispatcher by what they amount to. *)
Ltac dispatcher_calls :=
  repeat match goal with
  | |- context [request_driver ?r ?w1] =>
      let e := fresh "e" in let E := fresh "E" in
      let temp := fresh "temp" in let Hin := fresh "Hin" in
      destruct (request_driver_cases r w1) as [[e E]|[E|(temp & Hin & E)]];
      rewrite E; clear E
  | |- context [request_rider ?d ?w1] => rewrite (request_rider_spec d w1)
  | |- context [cancel_ride ?r ?w1] =>
      let l' := fresh "l'" in let E := fresh "E" in let Hlen := fresh "Hlen" in
      destruct (cancel_ride_spec r w1) as (l' & E & Hlen); rewrite E; clear E
  end.

Ltac break_matches :=
  repeat match goal with
  | |- context [match ?x with _ => _ end] => destruct x eqn:?
  end.

Lemma status_step_refl a : status_step a a.
Proof. left. reflexivity. Qed.

Lemma status_upd_step w rider s r :
  status (riders w rider) = WAITING -> s = CANCELLED \/ s = SATISFIED ->
  status_step (status (riders w r))
              (status (upd (riders w) rider (set_status s (riders w rider)) r)).
Proof.
  intros Hw Hs. unfold upd. destruct (Nat.eqb_spec r rider) as [->|].
  - right. simpl. auto.
  - left. reflexivity.
Qed.

(** One event execution leaves the status of a rider alone or takes it from
    [WAITING] to [CANCELLED] or [SATISFIED]; this also holds when the
    execution raises. *)
Lemma Event_do_status_step e w r :
  status_step (status (riders w r)) (status (riders (fst (Event_do e w)) r)).
Proof.
  destruct e as [t rider|t driver|t rider|t rider driver|t rider driver]; simpl.
  - unfold RiderRequest_do. run_monad. dispatcher_calls;
      unfold start_drive; break_matches; simpl; apply status_step_refl.
  - unfold DriverRequest_do. run_monad. dispatcher_calls.
    cbn [dispatcher _waiting_rider].
    destruct (_waiting_rider (dispatcher w)) as [|r0 rest];
      unfold start_drive; break_matches; simpl; apply status_step_refl.
  - unfold Cancellation_do. run_monad.
    destruct (status (riders w rider)) eqn:Es; try apply status_step_refl.
    dispatcher_calls. simpl. apply status_upd_step; auto.
  - unfold Pickup_do. run_monad.
    destruct (status (riders w rider)) eqn:Es; try apply status_step_refl.
    unfold start_ride, end_drive. break_matches; simpl;
      apply status_upd_step; auto.
  - unfold Dropoff_do. run_monad. dispatcher_calls. simpl.
    apply status_step_refl.
Qed.

Lemma stepwise_terminal a l :
  stepwise (a :: l) -> a <> WAITING -> forall x, In x l -> x = a.
Proof.
  revert a. induction l as [|b l IH]; intros a Hst Ha x Hin; [destruct Hin|].
  destruct Hst as [[Hb|[Hw _]] Hrest]; [|contradiction]. subst b.
  destruct Hin as [<-|Hin]; [reflexivity|]. eapply IH; eassumption.
Qed.

Lemma changes_constant a l :
  (forall x, In x l -> x = a) -> changes (a :: l) = O.
Proof.
  revert a. induction l as [|b l IH]; intros a Hall; [reflexivity|].
  assert (b = a) by (apply Hall; left; reflexivity). subst b.
  change (changes (a :: a :: l)) with
    ((if RiderStatus_eqb a a then 0 else 1) + changes (a :: l))%nat.
  rewrite IH by (intros; apply Hall; right; assumption).
  replace (RiderStatus_eqb a a) with true by (destruct a; reflexivity).
  reflexivity.
Qed.

Lemma stepwise_changes l : stepwise l -> (changes l <= 1)%nat.
Proof.
  induction l as [|a l IH]; intros Hst; [simpl; lia|].
  destruct l as [|b l]; [simpl; lia|].
  change (changes (a :: b :: l)) with
    ((if RiderStatus_eqb a b then 0 else 1) + changes (b :: l))%nat.
  destruct Hst as [[Hb|[Hw Hb]] Hrest].
  - subst b. specialize (IH Hrest).
    replace (RiderStatus_eqb a a) with true by (destruct a; reflexivity). lia.
  - rewrite (changes_constant b l).
    + destruct (RiderStatus_eqb a b); lia.
    + apply stepwise_terminal; [assumption|].
      destruct Hb; subst; discriminate.
Qed.

Lemma stepwise_status_trace r es :
  forall w, stepwise (status_trace r es w).
Proof.
  induction es as [|e es IH]; intros w; [exact I|].
  unfold status_trace in *. simpl. specialize (IH (fst (Event_do e w))).
  destruct es as [|e' es'].
  - simpl. split; [apply Event_do_status_step|exact I].
  - simpl in *. split; [apply Event_do_status_step|exact IH].
Qed.

Lemma stepwise_persist l :
  forall i j a b,
    stepwise l -> (i <= j)%nat ->
    nth_error l i = Some a -> a <> WAITING ->
    nth_error l j = Some b -> b = a.
Proof.
  induction l as [|x l IH]; intros i j a b Hst Hij Hi Ha Hj.
  - destruct i; discriminate.
  - destruct i as [|i].
    + injection Hi as ->. destruct j as [|j]; [simpl in Hj; congruence|].
      apply (stepwise_terminal a l Hst Ha). eapply nth_error_In. exact Hj.
    + destruct j as [|j]; [lia|]. simpl in Hi, Hj.
      apply (IH i j a b); try assumption; [|lia].
      destruct l; [exact I|exact (proj2 Hst)].
Qed.

Lemma constant_repeat (a : RiderStatus) l :
  (forall x, In x l -> x = a) -> l = repeat a (List.length l).
Proof.
  induction l as [|b l IH]; intros Hall; [reflexivity|].
  simpl. rewrite (Hall b) by (left; reflexivity). f_equal.
  apply IH. intros; apply Hall; right; assumption.
Qed.

(** A stepwise list is a run of [WAITING] followed by a run of one other
    status. *)
Lemma stepwise_shape l :
  stepwise l ->
  exists n m x, l = repeat WAITING n ++ repeat x m /\ x <> WAITING.
Proof.
  induction l as [|a l IH]; intros Hst.
  - exists O, O, CANCELLED. split; [reflexivity|discriminate].
  - destruct a.
    + destruct IH as (n & m & x & E & Hx);
        [destruct l; [exact I|exact (proj2 Hst)]|].
      exists (S n), m, x. split; [simpl; congruence|assumption].
    + exists O, (S (List.length l)), CANCELLED. split; [|discriminate].
      simpl. f_equal. apply constant_repeat.
      apply stepwise_terminal; [assumption|discriminate].
    + exists O, (S (List.length l)), SATISFIED. split; [|discriminate].
      simpl. f_equal. apply constant_repeat.
      apply stepwise_terminal; [assumption|discriminate].
Qed.

(** C3.  Along any sequence of event executions, started where the rider
    is [WAITING], the rider's successive statuses are a run of [WAITING]
    followed by a run of a single status, [CANCELLED] or [SATISFIED]: each
    step keeps the status or takes it from [WAITING] to one of these two,
    the status changes at most once, and a status other than [WAITING]
    stays for ever. *)
Theorem rider_status_changes_at_most_once
    (es : list Event) (w : World) (r : rref)
    (Hstart : status (riders w r) = WAITING) :
  let trace := status_trace r es w in
  (exists n m x,
     trace = repeat WAITING (S n) ++ repeat x m /\
     (x = CANCELLED \/ x = SATISFIED)) /\
  stepwise trace /\
  (changes trace <= 1)%nat /\
  (forall i j a b,
     (i <= j)%nat -> nth_error trace i = Some a -> a <> WAITING ->
     nth_error trace j = Some b -> b = a).
Proof.
  intros trace.
  pose proof (stepwise_status_trace r es w) as Hst. fold trace in Hst.
  split; [|split; [exact Hst|split; [apply stepwise_changes; exact Hst|]]].
  - destruct (stepwise_shape trace Hst) as (n & m & x & E & Hx).
    assert (Hhead : exists tl, trace = WAITING :: tl).
    { unfold trace, status_trace. destruct es; simpl; rewrite Hstart; eauto. }
    destruct Hhead as (tl & Etl).
    destruct n as [|n].
    + simpl in E. destruct m; simpl in E; congruence.
    + exists n, m, x. split; [exact E|]. destruct x; auto. congruence.
  - intros i j a b. apply stepwise_persist. exact Hst.
Qed.

Lemma rider_status_changes_at_most_once_witness :
  status (riders world0 0%nat) = WAITING /\
  (changes (status_trace 0%nat
              [RiderRequest 0 0%nat; Pickup 2 0%nat 0%nat; Cancellation 10 0%nat]
              world0) <= 1)%nat.
Proof.
  split; [reflexivity|].
  exact (proj1 (proj2 (proj2
    (rider_status_changes_at_most_once
       [RiderRequest 0 0%nat; Pickup 2 0%nat 0%nat; Cancellation 10 0%nat]
       world0 0%nat eq_refl)))).
Defined.

(* ================================================================= *)
(** ** [RiderRequest.do] *)

(** The answer of [request_driver] does not depend on the monitor's log. *)
Lemma request_driver_monitor rider w m :
  request_driver rider (mkWorld (drivers w) (riders w) (dispatcher w) m) =
  (mkWorld (drivers (fst (request_driver rider w)))
           (riders (fst (request_driver rider w)))
           (dispatcher (fst (request_driver rider w))) m,
   snd (request_driver rider w)).
Proof.
  unfold request_driver. run_monad. simpl.
  destruct (_drivers (dispatcher w)) as [|d0 l0]; [reflexivity|].
  destruct (scan_drivers (drivers w) (origin (riders w rider)) (d0 :: l0) None)
    as [[temp|]|e]; reflexivity.
Qed.

(** The events a rider's request returns, by the answer of the dispatcher. *)
Lemma RiderRequest_do_by_answer t rider w :
  registered_ok w (origin (riders w rider)) ->
  let r := riders w rider in
  let w' := fst (RiderRequest_do t rider w) in
  match snd (request_driver rider w) with
  | Ok (Some driver) =>
      exists here time,
        location (drivers w driver) = Some here /\
        py_round_div (manhattan_distance here (origin r))
                     (speed (drivers w driver)) = Ok time /\
        snd (RiderRequest_do t rider w) =
          Ok [Pickup (t + time) rider driver;
              Cancellation (t + patience r) rider] /\
        is_idle (drivers w' driver) = false /\
        destination (drivers w' driver) = Some (origin r) /\
        location (drivers w' driver) = Some here /\
        _waiting_rider (dispatcher w') = _waiting_rider (dispatcher w)
  | Ok None =>
      snd (RiderRequest_do t rider w) = Ok [Cancellation (t + patience r) rider] /\
      _waiting_rider (dispatcher w') = _waiting_rider (dispatcher w) ++ [rider] /\
      drivers w' = drivers w
  | Raise _ => False
  end.
Proof.
  intros Hok r w'.
  pose proof (request_driver_answer w rider Hok) as Haux.
  unfold w', RiderRequest_do. run_monad. rewrite request_driver_monitor.
  destruct (request_driver rider w) as [w1 [[driver|]|e]]; simpl in *.
  - destruct Haux as (Hin & ->).
    pose proof (time_to_ok _ _ driver (Hok driver Hin)) as Ht.
    destruct (Hok driver Hin) as (here & Hloc & Hspeed & _).
    unfold get_travel_time in Ht. rewrite Hloc in Ht.
    exists here, (time_to (drivers w) (origin (riders w rider)) driver).
    split; [exact Hloc|]. split; [exact Ht|].
    unfold start_drive, get_travel_time. simpl.
    unfold upd. rewrite !Nat.eqb_refl. simpl. rewrite Hloc, Ht.
    simpl. unfold upd. rewrite !Nat.eqb_refl. repeat split.
  - destruct Haux as [-> ?]. repeat split.
  - contradiction.
Qed.

(** C5, as stated, fails: the dispatcher's matching loop raises when
    [get_travel_time] raises for a registered driver, and [RiderRequest.do]
    then returns no event at all, the [Cancellation] included.  Here the
    only registered driver has the speed 0. *)
Lemma RiderRequest_do_raises_without_cancellation :
  snd (RiderRequest_do 0 0%nat world_still) = Raise ZeroDivisionError /\
  ~ (forall (t : Z) (rider : rref) (w : World),
       exists events,
         snd (RiderRequest_do t rider w) = Ok events /\
         In (Cancellation (t + patience (riders w rider)) rider) events).
Proof.
  split; [reflexivity|]. intros H.
  destruct (H 0 0%nat world_still) as (events & Hev & _).
  vm_compute in Hev. discriminate.
Qed.

(** C5, amended.  On a dispatcher such that [get_travel_time] to the rider's
    origin returns for every registered driver, [RiderRequest.do] always
    returns a [Cancellation] for the rider at [t + patience].  When the
    dispatcher matches a driver, the events returned are exactly a [Pickup]
    at [t] plus the driver's travel time to the rider's origin, which is
    [round] of the quotient of the distance by the speed, and that
    [Cancellation]; the driver ends non-idle with the rider's origin as
    destination.  For a positive speed and a distance below [2^52] the
    travel time is the exact quotient rounded to the nearest integer.  When
    the dispatcher matches none, the [Cancellation] is the only event
    returned. *)
Theorem RiderRequest_do_schedules_cancellation (t : Z) (rider : rref) (w : World)
    (Hok : registered_ok w (origin (riders w rider))) :
  let r := riders w rider in
  let w' := fst (RiderRequest_do t rider w) in
  let cancellation := Cancellation (t + patience r) rider in
  (exists events, snd (RiderRequest_do t rider w) = Ok events /\
                  In cancellation events) /\
  match snd (request_driver rider w) with
  | Ok (Some driver) =>
      exists here time,
        location (drivers w driver) = Some here /\
        py_round_div (manhattan_distance here (origin r))
                     (speed (drivers w driver)) = Ok time /\
        get_travel_time (drivers w driver) (origin r) = Ok time /\
        snd (RiderRequest_do t rider w) =
          Ok [Pickup (t + time) rider driver; cancellation] /\
        (0 < speed (drivers w driver) ->
         manhattan_distance here (origin r) < 2 ^ 52 ->
         time = round_half_even (manhattan_distance here (origin r))
                                (speed (drivers w driver))) /\
        is_idle (drivers w' driver) = false /\
        destination (drivers w' driver) = Some (origin r)
  | Ok None =>
      snd (RiderRequest_do t rider w) = Ok [cancellation]
  | Raise _ => False
  end.
Proof.
  intros r w' cancellation.
  pose proof (RiderRequest_do_by_answer t rider w Hok) as H.
  cbv zeta in H. fold r w' cancellation in H.
  destruct (request_driver rider w) as [w1 [[driver|]|e]]; simpl in *.
  - destruct H as (here & time & Hloc & Htime & Hres & Hidle & Hdest & _).
    split; [eexists; split; [exact Hres|right; left; reflexivity]|].
    exists here, time.
    repeat match goal with |- _ /\ _ => split end; try assumption.
    + unfold get_travel_time. rewrite Hloc. exact Htime.
    + intros Hpos Hsmall.
      rewrite py_round_div_small in Htime;
        [congruence|split; [apply manhattan_distance_nonneg|]|]; assumption.
  - destruct H as (Hres & _).
    split; [eexists; split; [exact Hres|left; reflexivity]|exact Hres].
  - contradiction.
Qed.

Lemma RiderRequest_do_schedules_cancellation_witness :
  registered_ok world0 (origin (riders world0 0%nat)) /\
  exists events, snd (RiderRequest_do 0 0%nat world0) = Ok events /\
                 In (Cancellation 10 0%nat) events.
Proof.
  split; [exact registered_ok_world0|].
  exact (proj1 (RiderRequest_do_schedules_cancellation 0 0%nat world0
                  registered_ok_world0)).
Defined.

(* ================================================================= *)
(** ** [Pickup.do] *)

(** C2, as stated, fails: after the pickup of a waiting rider the driver is
    at the rider's origin, whatever destination it had.  Here the driver was
    heading to (1,1) and ends at (7,7).  The same happens in a run: the
    [Pickup] at 6 that the first rider's request scheduled is executed when
    the driver, matched again in between, is heading to (0,4), and leaves it
    at the rider's origin (0,5).  And the branch of a waiting rider raises
    when the division of the travel time does: here the speed is 0. *)
Lemma Pickup_do_location_is_rider_origin :
  destination (drivers world_elsewhere 0%nat) = Some (mkLocation 1 1) /\
  status (riders world_elsewhere 0%nat) = WAITING /\
  location (drivers (fst (Pickup_do 2 0%nat 0%nat world_elsewhere)) 0%nat)
    = Some (mkLocation 7 7) /\
  ~ (forall (w : World) (t : Z) (rider : rref) (driver : dref) (dst : Location),
       destination (drivers w driver) = Some dst ->
       status (riders w rider) = WAITING ->
       location (drivers (fst (Pickup_do t rider driver w)) driver) = Some dst) /\
  (let w1 := world_after [DriverRequest 0 0%nat] busy_again_world in
   let w5 := world_after busy_again_prefix busy_again_world in
   snd (Event_do (RiderRequest 1 0%nat) w1)
     = Ok [Pickup 6 0%nat 0%nat; Cancellation 101 0%nat] /\
   destination (drivers w5 0%nat) = Some (mkLocation 0 4) /\
   status (riders w5 0%nat) = WAITING /\
   origin (riders w5 0%nat) = mkLocation 0 5 /\
   location (drivers (fst (Event_do (Pickup 6 0%nat 0%nat) w5)) 0%nat)
     = Some (mkLocation 0 5)) /\
  destination (drivers world_still_heading 0%nat) = Some (mkLocation 7 7) /\
  status (riders world_still_heading 0%nat) = WAITING /\
  snd (Pickup_do 2 0%nat 0%nat world_still_heading) = Raise ZeroDivisionError.
Proof.
  split; [reflexivity|]. split; [reflexivity|]. split; [reflexivity|].
  split; [|split; [|repeat split]].
  - intros H.
    specialize (H world_elsewhere 2 0%nat 0%nat (mkLocation 1 1) eq_refl eq_refl).
    vm_compute in H. discriminate.
  - vm_compute. repeat split.
Qed.

(** C2, amended.  A [Pickup] executed on a driver with a destination:
    - rider [WAITING]: the driver arrives, which the monitor records at the
      driver's destination; the rider becomes [SATISFIED]; the driver is
      placed at the rider's origin, non-idle, with the rider's destination
      as destination; then the travel time from the rider's origin to the
      rider's destination is computed, [round] of the quotient of the
      distance by the speed: where this division returns, one [Dropoff] is
      returned, at [t] plus that time, and where it raises (a speed of 0, a
      quotient beyond the binary64 range) the [Pickup] raises with it, the
      changes being made.  For a positive speed and a distance below [2^52]
      the division returns the exact quotient rounded to the nearest
      integer;
    - rider [CANCELLED]: the driver's location becomes its destination, it
      becomes idle without destination, and one [DriverRequest] at [t] is
      returned;
    - rider [SATISFIED]: the world is unchanged and no event is returned.
    The last two branches never raise. *)
Theorem Pickup_do_branches (t : Z) (rider : rref) (driver : dref) (w : World)
    (dst : Location) (Hdst : destination (drivers w driver) = Some dst) :
  let r := riders w rider in
  let d := drivers w driver in
  let w' := fst (Pickup_do t rider driver w) in
  match status r with
  | WAITING =>
      snd (Pickup_do t rider driver w) =
        match py_round_div (manhattan_distance (origin r) (dest r)) (speed d)
        with
        | Ok travel => Ok [Dropoff (t + travel) rider driver]
        | Raise e => Raise e
        end /\
      (0 < speed d -> manhattan_distance (origin r) (dest r) < 2 ^ 52 ->
       snd (Pickup_do t rider driver w) =
         Ok [Dropoff (t + round_half_even
                            (manhattan_distance (origin r) (dest r)) (speed d))
                     rider driver]) /\
      drivers w' driver =
        mkDriver (driver_id d) (Some (origin r)) (speed d) false (Some (dest r)) /\
      riders w' rider = set_status SATISFIED r /\
      monitor w' =
        monitor w ++ [mkNotification t DRIVER PICKUP (driver_id d) (Some dst);
                      mkNotification t RIDER PICKUP (rider_id r) (Some (origin r))] /\
      (forall u, u <> driver -> drivers w' u = drivers w u) /\
      (forall x, x <> rider -> riders w' x = riders w x) /\
      dispatcher w' = dispatcher w
  | CANCELLED =>
      Pickup_do t rider driver w =
        (set_driver driver (mkDriver (driver_id d) (Some dst) (speed d) true None) w,
         Ok [DriverRequest t driver])
  | SATISFIED =>
      Pickup_do t rider driver w = (w, Ok [])
  end.
Proof.
  intros r d w'. subst r d w'. unfold Pickup_do. run_monad.
  destruct (status (riders w rider)) eqn:Es.
  - unfold start_ride, end_drive, get_travel_time. simpl.
    unfold upd. rewrite !Nat.eqb_refl. simpl. rewrite Hdst.
    assert (Hres : forall (A : Type) (x : World) (f : Z -> list Event)
                          (q : result Z),
              snd (let '(w1, r1) := (x, q) in
                   match r1 with
                   | Ok a => (w1, Ok (f a))
                   | Raise e => (w1, Raise e)
                   end)
              = match q with Ok a => Ok (f a) | Raise e => Raise e end)
      by (intros A x f [a|e]; reflexivity).
    assert (Hfst : forall (x : World) (f : Z -> list Event) (q : result Z),
              fst (let '(w1, r1) := (x, q) in
                   match r1 with
                   | Ok a => (w1, Ok (f a))
                   | Raise e => (w1, Raise e)
                   end) = x)
      by (intros x f [a|e]; reflexivity).
    rewrite (Hres unit), !Hfst. simpl. unfold upd. rewrite !Nat.eqb_refl.
    repeat match goal with |- _ /\ _ => split end; try reflexivity.
    + intros Hpos Hsmall. rewrite py_round_div_small; [reflexivity| |assumption].
      split; [apply manhattan_distance_nonneg|assumption].
    + rewrite <- app_assoc. reflexivity.
    + intros u Hu. destruct (Nat.eqb_spec u driver); [contradiction|reflexivity].
    + intros x Hx. destruct (Nat.eqb_spec x rider); [contradiction|reflexivity].
  - unfold end_drive. rewrite Hdst. reflexivity.
  - reflexivity.
Qed.

Lemma Pickup_do_branches_witness :
  destination (drivers world_elsewhere 0%nat) = Some (mkLocation 1 1) /\
  snd (Pickup_do 2 0%nat 0%nat world_elsewhere) = Ok [Dropoff 8 0%nat 0%nat].
Proof.
  split; [reflexivity|].
  exact (proj1 (Pickup_do_branches 2 0%nat 0%nat world_elsewhere
                  (mkLocation 1 1) eq_refl)).
Defined.

(* ================================================================= *)
(** ** The end-to-end scenario *)

(** C7.  With [D0] at (3,5), speed 3, registered (by a first request for a
    rider, which found none) and idle, and [R0] with
    patience 10 from (7,7) to (20,2): the request at 0 matches [D0]
    (distance 6, travel time 2) and returns a [Pickup] at 2 and a
    [Cancellation] at 10; that [Pickup], executed while [R0] still waits,
    makes [R0] satisfied and returns a [Dropoff] at 8 (distance 18, travel
    time 6); the [Cancellation] at 10 then changes nothing and returns no
    event. *)
Theorem end_to_end_D0_R0 :
  let s1 := Event_do (RiderRequest 0 0%nat) world0 in
  let s2 := Event_do (Pickup 2 0%nat 0%nat) (fst s1) in
  let s3 := Event_do (Cancellation 10 0%nat) (fst s2) in
  fst (request_rider 0%nat (mkWorld (fun _ => D0) (fun _ => R0) Dispatcher_init []))
    = world0 /\
  is_idle (drivers world0 0%nat) = true /\
  _drivers (dispatcher world0) = [0%nat] /\
  snd (request_driver 0%nat world0) = Ok (Some 0%nat) /\
  manhattan_distance (mkLocation 3 5) (mkLocation 7 7) = 6 /\
  get_travel_time D0 (mkLocation 7 7) = Ok 2 /\
  snd s1 = Ok [Pickup 2 0%nat 0%nat; Cancellation 10 0%nat] /\
  status (riders (fst s1) 0%nat) = WAITING /\
  snd s2 = Ok [Dropoff 8 0%nat 0%nat] /\
  status (riders (fst s2) 0%nat) = SATISFIED /\
  manhattan_distance (mkLocation 7 7) (mkLocation 20 2) = 18 /\
  get_travel_time (drivers (fst s2) 0%nat) (mkLocation 20 2) = Ok 6 /\
  snd s3 = Ok [] /\
  fst s3 = fst s2.
Proof.
  vm_compute. repeat split.
Qed.

(* ================================================================= *)
(** ** Distance, travel time and rounding *)

(** C8, as stated, fails: the quotient is a binary64 number.  At distance
    [2^53 + 1] and speed 1 it is [2^53], so that the travel time is not the
    quotient rounded to the nearest integer, and at distance [10^400] the
    division raises [OverflowError], so that there is no travel time. *)
Lemma travel_time_beyond_binary64 :
  let self := Driver_init EmptyString (mkLocation 0 0) 1 in
  manhattan_distance (mkLocation 0 0) (mkLocation 0 (2 ^ 53 + 1)) = 2 ^ 53 + 1 /\
  get_travel_time self (mkLocation 0 (2 ^ 53 + 1)) = Ok (2 ^ 53) /\
  get_travel_time self (mkLocation 0 (10 ^ 400)) = Raise OverflowError /\
  ~ (forall (self : Driver) (here destination : Location),
       location self = Some here -> 0 < speed self ->
       exists time,
         get_travel_time self destination = Ok time /\
         Z.abs (2 * (time * speed self - manhattan_distance here destination))
           <= speed self /\
         0 <= time).
Proof.
  split; [reflexivity|]. split; [reflexivity|]. split; [reflexivity|].
  intros H.
  destruct (H (Driver_init EmptyString (mkLocation 0 0) 1) (mkLocation 0 0)
              (mkLocation 0 (10 ^ 400)) eq_refl eq_refl) as (time & Ht & _).
  vm_compute in Ht. discriminate.
Qed.

(** C8, amended.  The Manhattan distance is the sum of the absolute
    differences of the coordinates, is non-negative and symmetric.  The
    travel time of a driver of positive speed is [round] of the binary64
    quotient of the distance from its location by its speed: it is not
    negative where the division returns, and the division raises nothing
    but [OverflowError].  For distances below [2^52] it returns, and the
    travel time is the exact quotient rounded to the nearest integer, at
    most a half away from the quotient. *)
Theorem distance_and_travel_time (A B : Location)
    (self : Driver) (here destination : Location)
    (Hloc : location self = Some here) (Hspeed : 0 < speed self) :
  manhattan_distance A B = Z.abs (row A - row B) + Z.abs (col A - col B) /\
  0 <= manhattan_distance A B /\
  manhattan_distance A B = manhattan_distance B A /\
  get_travel_time self destination =
    py_round_div (manhattan_distance here destination) (speed self) /\
  (forall time, get_travel_time self destination = Ok time -> 0 <= time) /\
  (forall e, get_travel_time self destination = Raise e -> e = OverflowError) /\
  (manhattan_distance here destination < 2 ^ 52 ->
   exists time,
     get_travel_time self destination = Ok time /\
     time = round_half_even (manhattan_distance here destination) (speed self) /\
     time = round_binary64_div (manhattan_distance here destination)
                               (speed self) /\
     Z.abs (2 * (time * speed self - manhattan_distance here destination))
       <= speed self /\
     0 <= time).
Proof.
  pose proof (manhattan_distance_nonneg here destination) as Hn.
  assert (E : get_travel_time self destination =
              py_round_div (manhattan_distance here destination) (speed self))
    by (unfold get_travel_time; rewrite Hloc; reflexivity).
  split; [reflexivity|].
  split; [apply manhattan_distance_nonneg|].
  split; [apply manhattan_distance_sym|].
  split; [exact E|].
  split; [intros time Ht; rewrite E in Ht;
          exact (py_round_div_nonneg _ _ _ Hn Hspeed Ht)|].
  split.
  { intros e. rewrite E. unfold py_round_div.
    destruct (Z.eqb_spec (speed self) 0); [lia|].
    destruct (_ =? 0); [discriminate|].
    destruct (quotient_overflows _ _); [congruence|discriminate]. }
  intros Hsmall. eexists.
  split; [apply get_travel_time_ok; eassumption|].
  split; [reflexivity|].
  split.
  { destruct (Z.eq_dec (manhattan_distance here destination) 0) as [E0|E0].
    - rewrite E0, round_half_even_of_zero, round_binary64_div_zero.
      reflexivity.
    - symmetry. apply round_binary64_div_exact; [lia|assumption]. }
  split; [apply round_half_even_nearest; assumption|].
  apply round_half_even_nonneg; assumption.
Qed.

Lemma distance_and_travel_time_witness :
  location D0 = Some (mkLocation 3 5) /\ 0 < speed D0 /\
  forall time, get_travel_time D0 (mkLocation 7 7) = Ok time -> 0 <= time.
Proof.
  assert (Hs : 0 < speed D0) by (simpl; lia).
  split; [reflexivity|]. split; [exact Hs|].
  destruct (distance_and_travel_time (mkLocation 3 5) (mkLocation 7 7) D0
              (mkLocation 3 5) (mkLocation 7 7) eq_refl Hs)
    as (_ & _ & _ & _ & Hpos & _).
  exact Hpos.
Defined.




(* ================================================================= *)
(** ** The simulation loop stops *)

Lemma weights_app l1 l2 : weights (l1 ++ l2) = (weights l1 + weights l2)%nat.
Proof.
  induction l1 as [|e l1 IH]; simpl; [reflexivity|]. rewrite IH. lia.
Qed.

Lemma weights_Permutation l1 l2 : Permutation l1 l2 -> weights l1 = weights l2.
Proof.
  induction 1; simpl; lia.
Qed.

Lemma weights_bound l : (weights l <= 5 * List.length l)%nat.
Proof.
  induction l as [|e l IH]; simpl; [lia|]. destruct e; simpl; lia.
Qed.

(** Executing an event that returns lowers the weight it stood for: what it
    schedules and what it adds to the waiting queue weigh less. *)
Lemma Event_do_weight e w :
  match Event_do e w with
  | (w', Ok possible) =>
      (weights possible + 3 * List.length (_waiting_rider (dispatcher w'))
       < weight e + 3 * List.length (_waiting_rider (dispatcher w)))%nat
  | (_, Raise _) => True
  end.
Proof.
  destruct e as [t rider|t driver|t rider|t rider driver|t rider driver]; simpl.
  - unfold RiderRequest_do. run_monad. dispatcher_calls.
    + exact I.
    + simpl. rewrite length_app. simpl. lia.
    + unfold start_drive. cbv beta iota zeta.
      match goal with |- context [get_travel_time ?d ?o] =>
        destruct (get_travel_time d o) end; simpl; [lia|exact I].
  - unfold DriverRequest_do. run_monad. dispatcher_calls.
    cbn [dispatcher _waiting_rider].
    destruct (_waiting_rider (dispatcher w)) as [|r0 rest] eqn:Eq.
    + simpl. rewrite Eq. simpl. lia.
    + unfold start_drive. cbv beta iota zeta.
      match goal with |- context [get_travel_time ?d ?o] =>
        destruct (get_travel_time d o) end; simpl; [lia|exact I].
  - unfold Cancellation_do. run_monad.
    destruct (status (riders w rider)); simpl; try lia.
    dispatcher_calls. simpl in *. lia.
  - unfold Pickup_do. run_monad.
    destruct (status (riders w rider)); simpl; try lia.
    unfold start_ride. cbv beta iota zeta.
    match goal with |- context [get_travel_time ?d ?o] =>
      destruct (get_travel_time d o) end; simpl; [lia|exact I].
  - unfold Dropoff_do. run_monad. dispatcher_calls. simpl in *. lia.
Qed.

Lemma run_loop_more_fuel {Q} `{PriorityQueue Q} fuel :
  forall (s : Run Q) out,
    run_loop fuel s = Some out ->
    forall fuel', (fuel <= fuel')%nat -> run_loop fuel' s = Some out.
Proof.
  induction fuel as [|fuel IH]; intros s out Hrun fuel' Hle; [discriminate|].
  destruct fuel' as [|fuel']; [lia|].
  simpl in *. destruct (pq_is_empty (run_events s)); [assumption|].
  destruct (pq_remove (run_events s)) as [[event q]|e]; [|assumption].
  destruct (Event_do event (run_world s)) as [w' [possible|e]]; [|assumption].
  apply (IH _ _ Hrun). lia.
Qed.

Section Termination.

Context {Q : Type} `{Laws : PriorityQueueLaws Q}.

Lemma weights_fold_add (l : list Event) :
  forall q : Q,
    weights (pq_items (fold_left pq_add l q)) =
    (weights l + weights (pq_items q))%nat.
Proof.
  induction l as [|e l IH]; intros q; simpl; [reflexivity|].
  rewrite IH. rewrite (weights_Permutation _ _ (pq_items_add q e)).
  simpl. lia.
Qed.

(** With more fuel than its potential, the loop stops: on an empty
    collection, or on an exception; it executes at most as many events as
    the potential. *)
Lemma run_loop_stops (fuel : nat) :
  forall s : Run Q,
    (potential s < fuel)%nat ->
    exists s' r,
      run_loop fuel s = Some (s', r) /\
      (List.length (run_done s') <= List.length (run_done s) + potential s)%nat /\
      (r = Ok tt -> pq_items (run_events s') = []).
Proof.
  induction fuel as [|fuel IH]; intros s Hpot; [lia|].
  simpl. destruct (pq_is_empty (run_events s)) eqn:Eempty.
  - exists s, (Ok tt). split; [reflexivity|]. split; [lia|].
    intros _. apply pq_is_empty_items. assumption.
  - destruct (pq_remove_items _ Eempty) as (event & q & Erem & Hperm).
    rewrite Erem.
    assert (Hw : potential s =
                 (weight event + weights (pq_items q) +
                  3 * List.length (_waiting_rider (dispatcher (run_world s))))%nat).
    { unfold potential. rewrite (weights_Permutation _ _ Hperm). simpl. lia. }
    pose proof (Event_do_weight event (run_world s)) as Hstep.
    destruct (Event_do event (run_world s)) as [w' [possible|e]].
    + destruct (IH (mkRun w' (fold_left pq_add possible q) (event :: run_done s)))
        as (s' & r & Erun & Hlen & Hempty).
      { unfold potential. simpl. rewrite weights_fold_add. lia. }
      exists s', r. split; [assumption|]. split; [|assumption].
      unfold potential in Hlen. simpl in Hlen. rewrite weights_fold_add in Hlen.
      lia.
    + eexists _, _. split; [reflexivity|]. split; [|discriminate].
      simpl. destruct event; simpl in Hw; lia.
Qed.

End Termination.


(* ================================================================= *)
(** ** Priority collections *)

Lemma extract_least_Permutation (l : list Event) :
  forall x, Permutation (x :: l)
                        (fst (extract_least x l) :: snd (extract_least x l)).
Proof.
  induction l as [|y l IH]; intros x; simpl; [reflexivity|].
  specialize (IH y). destruct (extract_least y l) as [m rest]. simpl in IH.
  destruct (Event_leb x m); simpl; [reflexivity|].
  rewrite IH. apply perm_swap.
Qed.

Lemma extract_least_least (l : list Event) :
  forall x y, In y (x :: l) ->
              timestamp (fst (extract_least x l)) <= timestamp y.
Proof.
  induction l as [|z l IH]; intros x y Hin.
  - destruct Hin as [<-|[]]. simpl. lia.
  - simpl. specialize (IH z). destruct (extract_least z l) as [m rest].
    simpl in IH. unfold Event_leb.
    destruct (Z.leb_spec (timestamp x) (timestamp m)) as [Hle|Hgt]; simpl.
    + destruct Hin as [<-|Hin]; [lia|]. specialize (IH y Hin). lia.
    + destruct Hin as [<-|Hin]; [lia|]. exact (IH y Hin).
Qed.

Lemma arrival_add (q : list Event) (e : Event) : Permutation (q ++ [e]) (e :: q).
Proof. symmetry. apply Permutation_cons_append. Qed.

Lemma arrival_is_empty (q : list Event) :
  match q with [] => true | _ :: _ => false end = true <-> q = [].
Proof. destruct q; split; intros; congruence. Qed.

Lemma arrival_remove (q : list Event) :
  match q with [] => true | _ :: _ => false end = false ->
  exists e q',
    match q with [] => Raise IndexError | x :: l => Ok (extract_least x l) end
      = Ok (e, q') /\
    Permutation q (e :: q').
Proof.
  destruct q as [|x l]; [discriminate|]. intros _.
  exists (fst (extract_least x l)), (snd (extract_least x l)).
  split; [destruct (extract_least x l); reflexivity|].
  apply extract_least_Permutation.
Qed.

#[export] Instance ArrivalQueueLaws : PriorityQueueLaws (list Event) := {|
  pq_items := fun q => q;
  pq_items_init := eq_refl;
  pq_items_add := arrival_add;
  pq_is_empty_items := arrival_is_empty;
  pq_remove_items := arrival_remove
|}.

Lemma ArrivalQueue_removes_least : removes_least (list Event).
Proof.
  intros q e q' Hrem x Hin. simpl in *.
  destruct q as [|y l]; [discriminate|]. injection Hrem as Hrem.
  pose proof (extract_least_least l y x Hin) as H. rewrite Hrem in H. exact H.
Qed.

Section TieFree.

Context {Q : Type} `{Laws : PriorityQueueLaws Q}.
Hypothesis Hleast : removes_least Q.

Lemma items_fold_add (l : list Event) :
  forall q : Q, Permutation (pq_items (fold_left pq_add l q)) (pq_items q ++ l).
Proof.
  induction l as [|e l IH]; intros q; simpl.
  - rewrite app_nil_r. reflexivity.
  - transitivity (pq_items (pq_add q e) ++ l); [apply IH|].
    transitivity ((e :: pq_items q) ++ l).
    + apply Permutation_app_tail, pq_items_add.
    + simpl. apply Permutation_middle.
Qed.

(** When one pending event is strictly the earliest, it is the one handed
    out. *)
Lemma remove_strictly_least (q : Q) (e : Event) (rest : list Event) :
  Permutation (pq_items q) (e :: rest) ->
  strictly_least e rest = true ->
  exists q', pq_remove q = Ok (e, q') /\ Permutation (pq_items q') rest /\
             pq_is_empty q = false.
Proof.
  intros Hperm Hstrict.
  assert (Hne : pq_is_empty q = false).
  { destruct (pq_is_empty q) eqn:E; [|reflexivity].
    apply pq_is_empty_items in E. rewrite E in Hperm.
    apply Permutation_nil in Hperm. discriminate. }
  destruct (pq_remove_items q Hne) as (e0 & q0 & Erem & Hperm0).
  assert (He0 : e0 = e).
  { assert (Hin0 : In e0 (e :: rest)).
    { apply (Permutation_in e0 Hperm). apply (Permutation_in e0 (Permutation_sym Hperm0)).
      left. reflexivity. }
    destruct Hin0 as [E|Hin0]; [congruence|]. exfalso.
    unfold strictly_least in Hstrict. rewrite forallb_forall in Hstrict.
    specialize (Hstrict e0 Hin0). apply Z.ltb_lt in Hstrict.
    assert (Hin : In e (pq_items q))
      by (apply (Permutation_in e (Permutation_sym Hperm)); left; reflexivity).
    pose proof (Hleast q e0 q0 Erem e Hin). lia. }
  subst e0. exists q0. split; [assumption|]. split; [|assumption].
  apply Permutation_cons_inv with (a := e).
  transitivity (pq_items q); [symmetry; exact Hperm0|exact Hperm].
Qed.

(** A run without ties is the run of every priority collection. *)
Lemma tie_free_run_sound (fuel : nat) :
  forall w pending done w' pending' done' r,
    tie_free_run fuel w pending done = Some (w', pending', done', r) ->
    forall q : Q,
      Permutation (pq_items q) pending ->
      exists q',
        run_loop fuel (mkRun w q done) = Some (mkRun w' q' done', r) /\
        Permutation (pq_items q') pending'.
Proof.
  induction fuel as [|fuel IH]; intros w pending done w' pending' done' r Hrun q Hperm;
    [discriminate|].
  simpl in Hrun. destruct pending as [|x l].
  - injection Hrun as <- <- <- <-.
    apply Permutation_sym, Permutation_nil in Hperm.
    exists q. simpl. rewrite (proj2 (pq_is_empty_items q) Hperm).
    split; [reflexivity|]. rewrite Hperm. reflexivity.
  - pose proof (extract_least_Permutation l x) as Hex.
    destruct (extract_least x l) as [e rest]. simpl in Hex.
    destruct (strictly_least e rest) eqn:Hstrict; [|discriminate].
    destruct (remove_strictly_least q e rest) as (q0 & Erem & Hperm0 & Hne);
      [rewrite Hperm; exact Hex|assumption|].
    simpl. rewrite Hne, Erem.
    destruct (Event_do e w) as [w1 [possible|ex]].
    + apply (IH _ _ _ _ _ _ _ Hrun).
      rewrite items_fold_add. apply Permutation_app_tail. assumption.
    + injection Hrun as <- <- <- <-. exists q0. split; [reflexivity|assumption].
Qed.

End TieFree.

(* ================================================================= *)
(** ** [Simulation.run] *)

Lemma Simulation_run_more_fuel {Q} `{PriorityQueue Q} {Report : Type}
    (report : list Notification -> Report) fuel (s : Run Q) initial out :
  Simulation_run report fuel s initial = Some out ->
  forall fuel', (fuel <= fuel')%nat ->
                Simulation_run report fuel' s initial = Some out.
Proof.
  unfold Simulation_run. intros Hrun fuel' Hle.
  destruct (run_loop fuel _) as [[s' r]|] eqn:E; [|discriminate].
  rewrite (run_loop_more_fuel fuel _ _ E fuel' Hle). exact Hrun.
Qed.

(** The run on the shared driver has no ties: it executes eleven events and
    the twelfth raises. *)
Lemma shared_driver_tie_free_run :
  exists w' done',
    tie_free_run 12 shared_driver_world shared_driver_events [] =
      Some (w', [Cancellation 101 0%nat; Cancellation 102 1%nat], done',
            Raise AttributeError) /\
    location (drivers w' 0%nat) = None /\
    is_idle (drivers w' 0%nat) = true /\
    _drivers (dispatcher w') = [0%nat] /\
    rev done' =
      [DriverRequest 0 0%nat; RiderRequest 1 0%nat; Pickup 1 0%nat 0%nat;
       RiderRequest 2 1%nat; DriverRequest 3 0%nat; Pickup 4 1%nat 0%nat;
       Dropoff 6 1%nat 0%nat; DriverRequest 6 0%nat; Dropoff 11 0%nat 0%nat;
       DriverRequest 11 0%nat; RiderRequest 20 2%nat].
Proof.
  assert (E' :
    match tie_free_run 12 shared_driver_world shared_driver_events [] with
    | Some (w, p, d, r) =>
        Some (p, rev d, r, location (drivers w 0%nat),
              is_idle (drivers w 0%nat), _drivers (dispatcher w))
    | None => None
    end =
    Some ([Cancellation 101 0%nat; Cancellation 102 1%nat],
          [DriverRequest 0 0%nat; RiderRequest 1 0%nat; Pickup 1 0%nat 0%nat;
           RiderRequest 2 1%nat; DriverRequest 3 0%nat; Pickup 4 1%nat 0%nat;
           Dropoff 6 1%nat 0%nat; DriverRequest 6 0%nat; Dropoff 11 0%nat 0%nat;
           DriverRequest 11 0%nat; RiderRequest 20 2%nat],
          Raise AttributeError, None, true, [0%nat]))
    by (vm_compute; reflexivity).
  destruct (tie_free_run 12 shared_driver_world shared_driver_events [])
    as [[[[w' pending'] done'] r]|]; [|discriminate].
  injection E' as -> Hdone -> Hloc Hidle Hreg.
  exists w', done'. repeat split; assumption.
Qed.

(** C9.  A run that does not end with an empty collection: one driver
    object named by two initial [DriverRequest] events, patiences and speed
    positive.  The second request matches the driver while it carries a
    rider, [request_rider] not looking at the idle flag; so [Dropoff.do] is
    executed twice for it, the second time calling [end_ride] on a driver
    without destination, against the precondition in that method's
    docstring.  This stores [None] as the driver's location, and the next
    rider's request raises [AttributeError], with two events still pending.
    No two pending events ever tie for the least timestamp in this run, so
    this is what happens with every priority collection, and no amount of
    fuel lets the run return a report. *)
Lemma shared_driver_run_raises :
  (forall r, 0 < patience (three_riders r)) /\
  0 < speed D /\
  removes_least (list Event) /\
  (forall (Q : Type) (PQ : PriorityQueue Q) (Laws : PriorityQueueLaws Q)
          (Report : Type) (report : list Notification -> Report),
     removes_least Q ->
     (exists s',
        Simulation_run report 12 (Simulation_init (fun _ => D) three_riders)
                       shared_driver_events
          = Some (s', Raise AttributeError) /\
        Permutation (pq_items (run_events s'))
                    [Cancellation 101 0%nat; Cancellation 102 1%nat] /\
        location (drivers (run_world s') 0%nat) = None /\
        is_idle (drivers (run_world s') 0%nat) = true /\
        In 0%nat (_drivers (dispatcher (run_world s')))) /\
     (forall fuel s' rep,
        Simulation_run report fuel (Simulation_init (fun _ => D) three_riders)
                       shared_driver_events
          <> Some (s', Ok rep))).
Proof.
  split; [intros [|[|r]]; simpl; lia|].
  split; [simpl; lia|].
  split; [exact ArrivalQueue_removes_least|].
  intros Q PQ Laws Report report Hleast.
  assert (E12 : exists s',
     Simulation_run report 12 (Simulation_init (fun _ => D) three_riders)
                    shared_driver_events
       = Some (s', Raise AttributeError) /\
     Permutation (pq_items (run_events s'))
                 [Cancellation 101 0%nat; Cancellation 102 1%nat] /\
     location (drivers (run_world s') 0%nat) = None /\
     is_idle (drivers (run_world s') 0%nat) = true /\
     In 0%nat (_drivers (dispatcher (run_world s')))).
  { destruct shared_driver_tie_free_run
      as (w' & done' & Erun & Hloc & Hidle & Hreg & _).
    destruct (tie_free_run_sound Hleast 12 _ _ _ _ _ _ _ Erun
                (fold_left pq_add shared_driver_events pq_init))
      as (q' & Eloop & Hperm).
    { rewrite items_fold_add, pq_items_init. reflexivity. }
    exists (mkRun w' q' done'). unfold Simulation_run.
    change (run_world (Simulation_init (fun _ => D) three_riders))
      with shared_driver_world.
    change (run_events (Simulation_init (Q := Q) (fun _ => D) three_riders))
      with (pq_init (Q := Q)).
    change (run_done (Simulation_init (Q := Q) (fun _ => D) three_riders))
      with (@nil Event).
    rewrite Eloop. simpl. rewrite Hreg.
    repeat split; try assumption. left. reflexivity. }
  split; [exact E12|].
  intros fuel s' rep Hrun. destruct E12 as (s12 & E12 & _).
  pose proof (Simulation_run_more_fuel _ _ _ _ _ Hrun (Nat.max fuel 12)
                (Nat.le_max_l _ _)) as H1.
  pose proof (Simulation_run_more_fuel _ _ _ _ _ E12 (Nat.max fuel 12)
                (Nat.le_max_r _ _)) as H2.
  rewrite H1 in H2. discriminate.
Qed.



(* ================================================================= *)
(** * Further properties *)

(* ================================================================= *)
(** ** [cancel_ride], item by item *)

(** What [list.remove] takes out: the first item that passes the test. *)
Lemma list_remove_split {A} (p : A -> bool) (l l' : list A) :
  list_remove p l = Ok l' ->
  exists l1 x l2,
    l = l1 ++ x :: l2 /\ l' = l1 ++ l2 /\ p x = true /\
    forall y, In y l1 -> p y = false.
Proof.
  revert l'. induction l as [|y l IH]; intros l' H; simpl in H; [discriminate|].
  destruct (p y) eqn:Hy.
  - injection H as <-. exists [], y, l. repeat split; auto. intros ? [].
  - destruct (list_remove p l) as [l''|e]; [|discriminate]. injection H as <-.
    destruct (IH l'' eq_refl) as (l1 & x & l2 & -> & -> & Hx & Hl1).
    exists (y :: l1), x, l2. repeat split; auto.
    intros z [<-|Hz]; auto.
Qed.

(** An item that [list.remove(passenger)] may take has the id of
    [passenger]. *)
Lemma same_rider_id w passenger x :
  same_rider w passenger x = true ->
  rider_id (riders w x) = rider_id (riders w passenger).
Proof.
  unfold same_rider, Rider_eqb. intros H. apply orb_true_iff in H.
  destruct H as [H|H].
  - apply Nat.eqb_eq in H. subst. reflexivity.
  - apply String.eqb_eq in H. exact H.
Qed.

Lemma cancel_loop_keeps_others w rider fuel :
  forall i l l',
    cancel_loop fuel w rider i l = Ok l' ->
    filter (other_id w rider) l' = filter (other_id w rider) l.
Proof.
  induction fuel as [|fuel IH]; intros i l l' H; simpl in H.
  - injection H as <-. reflexivity.
  - destruct (nth_error l i) as [passenger|]; [|injection H as <-; reflexivity].
    destruct (String.eqb _ _) eqn:Eid; [|eapply IH; eassumption].
    destruct (list_remove (same_rider w passenger) l) as [l1|e] eqn:Erem;
      [|discriminate].
    rewrite (IH _ _ _ H).
    destruct (list_remove_split _ _ _ Erem) as (a & x & b & -> & -> & Hx & _).
    assert (Hox : other_id w rider x = false).
    { apply same_rider_id in Hx. apply String.eqb_eq in Eid.
      unfold other_id. rewrite Hx, <- Eid, String.eqb_refl. reflexivity. }
    rewrite !filter_app. simpl. rewrite Hox. reflexivity.
Qed.

Lemma cancel_loop_absent w rider l :
  (forall r, In r l -> other_id w rider r = true) ->
  forall fuel i, cancel_loop fuel w rider i l = Ok l.
Proof.
  intros Hl. induction fuel as [|fuel IH]; intros i; simpl; [reflexivity|].
  destruct (nth_error l i) as [passenger|] eqn:Enth; [|reflexivity].
  apply nth_error_In in Enth. specialize (Hl _ Enth).
  unfold other_id in Hl. apply negb_true_iff in Hl. rewrite Hl. apply IH.
Qed.

Lemma set_waiting_same w : set_waiting (_waiting_rider (dispatcher w)) w = w.
Proof. destruct w as [ds rs [l q] m]. reflexivity. Qed.

Lemma filter_all {A} (p : A -> bool) (l : list A) :
  (forall x, In x l -> p x = true) -> filter p l = l.
Proof.
  induction l as [|x l IH]; intros H; simpl; [reflexivity|].
  rewrite (H x) by (left; reflexivity). f_equal. apply IH.
  intros; apply H; right; assumption.
Qed.

Lemma other_id_iff w rider r :
  other_id w rider r = true <->
  rider_id (riders w r) <> rider_id (riders w rider).
Proof.
  unfold other_id. rewrite negb_true_iff. split.
  - intros H E. rewrite E, String.eqb_refl in H. discriminate.
  - intros H. apply String.eqb_neq. congruence.
Qed.

(** With the one rider of the id at position [length l1], the loop passes
    the riders before it, removes it and stops changing the list. *)
Lemma cancel_loop_single w rider l1 x l2 :
  (forall r, In r l1 -> other_id w rider r = true) ->
  (forall r, In r l2 -> other_id w rider r = true) ->
  other_id w rider x = false ->
  forall fuel i,
    (i <= List.length l1)%nat -> (List.length l1 - i < fuel)%nat ->
    cancel_loop fuel w rider i (l1 ++ x :: l2) = Ok (l1 ++ l2).
Proof.
  intros H1 H2 Hx. induction fuel as [|fuel IH]; intros i Hi Hfuel; [lia|].
  simpl. destruct (Nat.eq_dec i (List.length l1)) as [->|Hne].
  - rewrite nth_error_app2, Nat.sub_diag by lia. simpl.
    unfold other_id in Hx. apply negb_false_iff in Hx. rewrite Hx.
    assert (Erem : list_remove (same_rider w x) (l1 ++ x :: l2) = Ok (l1 ++ l2)).
    { clear IH Hi Hfuel H2. induction l1 as [|y l1 IHl]; simpl.
      - rewrite same_rider_refl. reflexivity.
      - assert (Hy : same_rider w x y = false).
        { destruct (same_rider w x y) eqn:E; [|reflexivity].
          apply same_rider_id in E.
          assert (Ho : other_id w rider y = true) by (apply H1; left; reflexivity).
          apply other_id_iff in Ho. apply String.eqb_eq in Hx. congruence. }
        rewrite Hy, IHl; [reflexivity|]. intros; apply H1; right; assumption. }
    rewrite Erem. apply cancel_loop_absent.
    intros r Hr. apply in_app_or in Hr. destruct Hr; auto.
  - assert (Hlt : (i < List.length l1)%nat) by lia.
    rewrite nth_error_app1 by assumption.
    destruct (nth_error l1 i) as [passenger|] eqn:Enth;
      [|apply nth_error_None in Enth; lia].
    pose proof (H1 _ (nth_error_In _ _ Enth)) as Ho.
    unfold other_id in Ho. apply negb_true_iff in Ho. rewrite Ho.
    apply IH; lia.
Qed.

Lemma NoDup_map_split {A B} (f : A -> B) (l1 : list A) (x : A) (l2 : list A) :
  NoDup (map f (l1 ++ x :: l2)) ->
  forall y, In y (l1 ++ l2) -> f y <> f x.
Proof.
  rewrite map_app. simpl. intros H y Hy E.
  apply NoDup_remove_2 in H. apply H. rewrite <- map_app, <- E.
  apply in_map. assumption.
Qed.

(** With pairwise distinct ids in the queue the loop is a filter. *)
Lemma cancel_loop_distinct w rider l :
  NoDup (map (fun r => rider_id (riders w r)) l) ->
  cancel_loop (List.length l) w rider O l = Ok (filter (other_id w rider) l).
Proof.
  intros Hnd.
  destruct (existsb (fun r => negb (other_id w rider r)) l) eqn:Eex.
  - apply existsb_exists in Eex. destruct Eex as (x & Hin & Hx).
    apply negb_true_iff in Hx.
    destruct (in_split _ _ Hin) as (l1 & l2 & ->).
    pose proof (NoDup_map_split _ _ _ _ Hnd) as Hother.
    assert (Hid : rider_id (riders w x) = rider_id (riders w rider)).
    { unfold other_id in Hx. apply negb_false_iff, String.eqb_eq in Hx. congruence. }
    assert (H1 : forall r, In r l1 -> other_id w rider r = true).
    { intros r Hr. apply other_id_iff. rewrite <- Hid.
      apply Hother, in_or_app. left. assumption. }
    assert (H2 : forall r, In r l2 -> other_id w rider r = true).
    { intros r Hr. apply other_id_iff. rewrite <- Hid.
      apply Hother, in_or_app. right. assumption. }
    rewrite (cancel_loop_single w rider l1 x l2 H1 H2 Hx);
      [|lia|rewrite length_app; simpl; lia].
    rewrite filter_app. simpl. rewrite Hx.
    rewrite !filter_all by assumption. reflexivity.
  - assert (Hall : forall r, In r l -> other_id w rider r = true).
    { intros r Hr. destruct (other_id w rider r) eqn:E; [reflexivity|].
      assert (existsb (fun r => negb (other_id w rider r)) l = true)
        by (apply existsb_exists; exists r; rewrite E; auto).
      congruence. }
    rewrite cancel_loop_absent by assumption.
    rewrite filter_all by assumption. reflexivity.
Qed.

(** When every queued rider has the id, each iteration removes the head of
    the list while the index moves on: the loop stops half-way. *)
Lemma cancel_loop_same_id w rider fuel :
  forall i l,
    (forall r, In r l -> other_id w rider r = false) ->
    (List.length l - i <= fuel)%nat ->
    cancel_loop fuel w rider i l = Ok (skipn ((List.length l - i + 1) / 2) l).
Proof.
  induction fuel as [|fuel IH]; intros i l Hall Hfuel.
  - cbn [cancel_loop].
    replace (List.length l - i)%nat with O by lia. reflexivity.
  - cbn [cancel_loop]. destruct (nth_error l i) as [passenger|] eqn:Enth.
    + pose proof (nth_error_In _ _ Enth) as Hp.
      assert (Hlt : (i < List.length l)%nat) by (apply nth_error_Some; congruence).
      pose proof (Hall _ Hp) as Ho. unfold other_id in Ho.
      apply negb_false_iff in Ho. rewrite Ho.
      destruct l as [|h t]; [destruct Hp|].
      assert (Hh : same_rider w passenger h = true).
      { unfold same_rider, Rider_eqb. apply orb_true_iff. right.
        apply String.eqb_eq. apply String.eqb_eq in Ho.
        assert (Hoh : other_id w rider h = false) by (apply Hall; left; reflexivity).
        unfold other_id in Hoh. apply negb_false_iff, String.eqb_eq in Hoh.
        congruence. }
      simpl list_remove. rewrite Hh.
      cbn [List.length] in *.
      rewrite IH; [|intros; apply Hall; right; assumption|lia].
      replace ((S (List.length t) - i + 1) / 2)%nat
        with (S ((List.length t - S i + 1) / 2)).
      * reflexivity.
      * assert (Hcase : (S i <= List.length t \/ i = List.length t)%nat) by lia.
        destruct Hcase as [Hc|Hc].
        -- replace (S (List.length t) - i + 1)%nat
             with ((List.length t - S i + 1) + 1 * 2)%nat by lia.
           rewrite Nat.div_add by lia. lia.
        -- subst i.
           replace (List.length t - S (List.length t) + 1)%nat with 1%nat by lia.
           replace (S (List.length t) - List.length t + 1)%nat with 2%nat by lia.
           reflexivity.
    + apply nth_error_None in Enth.
      replace (List.length l - i)%nat with O by lia. reflexivity.
Qed.

Lemma cancel_ride_no_such_id (rider : rref) (w : World) :
  (forall r, In r (_waiting_rider (dispatcher w)) ->
             rider_id (riders w r) <> rider_id (riders w rider)) ->
  cancel_ride rider w = (w, Ok tt).
Proof.
  intros Habsent. unfold cancel_ride. unfold_monad.
  rewrite cancel_loop_absent.
  - simpl. rewrite set_waiting_same. reflexivity.
  - intros r Hr. apply other_id_iff, Habsent, Hr.
Qed.

(** X1.  [cancel_ride] never raises and changes nothing but the waiting
    queue, which does not grow; the queued riders whose id is not the
    rider's stay queued, in their order. *)
Theorem cancel_ride_keeps_other_riders (rider : rref) (w : World) :
  let w' := fst (cancel_ride rider w) in
  snd (cancel_ride rider w) = Ok tt /\
  filter (other_id w rider) (_waiting_rider (dispatcher w')) =
    filter (other_id w rider) (_waiting_rider (dispatcher w)) /\
  (List.length (_waiting_rider (dispatcher w')) <=
   List.length (_waiting_rider (dispatcher w)))%nat /\
  drivers w' = drivers w /\ riders w' = riders w /\
  _drivers (dispatcher w') = _drivers (dispatcher w) /\
  monitor w' = monitor w.
Proof.
  unfold cancel_ride. unfold_monad.
  destruct (cancel_loop (List.length (_waiting_rider (dispatcher w))) w rider O
              (_waiting_rider (dispatcher w))) as [l'|e] eqn:E.
  - simpl. split; [reflexivity|].
    split; [eapply cancel_loop_keeps_others; eassumption|].
    split; [|repeat split].
    destruct (cancel_loop_ok (List.length (_waiting_rider (dispatcher w))) w rider
                O (_waiting_rider (dispatcher w))) as (l'' & E' & Hlen).
    rewrite E in E'. injection E' as <-. exact Hlen.
  - destruct (cancel_loop_ok (List.length (_waiting_rider (dispatcher w))) w rider
                O (_waiting_rider (dispatcher w))) as (l'' & E' & _).
    rewrite E in E'. discriminate.
Qed.

(** X2.  [cancel_ride] for a rider whose id no queued rider has leaves the
    world as it is. *)
Theorem cancel_ride_absent_rider (rider : rref) (w : World)
    (Habsent : forall r, In r (_waiting_rider (dispatcher w)) ->
                         rider_id (riders w r) <> rider_id (riders w rider)) :
  cancel_ride rider w = (w, Ok tt).
Proof.
  unfold cancel_ride. unfold_monad.
  rewrite cancel_loop_absent.
  - simpl. rewrite set_waiting_same. reflexivity.
  - intros r Hr. apply other_id_iff, Habsent, Hr.
Qed.

Lemma cancel_ride_absent_rider_witness :
  (forall r, In r (_waiting_rider (dispatcher (world_queue [0%nat; 1%nat]))) ->
             rider_id (riders (world_queue [0%nat; 1%nat]) r) <>
             rider_id (riders (world_queue [0%nat; 1%nat]) 3%nat)) /\
  cancel_ride 3%nat (world_queue [0%nat; 1%nat])
    = (world_queue [0%nat; 1%nat], Ok tt).
Proof.
  assert (H : forall r, In r (_waiting_rider (dispatcher (world_queue [0%nat; 1%nat]))) ->
             rider_id (riders (world_queue [0%nat; 1%nat]) r) <>
             rider_id (riders (world_queue [0%nat; 1%nat]) 3%nat)).
  { intros r [<-|[<-|[]]]; discriminate. }
  split; [exact H|].
  exact (cancel_ride_absent_rider 3%nat (world_queue [0%nat; 1%nat]) H).
Defined.

(** X3.  When the queued riders have pairwise distinct ids, [cancel_ride]
    removes exactly the rider of the given id: the queue becomes the queue
    without it, the rider is no longer found in it, and a second call
    changes nothing. *)
Theorem cancel_ride_distinct_ids (rider : rref) (w : World)
    (Hdistinct : NoDup (waiting_ids w)) :
  let w' := fst (cancel_ride rider w) in
  _waiting_rider (dispatcher w') =
    filter (other_id w rider) (_waiting_rider (dispatcher w)) /\
  is_waiting w' rider = false /\
  cancel_ride rider w' = (w', Ok tt).
Proof.
  assert (E : cancel_ride rider w =
              (set_waiting (filter (other_id w rider) (_waiting_rider (dispatcher w))) w,
               Ok tt)).
  { unfold cancel_ride. unfold_monad.
    rewrite (cancel_loop_distinct w rider _ Hdistinct). reflexivity. }
  rewrite E. simpl.
  assert (Hothers : forall r,
            In r (filter (other_id w rider) (_waiting_rider (dispatcher w))) ->
            rider_id (riders w r) <> rider_id (riders w rider)).
  { intros r Hr. apply filter_In in Hr. apply other_id_iff. apply Hr. }
  split; [reflexivity|]. split.
  - unfold is_waiting. simpl.
    destruct (existsb _ _) eqn:Eex; [|reflexivity].
    apply existsb_exists in Eex. destruct Eex as (r & Hr & Hsame).
    apply same_rider_id in Hsame. simpl in Hsame.
    exfalso. exact (Hothers r Hr Hsame).
  - apply cancel_ride_no_such_id. exact Hothers.
Qed.

Lemma cancel_ride_distinct_ids_witness :
  NoDup (waiting_ids (world_queue [0%nat; 1%nat; 3%nat])) /\
  _waiting_rider (dispatcher (fst (cancel_ride 1%nat (world_queue [0%nat; 1%nat; 3%nat]))))
    = [0%nat; 3%nat].
Proof.
  assert (H : NoDup (waiting_ids (world_queue [0%nat; 1%nat; 3%nat]))).
  { unfold waiting_ids. simpl.
    repeat (constructor; [simpl; intuition discriminate|]). constructor. }
  split; [exact H|].
  exact (proj1 (cancel_ride_distinct_ids 1%nat (world_queue [0%nat; 1%nat; 3%nat]) H)).
Defined.

(** X4.  When every queued rider has the id of the rider, [cancel_ride]
    removes only the first half of the queue, rounded up: each removal
    shifts the list under the iterator, which skips the next rider. *)
Theorem cancel_ride_same_id_removes_half (rider : rref) (w : World)
    (Hsame : forall r, In r (_waiting_rider (dispatcher w)) ->
                       rider_id (riders w r) = rider_id (riders w rider)) :
  let q := _waiting_rider (dispatcher w) in
  cancel_ride rider w =
    (set_waiting (skipn ((List.length q + 1) / 2) q) w, Ok tt).
Proof.
  intros q. unfold cancel_ride. unfold_monad. fold q.
  rewrite cancel_loop_same_id.
  - rewrite Nat.sub_0_r. reflexivity.
  - intros r Hr. unfold other_id. apply negb_false_iff, String.eqb_eq.
    symmetry. apply Hsame, Hr.
  - lia.
Qed.

Lemma cancel_ride_same_id_removes_half_witness :
  (forall r, In r (_waiting_rider (dispatcher (world_queue [0%nat; 2%nat]))) ->
             rider_id (riders (world_queue [0%nat; 2%nat]) r) =
             rider_id (riders (world_queue [0%nat; 2%nat]) 0%nat)) /\
  _waiting_rider (dispatcher (fst (cancel_ride 0%nat (world_queue [0%nat; 2%nat]))))
    = [2%nat].
Proof.
  assert (H : forall r,
             In r (_waiting_rider (dispatcher (world_queue [0%nat; 2%nat]))) ->
             rider_id (riders (world_queue [0%nat; 2%nat]) r) =
             rider_id (riders (world_queue [0%nat; 2%nat]) 0%nat)).
  { intros r [<-|[<-|[]]]; reflexivity. }
  split; [exact H|].
  rewrite (cancel_ride_same_id_removes_half 0%nat _ H). reflexivity.
Defined.

(* ================================================================= *)
(** ** [Cancellation.do], [Dropoff.do] and [DriverRequest.do] *)

(** [cancel_ride] in closed form. *)
Lemma cancel_ride_closed (rider : rref) (w : World) :
  exists l',
    cancel_ride rider w = (set_waiting l' w, Ok tt) /\
    filter (other_id w rider) l' =
      filter (other_id w rider) (_waiting_rider (dispatcher w)) /\
    (NoDup (waiting_ids w) ->
     l' = filter (other_id w rider) (_waiting_rider (dispatcher w))).
Proof.
  destruct (cancel_loop_ok (List.length (_waiting_rider (dispatcher w))) w rider
              O (_waiting_rider (dispatcher w))) as (l' & E & _).
  exists l'. unfold cancel_ride. unfold_monad. rewrite E.
  split; [reflexivity|].
  split; [eapply cancel_loop_keeps_others; eassumption|].
  intros Hnd. rewrite (cancel_loop_distinct w rider _ Hnd) in E. congruence.
Qed.

(** The tests of [cancel_ride] look at the ids only. *)
Lemma other_id_ext w1 w rider :
  (forall r, rider_id (riders w1 r) = rider_id (riders w r)) ->
  forall l, filter (other_id w1 rider) l = filter (other_id w rider) l.
Proof.
  intros Hid l. apply filter_ext. intros r. unfold other_id.
  rewrite !Hid. reflexivity.
Qed.

Lemma rider_id_set_status w rider s r :
  rider_id (upd (riders w) rider (set_status s (riders w rider)) r) =
  rider_id (riders w r).
Proof.
  unfold upd. destruct (Nat.eqb_spec r rider) as [->|]; reflexivity.
Qed.

(** X5.  [Cancellation.do] never raises and returns no event.  For a rider
    who is not waiting it leaves the world as it is.  For a waiting rider it
    sets the status to [CANCELLED], notifies the monitor once, with the
    rider's origin, and calls [cancel_ride]: no driver, no other rider and no
    queued rider of another id is touched, and with pairwise distinct ids
    in the queue the rider is out of the queue. *)
Theorem Cancellation_do_effect (t : Z) (rider : rref) (w : World) :
  let r := riders w rider in
  let w' := fst (Cancellation_do t rider w) in
  snd (Cancellation_do t rider w) = Ok [] /\
  (status r <> WAITING -> w' = w) /\
  (status r = WAITING ->
   riders w' rider = set_status CANCELLED r /\
   (forall x, x <> rider -> riders w' x = riders w x) /\
   monitor w' =
     monitor w ++ [mkNotification t RIDER CANCEL (rider_id r) (Some (origin r))] /\
   drivers w' = drivers w /\
   _drivers (dispatcher w') = _drivers (dispatcher w) /\
   filter (other_id w rider) (_waiting_rider (dispatcher w')) =
     filter (other_id w rider) (_waiting_rider (dispatcher w)) /\
   (NoDup (waiting_ids w) ->
    _waiting_rider (dispatcher w') =
      filter (other_id w rider) (_waiting_rider (dispatcher w)))).
Proof.
  intros r w'. subst r w'. unfold Cancellation_do. run_monad.
  destruct (status (riders w rider)) eqn:Es.
  - match goal with |- context [cancel_ride rider ?w1] =>
      pose proof (other_id_ext w1 w rider
                    (rider_id_set_status w rider CANCELLED)) as Hext;
      assert (Hids : waiting_ids w1 = waiting_ids w)
        by (apply map_ext; intros x; apply rider_id_set_status);
      destruct (cancel_ride_closed rider w1) as (l' & E & Hfilter & Hdistinct);
      rewrite E; clear E
    end.
    rewrite !Hext in Hfilter. rewrite Hids, Hext in Hdistinct. clear Hext Hids.
    simpl in *.
    split; [reflexivity|]. split; [intros H; contradiction|]. intros _.
    split; [unfold upd; rewrite Nat.eqb_refl; reflexivity|].
    split; [intros x Hx; unfold upd;
            destruct (Nat.eqb_spec x rider); [contradiction|reflexivity]|].
    split; [reflexivity|]. split; [reflexivity|]. split; [reflexivity|].
    split; [exact Hfilter|exact Hdistinct].
  - split; [reflexivity|]. split; [reflexivity|discriminate].
  - split; [reflexivity|]. split; [reflexivity|discriminate].
Qed.

(** X6.  [Dropoff.do] never raises and returns exactly one [DriverRequest]
    for the driver at the same timestamp.  The driver's location becomes its
    destination and it is idle without destination; the monitor is notified
    twice, for the rider with the rider's origin and for the driver with the
    location it arrived at; the rider objects and the registered drivers are
    untouched, and so are the queued riders of other ids. *)
Theorem Dropoff_do_effect (t : Z) (rider : rref) (driver : dref) (w : World) :
  let r := riders w rider in
  let d := drivers w driver in
  let w' := fst (Dropoff_do t rider driver w) in
  snd (Dropoff_do t rider driver w) = Ok [DriverRequest t driver] /\
  drivers w' driver =
    mkDriver (driver_id d) (destination d) (speed d) true None /\
  (forall u, u <> driver -> drivers w' u = drivers w u) /\
  riders w' = riders w /\
  monitor w' =
    monitor w ++ [mkNotification t RIDER DROPOFF (rider_id r) (Some (origin r));
                  mkNotification t DRIVER DROPOFF (driver_id d) (destination d)] /\
  _drivers (dispatcher w') = _drivers (dispatcher w) /\
  filter (other_id w rider) (_waiting_rider (dispatcher w')) =
    filter (other_id w rider) (_waiting_rider (dispatcher w)).
Proof.
  intros r d w'. subst r d w'. unfold Dropoff_do. run_monad.
  match goal with |- context [cancel_ride rider ?w1] =>
    destruct (cancel_ride_closed rider w1) as (l' & E & Hfilter & _);
    rewrite E; clear E
  end.
  simpl in *. unfold end_ride, upd. rewrite !Nat.eqb_refl. simpl.
  split; [reflexivity|]. split; [reflexivity|].
  split; [intros u Hu; destruct (Nat.eqb_spec u driver); [contradiction|reflexivity]|].
  split; [reflexivity|].
  split; [rewrite <- app_assoc; reflexivity|].
  split; [reflexivity|exact Hfilter].
Qed.

(** The travel time depends on the location and the speed only. *)
Lemma get_travel_time_ext (a b : Driver) (o : Location) :
  location a = location b -> speed a = speed b ->
  get_travel_time a o = get_travel_time b o.
Proof.
  intros Hl Hs. unfold get_travel_time. rewrite Hl, Hs. reflexivity.
Qed.

Lemma get_travel_time_bad (d : Driver) (o : Location) :
  driver_bad d -> get_travel_time d o = Raise (travel_time_error d).
Proof.
  unfold driver_bad, get_travel_time, travel_time_error, py_round_div.
  intros [H|H].
  - rewrite H. reflexivity.
  - destruct (location d); [|reflexivity]. rewrite H. reflexivity.
Qed.

(** X7.  [DriverRequest.do] notifies the monitor once and registers the
    driver unless its id is known.  On an empty waiting queue it returns no
    event and touches no driver.  Otherwise it takes the head of the queue
    and sends the driver to that rider's origin; it returns one [Pickup] for
    the two, later by the driver's travel time, when that time can be
    computed, and raises when it cannot (driver without location or with
    speed zero): the rider has then left the queue and the driver is busy,
    but no [Pickup] exists for them. *)
Theorem DriverRequest_do_effect (t : Z) (driver : dref) (w : World) :
  let d := drivers w driver in
  let w' := fst (DriverRequest_do t driver w) in
  monitor w' =
    monitor w ++ [mkNotification t DRIVER REQUEST (driver_id d) (location d)] /\
  _drivers (dispatcher w') = registered_after w driver /\
  riders w' = riders w /\
  match _waiting_rider (dispatcher w) with
  | [] =>
      snd (DriverRequest_do t driver w) = Ok [] /\
      drivers w' = drivers w /\
      _waiting_rider (dispatcher w') = []
  | rider :: rest =>
      let o := origin (riders w rider) in
      _waiting_rider (dispatcher w') = rest /\
      drivers w' driver = assign_to o d /\
      (forall u, u <> driver -> drivers w' u = drivers w u) /\
      snd (DriverRequest_do t driver w) =
        match get_travel_time d o with
        | Ok time => Ok [Pickup (t + time) rider driver]
        | Raise e => Raise e
        end /\
      (driver_bad d ->
       snd (DriverRequest_do t driver w) = Raise (travel_time_error d))
  end.
Proof.
  intros d w'. subst d w'. unfold DriverRequest_do. run_monad.
  rewrite request_rider_spec. cbn [dispatcher _waiting_rider].
  assert (Hreg : forall m,
            registered_after
              (mkWorld (drivers w) (riders w) (dispatcher w) m) driver =
            registered_after w driver) by reflexivity.
  destruct (_waiting_rider (dispatcher w)) as [|rider rest] eqn:Eq.
  - simpl. rewrite Hreg. repeat split; try reflexivity. exact Eq.
  - unfold start_drive. cbv beta iota zeta.
    match goal with |- context [get_travel_time ?x ?o] =>
      replace (get_travel_time x o)
        with (get_travel_time (drivers w driver) (origin (riders w rider)))
        by (apply get_travel_time_ext; simpl; unfold upd;
            rewrite Nat.eqb_refl; reflexivity)
    end.
    assert (Hbad : driver_bad (drivers w driver) ->
                   get_travel_time (drivers w driver) (origin (riders w rider)) =
                   Raise (travel_time_error (drivers w driver)))
      by apply get_travel_time_bad.
    destruct (get_travel_time (drivers w driver) (origin (riders w rider)))
      as [time|e]; simpl; rewrite Hreg; unfold upd; rewrite !Nat.eqb_refl;
      (split; [reflexivity|]); (split; [reflexivity|]); (split; [reflexivity|]);
      (split; [reflexivity|]); (split; [reflexivity|]);
      (split; [intros u Hu; destruct (Nat.eqb_spec u driver);
               [contradiction|reflexivity]|]);
      (split; [reflexivity|]); intros Hb; specialize (Hbad Hb); congruence.
Qed.

(* ================================================================= *)
(** ** The order of events *)

(** X8.  The six comparisons of [Event] form a total preorder by
    timestamp: [a > b] is [b < a], [a >= b] is [b <= a], [a <= b] is
    [a < b or a == b], exactly one of [a < b], [a == b], [a > b] holds,
    [<=] is total and transitive; and [==] holds of any two events with the
    same timestamp, whatever their classes, riders and drivers. *)
Theorem Event_comparisons (a b c : Event) :
  Event_gtb a b = Event_ltb b a /\
  Event_geb a b = Event_leb b a /\
  Event_leb a b = Event_ltb a b || Event_eqb a b /\
  ((Event_ltb a b = true /\ Event_eqb a b = false /\ Event_gtb a b = false) \/
   (Event_ltb a b = false /\ Event_eqb a b = true /\ Event_gtb a b = false) \/
   (Event_ltb a b = false /\ Event_eqb a b = false /\ Event_gtb a b = true)) /\
  (Event_leb a b = true \/ Event_leb b a = true) /\
  (Event_leb a b = true -> Event_leb b c = true -> Event_leb a c = true) /\
  (Event_eqb a b = true <-> timestamp a = timestamp b) /\
  Event_neb a b = negb (Event_eqb a b) /\
  (forall t r r' d d',
     Event_eqb (RiderRequest t r) (Dropoff t r' d) = true /\
     Event_eqb (Pickup t r d) (Pickup t r' d') = true).
Proof.
  unfold Event_gtb, Event_geb, Event_leb, Event_ltb, Event_eqb, Event_neb.
  set (x := timestamp a). set (y := timestamp b). set (z := timestamp c).
  split; [destruct (Z.leb_spec x y), (Z.ltb_spec y x); simpl; lia|].
  split; [destruct (Z.ltb_spec x y), (Z.leb_spec y x); simpl; lia|].
  split; [destruct (Z.leb_spec x y), (Z.ltb_spec x y), (Z.eqb_spec x y);
          simpl; lia|].
  split.
  { destruct (Z.ltb_spec x y), (Z.eqb_spec x y), (Z.leb_spec x y); simpl;
      try lia; tauto. }
  split; [destruct (Z.leb_spec x y), (Z.leb_spec y x); try lia; tauto|].
  split; [rewrite !Z.leb_le; lia|].
  split; [apply Z.eqb_eq|].
  split; [reflexivity|].
  intros t r r' d d'. simpl. rewrite Z.eqb_refl. split; reflexivity.
Qed.

(* ================================================================= *)
(** ** Locations and drives *)

(** X12.  [manhattan_distance] is a metric for [Location.__eq__]: it is
    zero exactly between locations that [__eq__] holds of, which are the
    locations with the same coordinates, and it satisfies the triangle
    inequality. *)
Theorem manhattan_distance_metric (a b c : Location) :
  (manhattan_distance a b = 0 <-> Location_eqb a b = true) /\
  (Location_eqb a b = true <-> a = b) /\
  Location_eqb a b = Location_eqb b a /\
  manhattan_distance a c <= manhattan_distance a b + manhattan_distance b c.
Proof.
  unfold manhattan_distance, Location_eqb.
  destruct a as [ra ca], b as [rb cb], c as [rc cc]. simpl.
  split; [rewrite andb_true_iff, !Z.eqb_eq; lia|].
  split.
  { rewrite andb_true_iff, !Z.eqb_eq. split.
    - intros [-> ->]. reflexivity.
    - intros [= -> ->]. split; reflexivity. }
  split; [rewrite (Z.eqb_sym rb ra), (Z.eqb_sym cb ca); reflexivity|lia].
Qed.

(** The quotient of zero is zero. *)
Lemma py_round_div_zero (d : Z) : d <> 0 -> py_round_div 0 d = Ok 0.
Proof.
  intros Hd. unfold py_round_div.
  destruct (Z.eqb_spec d 0); [contradiction|reflexivity].
Qed.

Lemma manhattan_distance_self (a : Location) : manhattan_distance a a = 0.
Proof. unfold manhattan_distance. lia. Qed.

(** X9.  Starting and ending compose to an arrival: [start_drive] returns
    the travel time from where the driver is, and [end_drive] after it
    leaves the driver idle at the place it drove to; [start_ride] returns
    the travel time from the rider's origin to the rider's destination,
    wherever the driver was, and [end_ride] after it leaves the driver idle
    at the rider's destination.  From there the travel time to that place is
    zero. *)
Theorem drive_and_arrive (self : Driver) (loc : Location) (passenger : Rider) :
  snd (start_drive self loc) = get_travel_time self loc /\
  end_drive (fst (start_drive self loc)) =
    mkDriver (driver_id self) (Some loc) (speed self) true None /\
  snd (start_ride self passenger) =
    py_round_div (manhattan_distance (origin passenger) (dest passenger))
                 (speed self) /\
  end_ride (fst (start_ride self passenger)) =
    mkDriver (driver_id self) (Some (dest passenger)) (speed self) true None /\
  (speed self <> 0 ->
   get_travel_time (end_drive (fst (start_drive self loc))) loc = Ok 0 /\
   get_travel_time (end_ride (fst (start_ride self passenger))) (dest passenger)
     = Ok 0).
Proof.
  split; [reflexivity|]. split; [reflexivity|].
  split; [reflexivity|]. split; [reflexivity|].
  intros Hs. unfold get_travel_time. simpl.
  rewrite !manhattan_distance_self, py_round_div_zero by assumption.
  split; reflexivity.
Qed.

(** X10.  [end_drive] and [end_ride] on a driver without destination leave
    it without location: [get_travel_time] and [start_drive] then raise
    [AttributeError], [start_drive] having marked the driver busy before it
    raises, while [start_ride] gives it a location again.  In particular
    two arrivals in a row always lose the location. *)
Theorem end_drive_without_destination (self other : Driver)
    (Hnone : destination self = None) :
  location (end_drive self) = None /\
  location (end_ride self) = None /\
  (forall o, get_travel_time (end_drive self) o = Raise AttributeError) /\
  (forall loc,
     snd (start_drive (end_drive self) loc) = Raise AttributeError /\
     is_idle (fst (start_drive (end_drive self) loc)) = false /\
     destination (fst (start_drive (end_drive self) loc)) = Some loc) /\
  (forall passenger,
     location (fst (start_ride (end_drive self) passenger))
       = Some (origin passenger)) /\
  location (end_drive (end_drive other)) = None /\
  location (end_ride (end_drive other)) = None.
Proof.
  unfold end_drive, end_ride, start_drive, start_ride, get_travel_time. simpl.
  rewrite Hnone. repeat split.
Qed.

Lemma end_drive_without_destination_witness :
  destination D0 = None /\
  forall o, get_travel_time (end_drive D0) o = Raise AttributeError.
Proof.
  split; [reflexivity|].
  exact (proj1 (proj2 (proj2 (end_drive_without_destination D0 D0 eq_refl)))).
Defined.

Lemma round_half_even_monotone (n1 n2 d : Z) :
  0 < d -> n1 <= n2 -> round_half_even n1 d <= round_half_even n2 d.
Proof.
  intros Hd Hn.
  pose proof (round_half_even_sound n1 d Hd) as Hx.
  pose proof (round_half_even_sound n2 d Hd) as Hy.
  set (x := round_half_even n1 d) in *. set (y := round_half_even n2 d) in *.
  destruct (Z_le_gt_dec x y) as [|Hgt]; [assumption|exfalso].
  assert (Hxy : x = y + 1) by (destruct Hx as [?|[? _]], Hy as [?|[? _]]; nia).
  destruct Hx as [?|[Hx Ex]], Hy as [?|[Hy Ey]]; try nia.
  apply Z.even_spec in Ex, Ey. destruct Ex as [i Ei], Ey as [j Ej]. lia.
Qed.

Lemma round_half_even_zero_iff (n d : Z) :
  0 <= n -> 0 < d -> (round_half_even n d = 0 <-> 2 * n <= d).
Proof.
  intros Hn Hd. split.
  - intros E. pose proof (round_half_even_nearest n d Hd) as H.
    rewrite E in H. lia.
  - intros H. symmetry. apply round_half_even_unique; [assumption|].
    destruct (Z.eq_dec (2 * n) d); [right; split; [lia|reflexivity]|left; lia].
Qed.

(** X11.  For a driver of positive speed and distances below [2^52], the
    travel time does not decrease with the distance, and it is zero exactly
    for the places whose distance is at most half the speed. *)
Theorem travel_time_monotone (self : Driver) (here a b : Location)
    (Hloc : location self = Some here) (Hspeed : 0 < speed self)
    (Hfar : manhattan_distance here a <= manhattan_distance here b)
    (Hsmall : manhattan_distance here b < 2 ^ 52) :
  exists ta tb,
    get_travel_time self a = Ok ta /\
    get_travel_time self b = Ok tb /\
    ta <= tb /\
    (ta = 0 <-> 2 * manhattan_distance here a <= speed self).
Proof.
  exists (round_half_even (manhattan_distance here a) (speed self)),
         (round_half_even (manhattan_distance here b) (speed self)).
  split; [apply get_travel_time_ok; [assumption|assumption|lia]|].
  split; [apply get_travel_time_ok; assumption|].
  split; [apply round_half_even_monotone; assumption|].
  apply round_half_even_zero_iff; [apply manhattan_distance_nonneg|assumption].
Qed.

Lemma travel_time_monotone_witness :
  location D0 = Some (mkLocation 3 5) /\ 0 < speed D0 /\
  manhattan_distance (mkLocation 3 5) (mkLocation 3 6)
    <= manhattan_distance (mkLocation 3 5) (mkLocation 7 7) /\
  manhattan_distance (mkLocation 3 5) (mkLocation 7 7) < 2 ^ 52 /\
  exists ta tb,
    get_travel_time D0 (mkLocation 3 6) = Ok ta /\
    get_travel_time D0 (mkLocation 7 7) = Ok tb /\ ta <= tb.
Proof.
  assert (Hs : 0 < speed D0) by (simpl; lia).
  assert (Hf : manhattan_distance (mkLocation 3 5) (mkLocation 3 6)
               <= manhattan_distance (mkLocation 3 5) (mkLocation 7 7))
    by (vm_compute; discriminate).
  assert (Hb : manhattan_distance (mkLocation 3 5) (mkLocation 7 7) < 2 ^ 52)
    by reflexivity.
  split; [reflexivity|]. split; [exact Hs|]. split; [exact Hf|].
  split; [exact Hb|].
  destruct (travel_time_monotone D0 (mkLocation 3 5) (mkLocation 3 6)
              (mkLocation 7 7) eq_refl Hs Hf Hb)
    as (ta & tb & Ha & Hb' & Hle & _).
  exists ta, tb. repeat split; assumption.
Defined.

(* ================================================================= *)
(** ** A registered driver for which [get_travel_time] raises *)

Lemma scan_drivers_first_bad store o l1 d l2 e :
  (forall u, In u l1 -> driver_ok (store u) o) ->
  get_travel_time (store d) o = Raise e ->
  forall temp,
    match temp with Some t => driver_ok (store t) o | None => True end ->
    scan_drivers store o (l1 ++ d :: l2) temp = Raise e.
Proof.
  intros Hok Hbad. induction l1 as [|u l1 IH]; intros temp Htemp.
  - simpl. rewrite Hbad. reflexivity.
  - assert (Hu : driver_ok (store u) o) by (apply Hok; left; reflexivity).
    assert (Hrest : forall v, In v l1 -> driver_ok (store v) o)
      by (intros v Hv; apply Hok; right; assumption).
    simpl. rewrite (time_to_ok store o u Hu).
    destruct (is_idle (store u)).
    + assert (Hbest : driver_ok
                        (store match temp with None => u | Some t => t end) o)
        by (destruct temp; assumption).
      rewrite (time_to_ok store o _ Hbest). apply IH; [assumption|].
      destruct (_ <? _); assumption.
    + apply IH; assumption.
Qed.

(** The exceptions of [get_travel_time], by their causes. *)
Lemma get_travel_time_raises (d : Driver) (o : Location) (e : exn) :
  get_travel_time d o = Raise e ->
  e = match location d with
      | None => AttributeError
      | Some _ => if speed d =? 0 then ZeroDivisionError else OverflowError
      end.
Proof.
  unfold get_travel_time, py_round_div.
  destruct (location d) as [here|]; [|congruence].
  destruct (speed d =? 0); [congruence|].
  destruct (_ =? 0); [discriminate|].
  destruct (quotient_overflows _ _); [congruence|discriminate].
Qed.

(** X13.  [request_driver] asks every registered driver for its travel
    time, the busy ones too.  So when [get_travel_time] raises for a
    registered driver, it raises with the exception of the first such
    driver and without any change, even when an idle driver for which
    [get_travel_time] returns is registered; [RiderRequest.do] then raises
    after its one notification, and the rider is neither queued nor served.
    The exception is [AttributeError] for a driver without location,
    [ZeroDivisionError] for a speed of 0, and [OverflowError] otherwise. *)
Theorem request_driver_raises_at_first_bad
    (t : Z) (rider : rref) (w : World) (l1 : list dref) (d : dref)
    (l2 : list dref) (e : exn)
    (Hsplit : _drivers (dispatcher w) = l1 ++ d :: l2)
    (Hok : forall u, In u l1 ->
                     driver_ok (drivers w u) (origin (riders w rider)))
    (Hbad : get_travel_time (drivers w d) (origin (riders w rider)) = Raise e) :
  request_driver rider w = (w, Raise e) /\
  RiderRequest_do t rider w =
    (mkWorld (drivers w) (riders w) (dispatcher w)
       (monitor w ++ [mkNotification t RIDER REQUEST (rider_id (riders w rider))
                        (Some (origin (riders w rider)))]),
     Raise e) /\
  e = match location (drivers w d) with
      | None => AttributeError
      | Some _ =>
          if speed (drivers w d) =? 0 then ZeroDivisionError else OverflowError
      end.
Proof.
  assert (Hscan :
            scan_drivers (drivers w) (origin (riders w rider))
                         (_drivers (dispatcher w)) None = Raise e).
  { rewrite Hsplit.
    apply scan_drivers_first_bad; [assumption|assumption|exact I]. }
  split; [|split].
  - unfold request_driver. unfold_monad. rewrite Hscan.
    destruct (_drivers (dispatcher w)) eqn:El; [|reflexivity].
    destruct l1; discriminate.
  - unfold RiderRequest_do, request_driver. run_monad.
    cbn [dispatcher drivers riders]. rewrite Hscan.
    destruct (_drivers (dispatcher w)) eqn:El; [|reflexivity].
    destruct l1; discriminate.
  - exact (get_travel_time_raises _ _ _ Hbad).
Qed.

Lemma request_driver_raises_at_first_bad_witness :
  is_idle (drivers world_stranded 0%nat) = true /\
  request_driver 0%nat world_stranded = (world_stranded, Raise AttributeError).
Proof.
  split; [reflexivity|].
  refine (proj1 (request_driver_raises_at_first_bad 0 0%nat world_stranded
                   [0%nat] 1%nat [] AttributeError eq_refl _ eq_refl)).
  intros u [<-|[]]. exists (mkLocation 3 5). repeat split. discriminate.
Defined.

(* ================================================================= *)
(** ** What the events never change *)

Lemma world_grows_refl w : world_grows w w.
Proof.
  repeat split; try (exists []; rewrite app_nil_r; reflexivity).
Qed.

Lemma world_grows_trans w1 w2 w3 :
  world_grows w1 w2 -> world_grows w2 w3 -> world_grows w1 w3.
Proof.
  intros (Hd & Hr & [l El] & [m Em]) (Hd' & Hr' & [l' El'] & [m' Em']).
  unfold world_grows, same_driver_attributes, same_rider_attributes in *.
  split; [|split; [|split]].
  - intros u. destruct (Hd u), (Hd' u). split; congruence.
  - intros r. destruct (Hr r) as (? & ? & ? & ?), (Hr' r) as (? & ? & ? & ?).
    repeat split; congruence.
  - exists (l ++ l'). rewrite El', El, app_assoc. reflexivity.
  - exists (m ++ m'). rewrite Em', Em, app_assoc. reflexivity.
Qed.

Ltac same_attributes :=
  unfold same_driver_attributes, same_rider_attributes, upd;
  intros;
  repeat match goal with
  | |- context [Nat.eqb ?a ?b] => destruct (Nat.eqb_spec a b); subst
  end;
  simpl; unfold upd; rewrite ?Nat.eqb_refl; simpl; repeat split; reflexivity.

Ltac only_appended :=
  simpl; unfold registered_after;
  repeat match goal with
  | |- context [id_known ?w ?d] => destruct (id_known w d)
  end;
  simpl; rewrite <- ?app_assoc;
  first [ eexists; reflexivity
        | exists []; rewrite app_nil_r; reflexivity ].

Ltac world_grows_tac :=
  unfold world_grows; simpl;
  split; [same_attributes|];
  split; [same_attributes|];
  split; only_appended.

Lemma Event_do_grows e w : world_grows w (fst (Event_do e w)).
Proof.
  destruct e as [t rider|t driver|t rider|t rider driver|t rider driver]; simpl.
  - unfold RiderRequest_do. run_monad. dispatcher_calls;
      unfold start_drive; break_matches; world_grows_tac.
  - unfold DriverRequest_do. run_monad. dispatcher_calls.
    cbn [dispatcher _waiting_rider].
    destruct (_waiting_rider (dispatcher w)) as [|r0 rest];
      unfold start_drive; break_matches; world_grows_tac.
  - unfold Cancellation_do. run_monad.
    destruct (status (riders w rider)) eqn:Es; try apply world_grows_refl.
    dispatcher_calls. world_grows_tac.
  - unfold Pickup_do. run_monad.
    destruct (status (riders w rider)) eqn:Es; try apply world_grows_refl;
      unfold start_ride, end_drive; break_matches; world_grows_tac.
  - unfold Dropoff_do. run_monad. dispatcher_calls. world_grows_tac.
Qed.

Lemma world_after_grows es : forall w, world_grows w (world_after es w).
Proof.
  induction es as [|e es IH]; intros w; [apply world_grows_refl|].
  apply (world_grows_trans _ (fst (Event_do e w))); [apply Event_do_grows|].
  apply IH.
Qed.

(** X14.  No event assigns a driver's id or speed, or a rider's id,
    patience, origin or destination: after any sequence of events every
    object still has the ones it started with.  The registered drivers and
    the monitor's log are only appended to. *)
Theorem attributes_never_change (es : list Event) (w : World) :
  let w' := world_after es w in
  (forall u, driver_id (drivers w' u) = driver_id (drivers w u) /\
             speed (drivers w' u) = speed (drivers w u)) /\
  (forall r, rider_id (riders w' r) = rider_id (riders w r) /\
             patience (riders w' r) = patience (riders w r) /\
             origin (riders w' r) = origin (riders w r) /\
             dest (riders w' r) = dest (riders w r)) /\
  (exists more,
     _drivers (dispatcher w') = _drivers (dispatcher w) ++ more) /\
  (exists more, monitor w' = monitor w ++ more).
Proof.
  exact (world_after_grows es w).
Qed.

Lemma Event_do_drivers_inv e w :
  drivers_inv w -> drivers_inv (fst (Event_do e w)).
Proof.
  intros Hw.
  assert (Hupd : forall w1 d v,
            drivers w1 = drivers w -> driver_inv v ->
            forall u, driver_inv (upd (drivers w1) d v u)).
  { intros w1 d v E Hv u. unfold upd. rewrite E.
    destruct (Nat.eqb u d); [assumption|apply Hw]. }
  destruct e as [t rider|t driver|t rider|t rider driver|t rider driver]; simpl.
  - unfold RiderRequest_do. run_monad. dispatcher_calls;
      unfold start_drive; break_matches; intros u; simpl; try apply Hw;
      unfold upd; repeat destruct (Nat.eqb _ _);
      try apply Hw; apply driver_inv_busy.
  - unfold DriverRequest_do. run_monad. dispatcher_calls.
    cbn [dispatcher _waiting_rider].
    destruct (_waiting_rider (dispatcher w)) as [|r0 rest];
      unfold start_drive; break_matches; intros u; simpl; try apply Hw;
      unfold upd; repeat destruct (Nat.eqb _ _);
      try apply Hw; apply driver_inv_busy.
  - unfold Cancellation_do. run_monad.
    destruct (status (riders w rider)) eqn:Es; try exact Hw.
    dispatcher_calls. exact Hw.
  - unfold Pickup_do. run_monad.
    destruct (status (riders w rider)) eqn:Es; try exact Hw;
      unfold start_ride, end_drive; break_matches; intros u; simpl;
      unfold upd; repeat destruct (Nat.eqb _ _);
      try apply Hw; auto with drivers.
  - unfold Dropoff_do. run_monad. dispatcher_calls. intros u. simpl.
    unfold upd, end_ride. destruct (Nat.eqb _ _); [|apply Hw].
    apply driver_inv_free.
Qed.

(** Only [DriverRequest.do] touches the list of registered drivers. *)
Lemma Event_do_registered e w :
  _drivers (dispatcher (fst (Event_do e w))) =
  match e with
  | DriverRequest _ driver => registered_after w driver
  | _ => _drivers (dispatcher w)
  end.
Proof.
  destruct e as [t rider|t driver|t rider|t rider driver|t rider driver]; simpl.
  - unfold RiderRequest_do. run_monad. dispatcher_calls;
      unfold start_drive; break_matches; reflexivity.
  - unfold DriverRequest_do. run_monad. dispatcher_calls.
    cbn [dispatcher _waiting_rider].
    destruct (_waiting_rider (dispatcher w)) as [|r0 rest];
      unfold start_drive; break_matches; reflexivity.
  - unfold Cancellation_do. run_monad.
    destruct (status (riders w rider)) eqn:Es; try reflexivity.
    dispatcher_calls. reflexivity.
  - unfold Pickup_do. run_monad.
    destruct (status (riders w rider)) eqn:Es; try reflexivity;
      unfold start_ride, end_drive; break_matches; reflexivity.
  - unfold Dropoff_do. run_monad. dispatcher_calls. reflexivity.
Qed.

Lemma id_unknown_not_in w driver :
  id_known w driver = false ->
  ~ In (driver_id (drivers w driver)) (registered_ids w).
Proof.
  unfold id_known, registered_ids. intros Hk Hin.
  apply in_map_iff in Hin. destruct Hin as (u & Eu & Hu).
  assert (H : existsb (fun u => String.eqb (driver_id (drivers w driver))
                                           (driver_id (drivers w u)))
                      (_drivers (dispatcher w)) = true).
  { apply existsb_exists. exists u. split; [assumption|].
    rewrite Eu. apply String.eqb_refl. }
  congruence.
Qed.

Lemma Event_do_distinct_ids e w :
  NoDup (registered_ids w) -> NoDup (registered_ids (fst (Event_do e w))).
Proof.
  intros Hnd. unfold registered_ids in *.
  destruct (Event_do_grows e w) as (Hd & _).
  rewrite (map_ext _ (fun d => driver_id (drivers w d)))
    by (intros u; apply (Hd u)).
  rewrite Event_do_registered.
  destruct e as [t rider|t driver|t rider|t rider driver|t rider driver];
    try assumption.
  unfold registered_after. destruct (id_known w driver) eqn:Hk; [assumption|].
  rewrite map_app. simpl.
  apply NoDup_app; [assumption|repeat constructor; intros []|].
  intros x Hx [<-|[]]. exact (id_unknown_not_in w driver Hk Hx).
Qed.

(** X15.  Along any sequence of events, a driver object is idle exactly when
    it has no destination, and no two registered drivers have the same id
    (nor is a driver registered twice), provided this holds at the start, as
    it does for new drivers and a new dispatcher. *)
Theorem events_keep_invariants (es : list Event) (w : World)
    (Hinv : drivers_inv w) (Hdistinct : NoDup (registered_ids w)) :
  drivers_inv (world_after es w) /\
  NoDup (registered_ids (world_after es w)) /\
  NoDup (_drivers (dispatcher (world_after es w))).
Proof.
  assert (H : drivers_inv (world_after es w) /\
              NoDup (registered_ids (world_after es w))).
  { revert w Hinv Hdistinct. induction es as [|e es IH]; intros w Hinv Hnd.
    - split; assumption.
    - apply IH; [apply Event_do_drivers_inv|apply Event_do_distinct_ids];
        assumption. }
  destruct H as [H1 H2]. split; [assumption|]. split; [assumption|].
  exact (NoDup_map_inv _ _ H2).
Qed.

Lemma events_keep_invariants_witness :
  drivers_inv world0 /\ NoDup (registered_ids world0) /\
  drivers_inv
    (world_after [DriverRequest 0 1%nat; RiderRequest 0 0%nat;
                  Pickup 2 0%nat 0%nat] world0).
Proof.
  assert (Hnd : NoDup (registered_ids world0))
    by (repeat constructor; intros []).
  split; [exact drivers_inv_world0|]. split; [exact Hnd|].
  exact (proj1 (events_keep_invariants
                  [DriverRequest 0 1%nat; RiderRequest 0 0%nat;
                   Pickup 2 0%nat 0%nat] world0 drivers_inv_world0 Hnd)).
Defined.

(* ================================================================= *)
(** ** The order of the events in time *)

Lemma get_travel_time_nonneg (d : Driver) (o : Location) (time : Z) :
  0 < speed d -> get_travel_time d o = Ok time -> 0 <= time.
Proof.
  unfold get_travel_time. intros Hs H.
  destruct (location d) as [here|]; [|discriminate].
  exact (py_round_div_nonneg _ _ _ (manhattan_distance_nonneg _ _) Hs H).
Qed.

Ltac later_events :=
  simpl;
  match goal with
  | |- Raise _ = Ok _ -> _ => discriminate
  | |- Ok _ = Ok _ -> _ =>
      let H := fresh in
      intros H; injection H as <-; intros x Hx; simpl in Hx;
      repeat match goal with
      | Hx : _ \/ _ |- _ => destruct Hx as [<-|Hx]
      | Hx : False |- _ => destruct Hx
      end; simpl; try lia
  end.

Ltac travel_time_nonneg Hspeed :=
  match goal with
  | H : get_travel_time _ _ = Ok ?a |- _ =>
      apply get_travel_time_nonneg in H;
      [lia|simpl; unfold upd; rewrite ?Nat.eqb_refl; simpl; apply Hspeed]
  end.

Lemma Event_do_later e w possible :
  positive_speeds w -> patient_riders w ->
  snd (Event_do e w) = Ok possible ->
  forall x, In x possible -> timestamp e <= timestamp x.
Proof.
  intros Hspeed Hpatience.
  destruct e as [t rider|t driver|t rider|t rider driver|t rider driver];
    simpl.
  - pose proof (Hpatience rider) as Hp.
    unfold RiderRequest_do. run_monad. dispatcher_calls;
      unfold start_drive; break_matches; later_events.
    travel_time_nonneg Hspeed.
  - unfold DriverRequest_do. run_monad. dispatcher_calls.
    cbn [dispatcher _waiting_rider].
    destruct (_waiting_rider (dispatcher w)) as [|r0 rest];
      unfold start_drive; break_matches; later_events.
    travel_time_nonneg Hspeed.
  - unfold Cancellation_do. run_monad.
    destruct (status (riders w rider)) eqn:Es; try later_events.
    dispatcher_calls. later_events.
  - unfold Pickup_do. run_monad.
    destruct (status (riders w rider)) eqn:Es;
      unfold start_ride, end_drive; break_matches; later_events.
    travel_time_nonneg Hspeed.
  - unfold Dropoff_do. run_monad. dispatcher_calls. later_events.
Qed.

(** X16.  With positive speeds and patience that is not negative, the
    events an event returns are never earlier than the event itself: a
    [Pickup] or [Dropoff] is later by a travel time, a [Cancellation] by the
    rider's patience, and the [DriverRequest] after a [Dropoff] or a missed
    [Pickup] has the same timestamp. *)
Theorem follow_up_events_not_earlier (e : Event) (w : World)
    (possible : list Event)
    (Hspeed : positive_speeds w) (Hpatience : patient_riders w)
    (Hdo : snd (Event_do e w) = Ok possible) :
  forall x, In x possible -> timestamp e <= timestamp x.
Proof.
  exact (Event_do_later e w possible Hspeed Hpatience Hdo).
Qed.

Lemma positive_speeds_world0 : positive_speeds world0.
Proof. intros u. simpl. lia. Qed.

Lemma patient_riders_world0 : patient_riders world0.
Proof. intros r. simpl. lia. Qed.

Lemma follow_up_events_not_earlier_witness :
  positive_speeds world0 /\ patient_riders world0 /\
  snd (Event_do (RiderRequest 0 0%nat) world0)
    = Ok [Pickup 2 0%nat 0%nat; Cancellation 10 0%nat] /\
  forall x, In x [Pickup 2 0%nat 0%nat; Cancellation 10 0%nat] ->
            0 <= timestamp x.
Proof.
  split; [exact positive_speeds_world0|].
  split; [exact patient_riders_world0|].
  split; [reflexivity|].
  exact (follow_up_events_not_earlier (RiderRequest 0 0%nat) world0
           [Pickup 2 0%nat 0%nat; Cancellation 10 0%nat]
           positive_speeds_world0 patient_riders_world0 eq_refl).
Defined.

Lemma positive_speeds_grows w w' :
  world_grows w w' -> positive_speeds w -> positive_speeds w'.
Proof.
  intros (Hd & _) H u. destruct (Hd u) as [_ Hs]. rewrite Hs. apply H.
Qed.

Lemma patient_riders_grows w w' :
  world_grows w w' -> patient_riders w -> patient_riders w'.
Proof.
  intros (_ & Hr & _) H r. destruct (Hr r) as (_ & Hp & _). rewrite Hp. apply H.
Qed.

Lemma latest_first_cons e done :
  not_before done e -> latest_first done -> latest_first (e :: done).
Proof.
  intros Hnb Hlf. destruct done as [|a done]; [exact I|].
  split; assumption.
Qed.

Section TimeOrder.

Context {Q : Type} `{Laws : PriorityQueueLaws Q}.
Hypothesis Hleast : removes_least Q.

Lemma pending_fold_add (l : list Event) :
  forall (q : Q) x,
    In x (pq_items (fold_left pq_add l q)) -> In x (pq_items q) \/ In x l.
Proof.
  induction l as [|e l IH]; intros q x Hx; simpl in Hx; [left; assumption|].
  destruct (IH _ _ Hx) as [Hin|Hin]; [|right; right; assumption].
  apply (Permutation_in _ (pq_items_add q e)) in Hin.
  destruct Hin as [<-|Hin]; [right; left; reflexivity|left; assumption].
Qed.

(** The loop executes the events in the order of their timestamps, and the
    world it ends in is the one the executed events lead to. *)
Lemma run_loop_in_time_order (fuel : nat) :
  forall (s s' : Run Q) r,
    run_loop fuel s = Some (s', r) ->
    positive_speeds (run_world s) -> patient_riders (run_world s) ->
    latest_first (run_done s) ->
    (forall x, In x (pq_items (run_events s)) -> not_before (run_done s) x) ->
    latest_first (run_done s') /\
    exists executed,
      run_done s' = rev executed ++ run_done s /\
      run_world s' = world_after executed (run_world s).
Proof.
  induction fuel as [|fuel IH]; intros s s' r Hrun Hspeed Hpatience Hdone Hpend;
    [discriminate|].
  simpl in Hrun. destruct (pq_is_empty (run_events s)) eqn:Eempty.
  { injection Hrun as <- <-. split; [assumption|]. exists []. split; reflexivity. }
  destruct (pq_remove_items _ Eempty) as (event & q & Erem & Hperm).
  rewrite Erem in Hrun.
  assert (Hevent : In event (pq_items (run_events s)))
    by (apply (Permutation_in _ (Permutation_sym Hperm)); left; reflexivity).
  assert (Hq : forall x, In x (pq_items q) -> timestamp event <= timestamp x).
  { intros x Hx. apply (Hleast _ _ _ Erem).
    apply (Permutation_in _ (Permutation_sym Hperm)). right. assumption. }
  assert (Hdone' : latest_first (event :: run_done s))
    by (apply latest_first_cons; [apply Hpend|]; assumption).
  pose proof (Event_do_later event (run_world s)) as Hlater.
  pose proof (Event_do_grows event (run_world s)) as Hgrows.
  assert (Hstep : forall executed,
            world_after (event :: executed) (run_world s)
              = world_after executed (fst (Event_do event (run_world s))))
    by reflexivity.
  destruct (Event_do event (run_world s)) as [w' res] eqn:Edo.
  cbn [fst snd] in Hlater, Hgrows, Hstep.
  destruct res as [possible|e].
  - destruct (IH _ _ _ Hrun) as (Hlf & executed & Edone & Eworld); simpl.
    + eapply positive_speeds_grows; eassumption.
    + eapply patient_riders_grows; eassumption.
    + assumption.
    + intros x Hx. destruct (pending_fold_add _ _ _ Hx) as [Hin|Hin].
      * apply Hq. assumption.
      * apply (Hlater possible Hspeed Hpatience eq_refl). assumption.
    + split; [assumption|]. exists (event :: executed). simpl in *.
      split.
      * rewrite Edone, <- app_assoc. reflexivity.
      * rewrite Eworld. symmetry. apply Hstep.
  - injection Hrun as <- <-. simpl. split; [assumption|].
    exists [event]. split; [reflexivity|]. symmetry. apply (Hstep []).
Qed.

End TimeOrder.

(** X17.  With positive speeds and patience that is not negative, on a
    collection of pending events that holds what was added and hands out an
    event of least timestamp, [Simulation.run] stops and has executed its
    events in the order of their timestamps: simulated time never steps
    back.  The world it ends in is the one these events lead to, one after
    the other. *)
Theorem Simulation_run_in_time_order
    {Q : Type} `{Laws : PriorityQueueLaws Q} (Hleast : removes_least Q)
    {Report : Type} (report : list Notification -> Report)
    (ds : dref -> Driver) (rs : rref -> Rider) (initial_events : list Event)
    (Hspeed : forall u, 0 < speed (ds u))
    (Hpatience : forall r, 0 <= patience (rs r)) :
  exists s' r,
    (forall fuel, (5 * List.length initial_events < fuel)%nat ->
       Simulation_run report fuel (Simulation_init ds rs) initial_events
         = Some (s', r)) /\
    latest_first (run_done s') /\
    run_world s' =
      world_after (rev (run_done s')) (mkWorld ds rs Dispatcher_init []).
Proof.
  set (s0 := Simulation_init (Q := Q) ds rs).
  set (s1 := mkRun (run_world s0)
                   (fold_left pq_add initial_events (run_events s0))
                   (run_done s0)).
  assert (Hpot : (potential s1 <= 5 * List.length initial_events)%nat).
  { unfold potential, s1. simpl. rewrite weights_fold_add, pq_items_init.
    simpl. pose proof (weights_bound initial_events). lia. }
  destruct (run_loop_stops (S (5 * List.length initial_events)) s1)
    as (s' & r & Erun & _); [lia|].
  destruct (run_loop_in_time_order Hleast _ _ _ _ Erun)
    as (Hlf & executed & Edone & Eworld);
    try solve [exact Hspeed | exact Hpatience | exact I | intros x _; exact I].
  exists s', (match r with
              | Ok _ => Ok (report (monitor (run_world s')))
              | Raise e => Raise e
              end).
  split; [|split].
  - intros fuel Hfuel. unfold Simulation_run. fold s0. fold s1.
    rewrite (run_loop_more_fuel _ _ _ Erun fuel) by lia.
    destruct r; reflexivity.
  - assumption.
  - rewrite Eworld, Edone. simpl. rewrite app_nil_r, rev_involutive.
    reflexivity.
Qed.

Lemma Simulation_run_in_time_order_witness :
  exists s' r,
    Simulation_run (Q := list Event) (fun log => List.length log) 26
      (Simulation_init (fun _ => D) three_riders) shared_driver_events
    = Some (s', r) /\
    latest_first (run_done s').
Proof.
  assert (Hs : forall u : dref, 0 < speed ((fun _ => D) u))
    by (intros u; simpl; lia).
  assert (Hp : forall r, 0 <= patience (three_riders r))
    by (intros [|[|r]]; simpl; lia).
  destruct (Simulation_run_in_time_order (Q := list Event)
              ArrivalQueue_removes_least (fun log => List.length log)
              (fun _ => D) three_riders shared_driver_events Hs Hp)
    as (s' & r & Hrun & Hlf & _).
  exists s', r. split; [apply Hrun; simpl; lia|exact Hlf].
Defined.

(* ================================================================= *)
(** ** The waiting queue is first come, first served *)

Lemma request_drivers_unregistered (rl : list rref) :
  forall w,
    _drivers (dispatcher w) = [] ->
    request_drivers rl w = set_waiting (_waiting_rider (dispatcher w) ++ rl) w.
Proof.
  induction rl as [|r rl IH]; intros w Hnone.
  - rewrite app_nil_r. symmetry. apply set_waiting_same.
  - unfold request_drivers. simpl.
    assert (E : request_driver r w =
                (set_waiting (_waiting_rider (dispatcher w) ++ [r]) w, Ok None)).
    { unfold request_driver. unfold_monad. rewrite Hnone. reflexivity. }
    rewrite E. cbn [fst]. fold (request_drivers rl).
    rewrite IH by exact Hnone. simpl. rewrite <- app_assoc. reflexivity.
Qed.

Lemma request_riders_heads (dl : list dref) :
  forall w,
    let queue := _waiting_rider (dispatcher w) in
    fst (request_riders dl w) =
      map (fun i => Ok (nth_error queue i)) (seq 0 (List.length dl)) /\
    _waiting_rider (dispatcher (snd (request_riders dl w))) =
      skipn (List.length dl) queue.
Proof.
  induction dl as [|d dl IH]; intros w queue; [split; reflexivity|].
  simpl. pose proof (request_rider_spec d w) as E.
  destruct (request_rider d w) as [w' answer].
  specialize (IH w'). destruct (request_riders dl w') as [answers w''].
  cbn [fst snd] in *. destruct IH as [IHa IHq].
  assert (Hw' : _waiting_rider (dispatcher w') = tl queue /\
                answer = Ok (nth_error queue 0)).
  { subst queue. destruct (_waiting_rider (dispatcher w)) as [|r rest] eqn:Eq;
      injection E as -> ->; simpl; rewrite ?Eq; split; reflexivity. }
  destruct Hw' as [Hq ->]. rewrite Hq in IHa, IHq. split.
  - f_equal. rewrite IHa, <- seq_shift, map_map. apply map_ext.
    intros i. destruct queue; [destruct i|]; reflexivity.
  - rewrite IHq. destruct queue; [apply skipn_nil|reflexivity].
Qed.

(** X18.  While no driver is registered every [request_driver] appends its
    rider to the waiting queue and changes nothing else; the calls of
    [request_rider] that follow hand the queued riders out from the front,
    one per call, in the order in which they came, and answer [None] once the
    queue is used up. *)
Theorem waiting_queue_first_come_first_served
    (rl : list rref) (dl : list dref) (w : World)
    (Hnone : _drivers (dispatcher w) = []) :
  let w1 := request_drivers rl w in
  let queue := _waiting_rider (dispatcher w) ++ rl in
  w1 = set_waiting queue w /\
  fst (request_riders dl w1) =
    map (fun i => Ok (nth_error queue i)) (seq 0 (List.length dl)) /\
  _waiting_rider (dispatcher (snd (request_riders dl w1))) =
    skipn (List.length dl) queue.
Proof.
  intros w1 queue. subst w1 queue.
  rewrite (request_drivers_unregistered rl w Hnone).
  split; [reflexivity|]. apply request_riders_heads.
Qed.

Lemma waiting_queue_first_come_first_served_witness :
  _drivers (dispatcher (world_queue [0%nat])) = [] /\
  fst (request_riders [0%nat; 1%nat; 0%nat]
         (request_drivers [3%nat; 1%nat] (world_queue [0%nat])))
    = [Ok (Some 0%nat); Ok (Some 3%nat); Ok (Some 1%nat)].
Proof.
  split; [reflexivity|].
  exact (proj1 (proj2 (waiting_queue_first_come_first_served
                         [3%nat; 1%nat] [0%nat; 1%nat; 0%nat]
                         (world_queue [0%nat]) eq_refl))).
Defined.

(* ================================================================= *)
(** ** One rider, from request to drop-off *)

Lemma upd_same {A} (store : nat -> A) r v : upd store r v r = v.
Proof. unfold upd. rewrite Nat.eqb_refl. reflexivity. Qed.

Lemma upd_other {A} (store : nat -> A) r v u :
  u <> r -> upd store r v u = store u.
Proof.
  intros Hu. unfold upd. destruct (Nat.eqb_spec u r); [contradiction|reflexivity].
Qed.

Lemma request_driver_single (rider : rref) (driver : dref) (w : World)
    (t1 : Z) :
  _drivers (dispatcher w) = [driver] ->
  is_idle (drivers w driver) = true ->
  get_travel_time (drivers w driver) (origin (riders w rider)) = Ok t1 ->
  request_driver rider w =
    (set_driver driver
       (assign_to (origin (riders w rider)) (drivers w driver)) w,
     Ok (Some driver)).
Proof.
  intros Hreg Hidle Ht1. unfold request_driver. unfold_monad.
  rewrite Hreg. cbn [scan_drivers].
  rewrite Ht1, Hidle, Z.ltb_irrefl. reflexivity.
Qed.

(** [RiderRequest.do] where the only registered driver is idle. *)
Lemma RiderRequest_do_single (t : Z) (rider : rref) (driver : dref)
    (w : World) (t1 : Z) :
  _drivers (dispatcher w) = [driver] ->
  is_idle (drivers w driver) = true ->
  get_travel_time (drivers w driver) (origin (riders w rider)) = Ok t1 ->
  let r := riders w rider in
  let d := drivers w driver in
  let heading := mkDriver (driver_id d) (location d) (speed d) false
                          (Some (origin r)) in
  RiderRequest_do t rider w =
    (mkWorld (upd (upd (drivers w) driver heading) driver heading) (riders w)
       (dispatcher w)
       (monitor w ++ [mkNotification t RIDER REQUEST (rider_id r)
                        (Some (origin r))]),
     Ok [Pickup (t + t1) rider driver;
         Cancellation (t + patience r) rider]).
Proof.
  intros Hreg Hidle Ht1 r d heading. subst r d heading.
  unfold RiderRequest_do. run_monad.
  rewrite (request_driver_single rider driver _ t1);
    [|assumption|assumption|assumption].
  cbv beta iota zeta. unfold start_drive, set_driver, assign_to.
  cbn [drivers riders dispatcher monitor]. rewrite upd_same.
  cbn [driver_id location speed].
  rewrite (get_travel_time_ext _ (drivers w driver)), Ht1 by reflexivity.
  reflexivity.
Qed.

(** X19.  One idle registered driver, an empty waiting queue and a waiting
    rider, where the travel time [t1] of the driver to the rider's origin
    and the travel time [t2] from there to the rider's destination are
    returned, the speed being positive: the [RiderRequest] returns the
    [Pickup] after [t1], and the [Cancellation] after the rider's patience;
    that [Pickup] returns the [Dropoff] after [t2] more; that [Dropoff]
    returns a [DriverRequest] at the same time, which returns nothing.  The
    driver is then idle at the rider's destination, the rider is satisfied,
    the dispatcher is as it was, and the monitor has received six
    notifications. *)
Theorem one_rider_served
    (t t1 t2 : Z) (rider : rref) (driver : dref) (w : World)
    (Hregistered : _drivers (dispatcher w) = [driver])
    (Hqueue : _waiting_rider (dispatcher w) = [])
    (Hidle : is_idle (drivers w driver) = true)
    (Hspeed : 0 < speed (drivers w driver))
    (Hstatus : status (riders w rider) = WAITING)
    (Ht1 : get_travel_time (drivers w driver) (origin (riders w rider)) = Ok t1)
    (Ht2 : py_round_div
             (manhattan_distance (origin (riders w rider)) (dest (riders w rider)))
             (speed (drivers w driver)) = Ok t2) :
  let r := riders w rider in
  let d := drivers w driver in
  let s1 := Event_do (RiderRequest t rider) w in
  let s2 := Event_do (Pickup (t + t1) rider driver) (fst s1) in
  let s3 := Event_do (Dropoff (t + t1 + t2) rider driver) (fst s2) in
  let s4 := Event_do (DriverRequest (t + t1 + t2) driver) (fst s3) in
  snd s1 = Ok [Pickup (t + t1) rider driver;
               Cancellation (t + patience r) rider] /\
  snd s2 = Ok [Dropoff (t + t1 + t2) rider driver] /\
  snd s3 = Ok [DriverRequest (t + t1 + t2) driver] /\
  snd s4 = Ok [] /\
  t <= t + t1 <= t + t1 + t2 /\
  drivers (fst s4) driver =
    mkDriver (driver_id d) (Some (dest r)) (speed d) true None /\
  (forall u, u <> driver -> drivers (fst s4) u = drivers w u) /\
  riders (fst s4) rider = set_status SATISFIED r /\
  (forall x, x <> rider -> riders (fst s4) x = riders w x) /\
  dispatcher (fst s4) = dispatcher w /\
  monitor (fst s4) =
    monitor w ++
    [mkNotification t RIDER REQUEST (rider_id r) (Some (origin r));
     mkNotification (t + t1) DRIVER PICKUP (driver_id d) (Some (origin r));
     mkNotification (t + t1) RIDER PICKUP (rider_id r) (Some (origin r));
     mkNotification (t + t1 + t2) RIDER DROPOFF (rider_id r) (Some (origin r));
     mkNotification (t + t1 + t2) DRIVER DROPOFF (driver_id d) (Some (dest r));
     mkNotification (t + t1 + t2) DRIVER REQUEST (driver_id d) (Some (dest r))].
Proof.
  intros r d.
  assert (Hp1 : 0 <= t1) by (exact (get_travel_time_nonneg _ _ _ Hspeed Ht1)).
  assert (Hp2 : 0 <= t2)
    by (exact (py_round_div_nonneg _ _ _ (manhattan_distance_nonneg _ _)
                 Hspeed Ht2)).
  destruct w as [ds rs [l q] m]. simpl in Hregistered, Hqueue. subst l q.
  simpl in r, d, Hidle, Hspeed, Hstatus, Ht1, Ht2.
  subst r d. cbv zeta.
  assert (E1 := RiderRequest_do_single t rider driver
                  (mkWorld ds rs (mkDispatcher [driver] []) m) t1
                  eq_refl Hidle Ht1).
  cbv zeta in E1. cbn [drivers riders dispatcher monitor] in E1.
  change (Event_do (RiderRequest t rider)) with (RiderRequest_do t rider).
  rewrite E1. clear E1. cbn [fst snd].
  match goal with |- context [Event_do (Pickup ?a ?b ?c) ?W] =>
    eassert (E2 : Event_do (Pickup a b c) W = _) end.
  { unfold Event_do, Pickup_do. run_monad. cbn [riders]. rewrite Hstatus.
    unfold end_drive, start_ride, set_driver, set_rider.
    cbn [drivers riders dispatcher monitor]. rewrite ?upd_same.
    cbn [driver_id location speed destination origin dest set_status].
    unfold get_travel_time. cbn [location speed]. rewrite Ht2.
    reflexivity. }
  rewrite E2. clear E2. cbn [fst snd].
  match goal with |- context [Event_do (Dropoff ?a ?b ?c) ?W] =>
    eassert (E3 : Event_do (Dropoff a b c) W = _) end.
  { unfold Event_do, Dropoff_do. run_monad.
    unfold end_ride, set_driver.
    cbn [drivers riders dispatcher monitor]. rewrite ?upd_same.
    cbn [driver_id location speed destination].
    unfold cancel_ride. run_monad.
    cbn [dispatcher _waiting_rider List.length cancel_loop].
    unfold set_waiting, set_dispatcher.
    cbn [drivers riders dispatcher monitor _drivers set_status rider_id origin].
    reflexivity. }
  rewrite E3. clear E3. cbn [fst snd].
  match goal with |- context [Event_do (DriverRequest ?a ?b) ?W] =>
    eassert (E4 : Event_do (DriverRequest a b) W = _) end.
  { unfold Event_do, DriverRequest_do. run_monad.
    rewrite request_rider_spec.
    cbn [drivers riders dispatcher monitor _drivers _waiting_rider].
    rewrite ?upd_same. unfold registered_after, id_known.
    cbn [drivers riders dispatcher monitor _drivers _waiting_rider existsb].
    rewrite ?upd_same. rewrite String.eqb_refl. cbn [orb].
    unfold set_registered, set_dispatcher.
    cbn [drivers riders dispatcher monitor _drivers _waiting_rider
         driver_id location].
    reflexivity. }
  rewrite E4. clear E4. cbn [fst snd drivers riders dispatcher monitor].
  rewrite ?upd_same.
  split; [reflexivity|]. split; [reflexivity|]. split; [reflexivity|].
  split; [reflexivity|]. split; [lia|]. split; [reflexivity|].
  split; [intros u Hu; rewrite !upd_other by assumption; reflexivity|].
  split; [reflexivity|].
  split; [intros x Hx; rewrite !upd_other by assumption; reflexivity|].
  split; [reflexivity|].
  rewrite <- !app_assoc. reflexivity.
Qed.

Lemma one_rider_served_witness :
  status (riders world0 0%nat) = WAITING /\
  get_travel_time (drivers world0 0%nat) (origin (riders world0 0%nat)) = Ok 2 /\
  riders (world_after [RiderRequest 0 0%nat; Pickup 2 0%nat 0%nat;
                       Dropoff 8 0%nat 0%nat; DriverRequest 8 0%nat] world0)
         0%nat
    = set_status SATISFIED R0.
Proof.
  split; [reflexivity|]. split; [reflexivity|].
  assert (Hs : 0 < speed (drivers world0 0%nat)) by (simpl; lia).
  destruct (one_rider_served 0 2 6 0%nat 0%nat world0
              eq_refl eq_refl eq_refl Hs eq_refl eq_refl eq_refl)
    as (_ & _ & _ & _ & _ & _ & _ & Hr & _).
  exact Hr.
Defined.

(** X20.  The same start, the travel time [t1] of the driver to the rider's
    origin being returned, but the [Cancellation] is executed before the
    [Pickup]: the rider becomes [CANCELLED] and the monitor is told, yet the
    driver stays busy, heading for the rider's origin.  Only the [Pickup]
    frees it: it ends the drive there, notifies nobody and returns a
    [DriverRequest] at its own time, which finds no waiting rider.  The
    driver ends up idle at the origin of the rider that cancelled. *)
Theorem cancelled_rider_still_visited
    (t t1 tc tp : Z) (rider : rref) (driver : dref) (w : World)
    (Hregistered : _drivers (dispatcher w) = [driver])
    (Hqueue : _waiting_rider (dispatcher w) = [])
    (Hidle : is_idle (drivers w driver) = true)
    (Hstatus : status (riders w rider) = WAITING)
    (Ht1 : get_travel_time (drivers w driver) (origin (riders w rider)) = Ok t1) :
  let r := riders w rider in
  let d := drivers w driver in
  let s1 := Event_do (RiderRequest t rider) w in
  let s2 := Event_do (Cancellation tc rider) (fst s1) in
  let s3 := Event_do (Pickup tp rider driver) (fst s2) in
  let s4 := Event_do (DriverRequest tp driver) (fst s3) in
  snd s1 = Ok [Pickup (t + t1) rider driver;
               Cancellation (t + patience r) rider] /\
  snd s2 = Ok [] /\
  riders (fst s2) rider = set_status CANCELLED r /\
  drivers (fst s2) driver =
    mkDriver (driver_id d) (location d) (speed d) false (Some (origin r)) /\
  snd (request_driver rider (fst s2)) = Ok None /\
  snd s3 = Ok [DriverRequest tp driver] /\
  snd s4 = Ok [] /\
  drivers (fst s4) driver =
    mkDriver (driver_id d) (Some (origin r)) (speed d) true None /\
  riders (fst s4) rider = set_status CANCELLED r /\
  dispatcher (fst s4) = dispatcher w /\
  monitor (fst s4) =
    monitor w ++
    [mkNotification t RIDER REQUEST (rider_id r) (Some (origin r));
     mkNotification tc RIDER CANCEL (rider_id r) (Some (origin r));
     mkNotification tp DRIVER REQUEST (driver_id d) (Some (origin r))].
Proof.
  intros r d.
  destruct w as [ds rs [l q] m]. simpl in Hregistered, Hqueue. subst l q.
  simpl in r, d, Hidle, Hstatus, Ht1.
  subst r d. cbv zeta.
  assert (E1 := RiderRequest_do_single t rider driver
                  (mkWorld ds rs (mkDispatcher [driver] []) m) t1
                  eq_refl Hidle Ht1).
  cbv zeta in E1. cbn [drivers riders dispatcher monitor] in E1.
  change (Event_do (RiderRequest t rider)) with (RiderRequest_do t rider).
  rewrite E1. clear E1. cbn [fst snd].
  match goal with |- context [Event_do (Cancellation ?a ?b) ?W] =>
    eassert (E2 : Event_do (Cancellation a b) W = _) end.
  { unfold Event_do, Cancellation_do. run_monad. cbn [riders].
    rewrite Hstatus. unfold set_rider.
    cbn [drivers riders dispatcher monitor].
    unfold cancel_ride. run_monad.
    cbn [dispatcher _waiting_rider List.length cancel_loop].
    unfold set_waiting, set_dispatcher.
    cbn [drivers riders dispatcher monitor _drivers rider_id origin].
    reflexivity. }
  rewrite E2. clear E2. cbn [fst snd].
  match goal with |- context [Event_do (Pickup ?a ?b ?c) ?W] =>
    eassert (E3 : Event_do (Pickup a b c) W = _) end.
  { unfold Event_do, Pickup_do. run_monad. cbn [riders]. rewrite upd_same.
    cbn [status set_status]. unfold end_drive, set_driver.
    cbn [drivers riders dispatcher monitor]. rewrite ?upd_same.
    cbn [driver_id location speed destination]. reflexivity. }
  rewrite E3. clear E3. cbn [fst snd].
  match goal with |- context [Event_do (DriverRequest ?a ?b) ?W] =>
    eassert (E4 : Event_do (DriverRequest a b) W = _) end.
  { unfold Event_do, DriverRequest_do. run_monad.
    rewrite request_rider_spec.
    cbn [drivers riders dispatcher monitor _drivers _waiting_rider].
    rewrite ?upd_same. unfold registered_after, id_known.
    cbn [drivers riders dispatcher monitor _drivers _waiting_rider existsb].
    rewrite ?upd_same. rewrite String.eqb_refl. cbn [orb].
    unfold set_registered, set_dispatcher.
    cbn [drivers riders dispatcher monitor _drivers _waiting_rider
         driver_id location].
    reflexivity. }
  rewrite E4. clear E4. cbn [fst snd drivers riders dispatcher monitor].
  rewrite ?upd_same.
  split; [reflexivity|].
  split; [reflexivity|]. split; [reflexivity|]. split; [reflexivity|].
  split.
  { unfold request_driver. unfold_monad.
    cbn [drivers riders dispatcher monitor _drivers scan_drivers].
    rewrite !upd_same. cbn [origin set_status].
    rewrite (get_travel_time_ext _ (ds driver)), Ht1 by reflexivity.
    reflexivity. }
  split; [reflexivity|]. split; [reflexivity|]. split; [reflexivity|].
  split; [reflexivity|]. split; [reflexivity|].
  rewrite <- !app_assoc. reflexivity.
Qed.

Lemma cancelled_rider_still_visited_witness :
  status (riders world0 0%nat) = WAITING /\
  get_travel_time (drivers world0 0%nat) (origin (riders world0 0%nat)) = Ok 2 /\
  location
    (drivers (world_after [RiderRequest 0 0%nat; Cancellation 1 0%nat;
                           Pickup 2 0%nat 0%nat; DriverRequest 2 0%nat] world0)
             0%nat)
    = Some (origin R0).
Proof.
  split; [reflexivity|]. split; [reflexivity|].
  destruct (cancelled_rider_still_visited 0 2 1 2 0%nat 0%nat world0
              eq_refl eq_refl eq_refl eq_refl eq_refl)
    as (_ & _ & _ & _ & _ & _ & _ & Hd & _).
  exact (f_equal location Hd).
Defined.

(* ================================================================= *)
(** ** Equality of drivers and of riders *)

(** X21.  [Driver.__eq__] and [Rider.__eq__] compare the ids and nothing
    else: each is reflexive, symmetric and transitive, and holds exactly
    between objects of the same id.  So a driver stays equal to what it was
    through [start_drive], [end_drive], [start_ride] and [end_ride], and a
    rider through a change of status, while two drivers or riders that
    differ in everything but the id are equal. *)
Theorem equality_is_by_id (a b c : Driver) (x y z : Rider)
    (loc : Location) (s : RiderStatus) :
  (Driver_eqb a b = true <-> driver_id a = driver_id b) /\
  Driver_eqb a a = true /\
  Driver_eqb a b = Driver_eqb b a /\
  (Driver_eqb a b = true -> Driver_eqb b c = true -> Driver_eqb a c = true) /\
  Driver_eqb (fst (start_drive a loc)) a = true /\
  Driver_eqb (end_drive a) a = true /\
  Driver_eqb (fst (start_ride a x)) a = true /\
  Driver_eqb (end_ride a) a = true /\
  (Rider_eqb x y = true <-> rider_id x = rider_id y) /\
  Rider_eqb x x = true /\
  Rider_eqb x y = Rider_eqb y x /\
  (Rider_eqb x y = true -> Rider_eqb y z = true -> Rider_eqb x z = true) /\
  Rider_eqb (set_status s x) x = true.
Proof.
  unfold Driver_eqb, Rider_eqb. simpl.
  rewrite !String.eqb_refl, !String.eqb_eq.
  rewrite (String.eqb_sym (driver_id b) (driver_id a)).
  rewrite (String.eqb_sym (rider_id x) (rider_id y)).
  repeat match goal with |- _ /\ _ => split end;
    try reflexivity; try (split; congruence); congruence.
Qed.
